(** * The RLM REPL sample: EFSM state manager, security filter, sandbox and output router

    A shallow embedding of

    - [contributing/samples/adk_rlm_minimal/repl_state.py]
      ([REPLState], [SecurityLevel], [REPLStateManager]),
    - [contributing/samples/adk_rlm_minimal/repl_env.py]
      ([OutputRouter], [SecureInteractiveConsole], [ADKREPLEnvironment]),
    - [contributing/samples/adk_rlm_minimal/tools.py] ([execute_code], the
      review tools and their helpers),
    - the callers in [agents.py] ([before_base_agent_callback]) and
      [agent.py] ([_get_security_level]),

    followed by the properties of the specification, each stated over these
    definitions, and by further properties of the code.

    Conventions.  A Python [str] is a [string] whose characters are read as
    code points below 256.  A Python [dict] with string keys is a
    [gmap string pyval] where only lookups matter and an association list
    where the order of the items matters.  A Python exception is a value of
    type [exn]; code that can raise returns [exn + A], and code that also
    mutates an object threads that object through the monad [SM].
    The state store of a tool call is a parameter, [tools.StateStore]: the
    store of a running agent, which has no deletion, or a dictionary in its
    place.  Wall-clock readings ([execution_time]) and locks are left out. *)

From Stdlib Require Import ZArith Ascii.
From Stdlib Require String.
From stdpp Require Import base option list gmap strings pretty.

Set Warnings "-register-all".
Local Open Scope Z_scope.

(* ===================================================================== *)
(** * Python strings *)
(* ===================================================================== *)

Module PyStr.

(** [str.isspace] on one character, for code points below 256. *)
Definition is_space (c : ascii) : bool :=
  match c with
  | "009" | "010" | "011" | "012" | "013"
  | "028" | "029" | "030" | "031" | " " | "133" | "160" => true
  | _ => false
  end%char.

Fixpoint lstrip (s : string) : string :=
  match s with
  | String c s' => if is_space c then lstrip s' else s
  | EmptyString => EmptyString
  end.

Definition rstrip (s : string) : string :=
  String.rev (lstrip (String.rev s)).

(** [s.strip()] *)
Definition strip (s : string) : string := rstrip (lstrip s).

(** [s.split(sep)] for a one-character separator: never the empty list. *)
Fixpoint split (sep : ascii) (s : string) : list string :=
  match s with
  | EmptyString => [EmptyString]
  | String c s' =>
      if Ascii.eqb c sep then EmptyString :: split sep s'
      else match split sep s' with
           | h :: t => String c h :: t
           | [] => [String c EmptyString]
           end
  end.

(** [sep.join(l)] *)
Definition join (sep : string) (l : list string) : string :=
  String.concat sep l.

(** The double-quote character, as a string. *)
Definition dq : string := String "034"%char EmptyString.

(** The line-feed character. *)
Definition LF : ascii := "010"%char.
Definition nl : string := String LF EmptyString.

(** [s.startswith(p)] and [s.startswith((p1, ..., pn))] *)
Definition startswith (p s : string) : bool := String.prefix p s.

Definition startswith_any (ps : list string) (s : string) : bool :=
  existsb (fun p => startswith p s) ps.

(** [s.endswith(p)] *)
Definition endswith (p s : string) : bool :=
  String.prefix (String.rev p) (String.rev s).

(** [p in s] *)
Fixpoint contains (p s : string) : bool :=
  match s with
  | EmptyString => String.prefix p EmptyString
  | String _ s' => String.prefix p s || contains p s'
  end.

(** [s.find(c)] for a one-character needle: the first index, or -1. *)
Fixpoint find (c : ascii) (s : string) : Z :=
  match s with
  | EmptyString => -1
  | String a s' =>
      if Ascii.eqb a c then 0
      else let r := find c s' in if r <? 0 then -1 else r + 1
  end.

(** [s[i]] for an index [0 <= i < len(s)]. *)
Definition index (s : string) (i : Z) : option ascii :=
  if i <? 0 then None else String.get (Z.to_nat i) s.

Definition len (s : string) : Z := Z.of_nat (String.length s).

(** [c in chars] for a one-character [c]. *)
Definition char_in (c : ascii) (chars : string) : bool :=
  contains (String c EmptyString) chars.

End PyStr.

(* ===================================================================== *)
(** * Python values and exceptions *)
(* ===================================================================== *)

(** The values that the state store and the sandbox snapshot hold.  [PObj]
    stands for any object that is not JSON data (a function, a module, the
    safe-builtins table): only the name of its type is kept. *)
Inductive pyval : Type :=
  | PNone
  | PBool (b : bool)
  | PInt (z : Z)
  | PStr (s : string)
  | PList (l : list pyval)
  | PDict (items : list (string * pyval))
  | PObj (type_name : string).

(** Truth value of an object, as tested by [if x] and [not x]. *)
Definition truthy (v : pyval) : bool :=
  match v with
  | PNone => false
  | PBool b => b
  | PInt z => negb (z =? 0)
  | PStr s => negb (String.eqb s "")
  | PList l => match l with [] => false | _ => true end
  | PDict l => match l with [] => false | _ => true end
  | PObj _ => true
  end.

(** [type(v).__name__] *)
Definition type_name_of (v : pyval) : string :=
  match v with
  | PNone => "NoneType"
  | PBool _ => "bool"
  | PInt _ => "int"
  | PStr _ => "str"
  | PList _ => "list"
  | PDict _ => "dict"
  | PObj n => n
  end.

(** Exception classes.  [NotAnException] stands for the classes that derive
    from [BaseException] but not from [Exception] ([SystemExit],
    [KeyboardInterrupt], ...): an [except Exception] clause lets them pass. *)
Inductive exn_class : Type :=
  | AttributeError
  | ValueError
  | TypeError
  | OtherException (name : string)
  | NotAnException (name : string).

Record exn : Type := Exn { exn_cls : exn_class; exn_str : string }.

(** [isinstance(e, Exception)] *)
Definition is_Exception (e : exn) : bool :=
  match exn_cls e with NotAnException _ => false | _ => true end.

Definition is_ValueError (e : exn) : bool :=
  match exn_cls e with ValueError => true | _ => false end.

(** ** Code that mutates an object and may raise *)

Definition SM (S A : Type) : Type := S → (exn + A) * S.

Definition sm_ret {S A} (a : A) : SM S A := λ s, (inr a, s).
Definition sm_raise {S A} (e : exn) : SM S A := λ s, (inl e, s).
Definition sm_bind {S A B} (m : SM S A) (k : A → SM S B) : SM S B :=
  λ s, match m s with
       | (inl e, s') => (inl e, s')
       | (inr a, s') => k a s'
       end.
Definition sm_get {S} : SM S S := λ s, (inr s, s).
Definition sm_modify {S} (f : S → S) : SM S unit := λ s, (inr tt, f s).
(** A call that cannot touch the object but may raise. *)
Definition sm_lift {S A} (r : exn + A) : SM S A := λ s, (r, s).

Notation "x <- m ;; k" := (sm_bind m (λ x, k))
  (at level 100, m at next level, right associativity).
Notation "m ;;; k" := (sm_bind m (λ _, k))
  (at level 100, right associativity).

(* ===================================================================== *)
(** * repl_state.py *)
(* ===================================================================== *)

(** [class REPLState(str, Enum)] *)
Inductive REPLState : Type :=
  | IDLE
  | CODE_PENDING_REVIEW
  | CODE_APPROVED
  | CODE_REJECTED
  | EXECUTING
  | COMPLETE.

Global Instance REPLState_eq_dec : EqDecision REPLState.
Proof. solve_decision. Defined.

(** [s.value] *)
Definition REPLState_value (s : REPLState) : string :=
  match s with
  | IDLE => "idle"
  | CODE_PENDING_REVIEW => "code_pending_review"
  | CODE_APPROVED => "code_approved"
  | CODE_REJECTED => "code_rejected"
  | EXECUTING => "executing"
  | COMPLETE => "complete"
  end.

Definition REPLState_members : list REPLState :=
  [IDLE; CODE_PENDING_REVIEW; CODE_APPROVED; CODE_REJECTED; EXECUTING; COMPLETE].

(** [class SecurityLevel(str, Enum)] *)
Inductive SecurityLevel : Type := NONE | BASIC | STRICT.

Global Instance SecurityLevel_eq_dec : EqDecision SecurityLevel.
Proof. solve_decision. Defined.

Definition SecurityLevel_value (l : SecurityLevel) : string :=
  match l with NONE => "none" | BASIC => "basic" | STRICT => "strict" end.

Definition SecurityLevel_members : list SecurityLevel := [NONE; BASIC; STRICT].

(** The call [E(v)] of an enumeration class: look the member up by value,
    [ValueError] when there is none.  A string can only equal a string, so
    every other value misses.  The library's message starts with the [repr]
    of [v]; only its fixed part is kept. *)
Definition enum_call {E : Type} (members : list E) (value : E → string)
    (name : string) (v : pyval) : exn + E :=
  match v with
  | PStr s =>
      match List.find (λ m, String.eqb (value m) s) members with
      | Some m => inr m
      | None => inl (Exn ValueError ("not a valid " +:+ name))
      end
  | _ => inl (Exn ValueError ("not a valid " +:+ name))
  end.

Definition REPLState_call : pyval → exn + REPLState :=
  enum_call REPLState_members REPLState_value "REPLState".

Definition SecurityLevel_call : pyval → exn + SecurityLevel :=
  enum_call SecurityLevel_members SecurityLevel_value "SecurityLevel".

(** State keys *)
Definition REPL_STATE_KEY : string := "repl_state".
Definition REPL_LOCALS_KEY : string := "repl_locals".
Definition REPL_GLOBALS_KEY : string := "repl_globals".
Definition REPL_CONTEXT_KEY : string := "repl_context".
Definition REPL_ITERATION_KEY : string := "repl_iteration".
Definition REPL_MAX_ITERATIONS_KEY : string := "repl_max_iterations".
Definition REPL_PENDING_CODE_KEY : string := "temp:repl_pending_code".
Definition REPL_LAST_OUTPUT_KEY : string := "repl_last_output".
Definition REPL_LAST_ERROR_KEY : string := "repl_last_error".
Definition REPL_FINAL_ANSWER_KEY : string := "repl_final_answer".
Definition REPL_CODE_HISTORY_KEY : string := "repl_code_history".
Definition REPL_SECURITY_LEVEL_KEY : string := "repl_security_level".
Definition REPL_QUERY_KEY : string := "repl_query".
Definition REPL_ARTIFACT_ENABLED_KEY : string := "repl_artifact_enabled".

(** The ADK state dictionary, [dict[str, Any]]. *)
Abbreviation state_dict := (gmap string pyval).

(** [d.get(k, dflt)] *)
Definition dict_get (d : state_dict) (k : string) (dflt : pyval) : pyval :=
  default dflt (d !! k).

(** ** The class object [REPLStateManager]

    Every method of [REPLStateManager] is a [classmethod]: its first argument
    is the class object [cls], and the transition table is read as the class
    attribute [cls.VALID_TRANSITIONS].  The table is declared as a dataclass
    field with a [default_factory]:

      [VALID_TRANSITIONS: dict[REPLState, set[REPLState]] = field(default_factory=lambda: {...})]

    For such a field the [@dataclass] decorator removes the class attribute:
    the documentation of [dataclasses.field] says that when the default is
    not provided the class attribute is deleted, and a [default_factory] is
    not a default.  The table therefore exists on instances only, and
    [cls.VALID_TRANSITIONS] in a classmethod raises [AttributeError].  The
    class object is modelled with an optional attribute, [None] standing for
    the unbound name. *)
Definition transition_table : Type := list (REPLState * list REPLState).

Record class_object : Type :=
  { cls_VALID_TRANSITIONS : option transition_table }.

(** The value the [default_factory] builds. *)
Definition VALID_TRANSITIONS : transition_table :=
  [ (IDLE, [CODE_PENDING_REVIEW; COMPLETE]);
    (CODE_PENDING_REVIEW, [CODE_APPROVED; CODE_REJECTED; COMPLETE]);
    (CODE_APPROVED, [EXECUTING; COMPLETE]);
    (CODE_REJECTED, [IDLE; COMPLETE]);
    (EXECUTING, [IDLE; COMPLETE]);
    (COMPLETE, []) ].

(** The class as [@dataclass] leaves it. *)
Definition REPLStateManager : class_object :=
  {| cls_VALID_TRANSITIONS := None |}.

(** A class object on which the table is bound (what a [ClassVar] or a plain
    class-level constant gives). *)
Definition REPLStateManager_bound : class_object :=
  {| cls_VALID_TRANSITIONS := Some VALID_TRANSITIONS |}.

(** [table.get(k, set())] *)
Fixpoint table_get (t : transition_table) (k : REPLState) : list REPLState :=
  match t with
  | [] => []
  | (k', v) :: t' => if decide (k' = k) then v else table_get t' k
  end.

(** [to_state in valid_targets] *)
Definition set_mem (x : REPLState) (s : list REPLState) : bool :=
  existsb (λ y, bool_decide (y = x)) s.

Definition can_transition (cls : class_object)
    (from_state to_state : REPLState) : exn + bool :=
  match cls_VALID_TRANSITIONS cls with
  | None =>
      inl (Exn AttributeError
        "type object 'REPLStateManager' has no attribute 'VALID_TRANSITIONS'")
  | Some table =>
      let valid_targets := table_get table from_state in
      inr (set_mem to_state valid_targets)
  end.

Definition get_state_from_dict (d : state_dict) : exn + REPLState :=
  let state_str := dict_get d REPL_STATE_KEY (PStr (REPLState_value IDLE)) in
  match REPLState_call state_str with
  | inr s => inr s
  | inl e => if is_ValueError e then inr IDLE else inl e
  end.

Definition initialize_state (d : state_dict)
    (context query : option string) (max_iterations : Z)
    (security_level : SecurityLevel) (artifact_enabled : bool) : state_dict :=
  let d := <[REPL_STATE_KEY := PStr (REPLState_value IDLE)]> d in
  let d := <[REPL_LOCALS_KEY := PDict []]> d in
  let d := <[REPL_GLOBALS_KEY := PDict []]> d in
  let d := <[REPL_ITERATION_KEY := PInt 0]> d in
  let d := <[REPL_MAX_ITERATIONS_KEY := PInt max_iterations]> d in
  let d := <[REPL_LAST_OUTPUT_KEY := PStr ""]> d in
  let d := <[REPL_LAST_ERROR_KEY := PStr ""]> d in
  let d := <[REPL_CODE_HISTORY_KEY := PList []]> d in
  let d := <[REPL_SECURITY_LEVEL_KEY := PStr (SecurityLevel_value security_level)]> d in
  let d := <[REPL_ARTIFACT_ENABLED_KEY := PBool artifact_enabled]> d in
  let d := match context with
           | Some c => <[REPL_CONTEXT_KEY := PStr c]> d
           | None => d
           end in
  match query with
  | Some q => <[REPL_QUERY_KEY := PStr q]> d
  | None => d
  end.

Definition transition_to (cls : class_object) (new_state : REPLState)
    (validate : bool) : SM state_dict bool :=
  d <- sm_get ;;
  current_state <- sm_lift (get_state_from_dict d) ;;
  ok <- (if validate
         then sm_lift (can_transition cls current_state new_state)
         else sm_ret true) ;;
  if negb ok then
    sm_raise (Exn ValueError
      ("Invalid state transition from " +:+ REPLState_value current_state
       +:+ " to " +:+ REPLState_value new_state))
  else
    sm_modify (<[REPL_STATE_KEY := PStr (REPLState_value new_state)]>) ;;;
    sm_ret true.

(** [current + 1] for the objects the store can hold: [bool] is a subclass
    of [int]; the other types do not add to an [int]. *)
Definition add_one (v : pyval) : exn + Z :=
  match v with
  | PInt z => inr (z + 1)
  | PBool b => inr (Z.b2z b + 1)
  | PStr _ =>
      inl (Exn TypeError ("can only concatenate str (not " +:+ PyStr.dq +:+ "int" +:+ PyStr.dq +:+ ") to str"))
  | PList _ =>
      inl (Exn TypeError ("can only concatenate list (not " +:+ PyStr.dq +:+ "int" +:+ PyStr.dq +:+ ") to list"))
  | _ => inl (Exn TypeError
           ("unsupported operand type(s) for +: '" +:+ type_name_of v +:+ "' and 'int'"))
  end.

Definition increment_iteration : SM state_dict Z :=
  d <- sm_get ;;
  let current := dict_get d REPL_ITERATION_KEY (PInt 0) in
  new_count <- sm_lift (add_one current) ;;
  sm_modify (<[REPL_ITERATION_KEY := PInt new_count]>) ;;;
  sm_ret new_count.

Definition add_code_to_history (code stdout stderr : string) : SM state_dict unit :=
  d <- sm_get ;;
  let history := dict_get d REPL_CODE_HISTORY_KEY (PList []) in
  match history with
  | PList l =>
      let entry := PDict [ ("code", PStr code); ("stdout", PStr stdout);
                           ("stderr", PStr stderr);
                           ("iteration", dict_get d REPL_ITERATION_KEY (PInt 0)) ] in
      sm_modify (<[REPL_CODE_HISTORY_KEY := PList (l ++ [entry])]>)
  | _ =>
      sm_raise (Exn AttributeError
        ("'" +:+ type_name_of history +:+ "' object has no attribute 'append'"))
  end.

Definition set_pending_code (code : string) : SM state_dict unit :=
  sm_modify (<[REPL_PENDING_CODE_KEY := PStr code]>).

(** [None] is Python's [None]. *)
Definition get_pending_code (d : state_dict) : option pyval :=
  d !! REPL_PENDING_CODE_KEY.

Definition clear_pending_code : SM state_dict unit :=
  sm_modify (delete REPL_PENDING_CODE_KEY).

Definition set_final_answer (cls : class_object) (answer : string)
    : SM state_dict unit :=
  sm_modify (<[REPL_FINAL_ANSWER_KEY := PStr answer]>) ;;;
  transition_to cls COMPLETE false ;;;
  sm_ret tt.

Definition get_final_answer (d : state_dict) : option pyval :=
  d !! REPL_FINAL_ANSWER_KEY.

Definition is_complete (d : state_dict) : exn + bool :=
  match get_state_from_dict d with
  | inr s => inr (bool_decide (s = COMPLETE))
  | inl e => inl e
  end.

(* ===================================================================== *)
(** * repl_env.py *)
(* ===================================================================== *)

(** ** [OutputRouter] *)

Record OutputRouter : Type :=
  { _base_lm_buffer : string;
    _sub_lm_buffer : string;
    _current_target : string }.

(** [OutputRouter.__init__] *)
Definition OutputRouter_init : OutputRouter :=
  {| _base_lm_buffer := ""; _sub_lm_buffer := ""; _current_target := "base" |}.

Definition set_target (target : string) (r : OutputRouter) : OutputRouter :=
  {| _base_lm_buffer := _base_lm_buffer r;
     _sub_lm_buffer := _sub_lm_buffer r;
     _current_target := target |}.

Definition get_buffer (target : option string) (r : OutputRouter) : string :=
  let target := default (_current_target r) target in
  if String.eqb target "base" then _base_lm_buffer r else _sub_lm_buffer r.

Definition clear_buffer (target : option string) (r : OutputRouter) : OutputRouter :=
  let target := default (_current_target r) target in
  if String.eqb target "base"
  then {| _base_lm_buffer := ""; _sub_lm_buffer := _sub_lm_buffer r;
          _current_target := _current_target r |}
  else {| _base_lm_buffer := _base_lm_buffer r; _sub_lm_buffer := "";
          _current_target := _current_target r |}.

Definition write (text : string) (r : OutputRouter) : OutputRouter :=
  if String.eqb (_current_target r) "base"
  then {| _base_lm_buffer := _base_lm_buffer r +:+ text;
          _sub_lm_buffer := _sub_lm_buffer r;
          _current_target := _current_target r |}
  else {| _base_lm_buffer := _base_lm_buffer r;
          _sub_lm_buffer := _sub_lm_buffer r +:+ text;
          _current_target := _current_target r |}.

(** [with router.redirect(target): body].  The body is any code that may
    use the router and may raise; the [finally] clause runs on both exits and
    the outcome of the body is the outcome of the whole statement. *)
Definition redirect {A} (target : string) (body : SM OutputRouter A)
    : SM OutputRouter A :=
  λ r,
    let old_target := _current_target r in
    let '(outcome, r') := body (set_target target r) in
    (outcome, set_target old_target r').

(** The closure [llm_query] that [_add_special_functions] installs; the
    callback is any code that may use the router and may raise. *)
Definition llm_query (sub_lm_callback : option (string → SM OutputRouter string))
    (prompt : string) : SM OutputRouter string :=
  match sub_lm_callback with
  | None => sm_ret "Error: Sub-LLM not available"
  | Some callback => redirect "sub" (callback prompt)
  end.

(** ** The Python runtime

    [exec], [eval], [repr] and the host file system belong to the language
    runtime, not to the repository: the console is embedded for an arbitrary
    runtime.  A call reports the namespace it leaves behind, the text it
    wrote to [sys.stdout] and [sys.stderr], and its outcome. *)
Record effect (L A : Type) : Type := Effect
  { eff_locals : L;
    eff_stdout : string;
    eff_stderr : string;
    eff_result : exn + A }.
Arguments Effect {L A}.
Arguments eff_locals {L A}.
Arguments eff_stdout {L A}.
Arguments eff_stderr {L A}.
Arguments eff_result {L A}.

Class PyRuntime : Type :=
  { (** the namespace [self.locals] together with the objects it reaches *)
    py_locals : Type;
    (** a live object *)
    py_value : Type;
    (** [exec(code, locals, locals)] *)
    py_exec : string → py_locals → effect py_locals unit;
    (** [eval(expr, locals, locals)] *)
    py_eval : string → py_locals → effect py_locals py_value;
    (** [repr(v)] *)
    py_repr : py_value → py_locals → effect py_locals string;
    (** [locals.items()] *)
    py_items : py_locals → list (string * py_value);
    (** the object as data: what a store that holds it shows *)
    py_reify : py_value → pyval;
    (** [{**safe_globals, **locals_dict}] with [llm_query] and [FINAL_VAR] added *)
    host_console_locals : pyval → exn + py_locals;
    (** [tempfile.mkdtemp(prefix="adk_repl_")] *)
    host_mkdtemp : exn + string;
    (** [with open(path, "w") as f: f.write(content)] *)
    host_write_text : string → pyval → exn + unit }.

(** [json.dumps(v)] succeeds. *)
Fixpoint json_ok (v : pyval) : bool :=
  match v with
  | PList l => forallb json_ok l
  | PDict items => forallb (λ kv, json_ok (snd kv)) items
  | PObj _ => false
  | _ => true
  end.

(** ** [SecureInteractiveConsole] *)

Definition dangerous_patterns : list (string * string) :=
  [ ("import os", "os module import blocked");
    ("import subprocess", "subprocess module import blocked");
    ("import sys", "sys module import blocked for security");
    ("__import__('os')", "dynamic os import blocked");
    ("__import__('subprocess')", "dynamic subprocess import blocked");
    ("eval(", "eval() is blocked");
    ("exec(", "exec() is blocked");
    ("compile(", "compile() is blocked");
    ("open('/", "absolute path file access restricted");
    ("os.system", "os.system() is blocked");
    ("subprocess.", "subprocess operations blocked") ].

(** The loop [for pattern, message in patterns: if pattern in code_str:
    return False, message]; [Some message] is the early return. *)
Fixpoint scan_patterns (patterns : list (string * string)) (code_str : string)
    : option string :=
  match patterns with
  | [] => None
  | (pattern, message) :: rest =>
      if PyStr.contains pattern code_str then Some message
      else scan_patterns rest code_str
  end.

Definition check_code_security (level : SecurityLevel) (code_str : string)
    : bool * string :=
  if decide (level = NONE) then (true, "Security checks disabled")
  else
    match (if bool_decide (level = BASIC) || bool_decide (level = STRICT)
           then scan_patterns dangerous_patterns code_str else None) with
    | Some message => (false, message)
    | None => (true, "Code passed security checks")
    end.

Definition statement_starters : list string :=
  [ "import "; "from "; "def "; "class "; "if "; "for "; "while ";
    "try:"; "with "; "return "; "yield "; "break"; "continue"; "pass";
    "raise "; "assert "; "del "; "global "; "nonlocal " ].

Definition _is_expression (line : string) : bool :=
  if PyStr.startswith_any statement_starters line then false
  else if PyStr.contains "=" (hd "" (PyStr.split "#" line)) then
    let eq_idx := PyStr.find "=" line in
    if 0 <? eq_idx then
      match PyStr.index line (eq_idx - 1) with
      | Some prev_char =>
          if PyStr.char_in prev_char "!<>=" then true
          else if (eq_idx <? PyStr.len line - 1)
                  && bool_decide (PyStr.index line (eq_idx + 1) = Some "="%char)
          then true
          else false
      | None => false (* not reached: [0 < eq_idx] is an index of [line] *)
      end
    else false
  else if PyStr.endswith ":" line then false
  else if PyStr.startswith "print(" line then false
  else true.

Record REPLResult : Type :=
  { stdout : string;
    stderr : string;
    locals_snapshot : list (string * pyval);
    success : bool }.

Section Console.
Context `{RT : PyRuntime}.

Record SecureInteractiveConsole : Type :=
  { _security_level : SecurityLevel;
    locals : py_locals }.

(** [_safe_locals_snapshot], on a namespace whose keys are strings and whose
    values [json.dumps] settles, by returning or by raising [TypeError] or
    [ValueError]: this is what [py_items] and [json_ok] describe.  The method
    is called after the [try] of [execute_code], so anything else it raises
    ([AttributeError] at [key.startswith] on a key that is no string,
    [RecursionError] on a value nested too deeply) leaves [execute_code];
    such namespaces are outside this model and nothing is stated of them. *)
Definition _safe_locals_snapshot (l : py_locals) : list (string * pyval) :=
  omap (λ '(key, value),
          if PyStr.startswith "_" key || String.eqb key "__builtins__" then None
          else if json_ok (py_reify value) then Some (key, py_reify value)
          else Some (key, PStr ("<" +:+ type_name_of (py_reify value) +:+ ">")))
       (py_items l).

(** [dict(self.locals)] *)
Definition raw_locals (l : py_locals) : list (string * pyval) :=
  (λ '(key, value), (key, py_reify value)) <$> py_items l.

(** What the [with self._capture_output()] block works on: the namespace and
    the two buffers that stand in for [sys.stdout] and [sys.stderr]. *)
Record capture : Type :=
  { cap_locals : py_locals;
    stdout_buffer : string;
    stderr_buffer : string }.

Definition run_effect {A} (f : py_locals → effect py_locals A) : SM capture A :=
  λ c,
    let e := f (cap_locals c) in
    (eff_result e,
     {| cap_locals := eff_locals e;
        stdout_buffer := stdout_buffer c +:+ eff_stdout e;
        stderr_buffer := stderr_buffer c +:+ eff_stderr e |}).

Definition exec_ (code : string) : SM capture unit := run_effect (py_exec code).
Definition eval_ (expr : string) : SM capture py_value := run_effect (py_eval expr).
Definition repr_ (v : py_value) : SM capture string := run_effect (py_repr v).

(** [print(s)] while [sys.stdout] is the capture buffer. *)
Definition print_ (s : string) : SM capture unit :=
  sm_modify (λ c, {| cap_locals := cap_locals c;
                     stdout_buffer := stdout_buffer c +:+ s +:+ PyStr.nl;
                     stderr_buffer := stderr_buffer c |}).

(** [try: body  except Exception: handler] *)
Definition try_except_Exception {S A} (body : SM S A) (handler : exn → SM S A)
    : SM S A :=
  λ s, match body s with
       | (inl e, s') => if is_Exception e then handler e s' else (inl e, s')
       | (inr a, s') => (inr a, s')
       end.

Definition is_import_line (line : string) : bool :=
  let stripped := PyStr.strip line in
  PyStr.startswith_any ["import "; "from "] stripped
  && negb (PyStr.startswith "#" stripped).

(** The loop that fills [import_lines] and [other_lines]. *)
Definition partition_lines (lines : list string) : list string * list string :=
  (List.filter is_import_line lines,
   List.filter (λ line, negb (is_import_line line)) lines).

Definition is_non_comment_line (line : string) : bool :=
  negb (String.eqb (PyStr.strip line) "")
  && negb (PyStr.startswith "#" (PyStr.strip line)).

(** The loop [for i, line in enumerate(other_lines): if line.strip() ==
    last_line: last_line_idx = i], started at [-1]. *)
Fixpoint find_last_line_idx (other_lines : list string) (last_line : string)
    (i : Z) (last_line_idx : Z) : Z :=
  match other_lines with
  | [] => last_line_idx
  | line :: rest =>
      find_last_line_idx rest last_line (i + 1)
        (if String.eqb (PyStr.strip line) last_line then i else last_line_idx)
  end.

(** The attempt to run the body with its last line as an expression. *)
Definition run_as_expression (other_lines non_comment_lines : list string)
    (last_line : string) : SM capture unit :=
  (if 1 <? Z.of_nat (length non_comment_lines) then
     let last_line_idx := find_last_line_idx other_lines last_line 0 (-1) in
     if 0 <? last_line_idx then
       let statements_code :=
         PyStr.join PyStr.nl (take (Z.to_nat last_line_idx) other_lines) in
       exec_ statements_code
     else sm_ret tt
   else sm_ret tt) ;;;
  result <- eval_ last_line ;;
  match py_reify result with
  | PNone => sm_ret tt
  | _ => s <- repr_ result ;; print_ s
  end.

(** [if import_lines: exec(import_code, ...)] *)
Definition run_imports (import_lines : list string) : SM capture unit :=
  match import_lines with
  | [] => sm_ret tt
  | _ => exec_ (PyStr.join PyStr.nl import_lines)
  end.

(** [if other_lines: ...] *)
Definition run_others (other_lines : list string) : SM capture unit :=
  match other_lines with
  | [] => sm_ret tt
  | _ =>
      let other_code := PyStr.join PyStr.nl other_lines in
      let non_comment_lines := List.filter is_non_comment_line other_lines in
      match last non_comment_lines with
      | None => sm_ret tt
      | Some l =>
          let last_line := PyStr.strip l in
          if _is_expression last_line then
            try_except_Exception
              (run_as_expression other_lines non_comment_lines last_line)
              (λ _, exec_ other_code)
          else exec_ other_code
      end
  end.

(** The body of the outer [try] of [execute_code]. *)
Definition run_submission (code_str : string) : SM capture unit :=
  let lines := PyStr.split PyStr.LF code_str in
  let '(import_lines, other_lines) := partition_lines lines in
  run_imports import_lines ;;;
  run_others other_lines.

(** [SecureInteractiveConsole.execute_code]: the result, or an exception
    that is not an [Exception] and so passes the handler, and the console
    afterwards. *)
Definition execute_code (self : SecureInteractiveConsole) (code_str : string)
    : (exn + REPLResult) * SecureInteractiveConsole :=
  let '(is_safe, security_msg) := check_code_security (_security_level self) code_str in
  if negb is_safe then
    (inr {| stdout := "";
            stderr := "Security Error: " +:+ security_msg;
            locals_snapshot := raw_locals (locals self);
            success := false |}, self)
  else
    let c0 := {| cap_locals := locals self; stdout_buffer := ""; stderr_buffer := "" |} in
    let '(outcome, c) := run_submission code_str c0 in
    let self' := {| _security_level := _security_level self; locals := cap_locals c |} in
    match outcome with
    | inr _ =>
        (inr {| stdout := stdout_buffer c;
                stderr := stderr_buffer c;
                locals_snapshot := _safe_locals_snapshot (cap_locals c);
                success := true |}, self')
    | inl e =>
        if is_Exception e then
          (inr {| stdout := stdout_buffer c;
                  stderr := stderr_buffer c +:+ exn_str e;
                  locals_snapshot := _safe_locals_snapshot (cap_locals c);
                  success := false |}, self')
        else (inl e, self')
    end.

End Console.

(** ** [ADKREPLEnvironment] *)

Section Environment.
Context `{RT : PyRuntime}.

(** [tools.py] never passes a [sub_lm_callback], so [_sub_lm_callback] stays
    [None] and is not a field here. *)
Record ADKREPLEnvironment : Type :=
  { env_security_level : SecurityLevel;
    _output_router : OutputRouter;
    _console : option SecureInteractiveConsole;
    _temp_dir : string }.

(** [ADKREPLEnvironment.__init__] with [temp_dir=None] *)
Definition ADKREPLEnvironment_init (security_level : SecurityLevel)
    : exn + ADKREPLEnvironment :=
  match host_mkdtemp with
  | inl e => inl e
  | inr dir => inr {| env_security_level := security_level;
                      _output_router := OutputRouter_init;
                      _console := None;
                      _temp_dir := dir |}
  end.

(** [os.path.join(a, b)] for a relative [b], POSIX flavour *)
Definition path_join (a b : string) : string :=
  if String.eqb a "" || PyStr.endswith "/" a then a +:+ b else a +:+ "/" +:+ b.

Definition with_console (self : ADKREPLEnvironment)
    (c : option SecureInteractiveConsole) : ADKREPLEnvironment :=
  {| env_security_level := env_security_level self;
     _output_router := _output_router self;
     _console := c;
     _temp_dir := _temp_dir self |}.

Definition _load_string_context (context : pyval) : SM ADKREPLEnvironment unit :=
  self <- sm_get ;;
  match _console self with
  | None => sm_ret tt
  | Some console =>
      let context_path := path_join (_temp_dir self) "context.txt" in
      sm_lift (host_write_text context_path context) ;;;
      let load_code :=
        PyStr.nl +:+ "with open(r'" +:+ context_path +:+ "', 'r') as f:" +:+ PyStr.nl
        +:+ "    context = f.read()" +:+ PyStr.nl in
      let '(outcome, console') := execute_code console load_code in
      sm_modify (λ self, with_console self (Some console')) ;;;
      match outcome with
      | inl e => sm_raise e
      | inr _ => sm_ret tt
      end
  end.

(** [initialize(context=..., locals_dict=..., sub_lm_callback=None)] *)
Definition initialize (context : option pyval) (locals_dict : pyval)
    : SM ADKREPLEnvironment unit :=
  self <- sm_get ;;
  l <- sm_lift (host_console_locals (if truthy locals_dict then locals_dict else PDict [])) ;;
  sm_modify (λ self, with_console self
               (Some {| _security_level := env_security_level self; locals := l |})) ;;;
  match context with
  | None | Some PNone => sm_ret tt
  | Some context => _load_string_context context
  end.

(** [ADKREPLEnvironment.execute] *)
Definition execute (code : string) : SM ADKREPLEnvironment REPLResult :=
  self <- sm_get ;;
  match _console self with
  | None =>
      sm_ret {| stdout := ""; stderr := "Error: REPL not initialized";
                locals_snapshot := []; success := false |}
  | Some console =>
      let '(outcome, console') := execute_code console code in
      sm_modify (λ self, with_console self (Some console')) ;;;
      sm_lift outcome
  end.

End Environment.

(* ===================================================================== *)
(** * tools.py *)
(* ===================================================================== *)

Module tools.

(** Modelled from the spec: the class of the object [tool_context.state] is
    not under src/.  The spec (§6) gives the session's state store
    [get(key)] and [set(key, value)] and nothing else, and the tools use it
    through [state.get], [state[key] = value] and [key in state], which a
    dictionary serves in the same way; it has no deletion.  [ADKState] is
    such a store: a class that defines [__setitem__] and no [__delitem__], on
    which [del state[key]] raises [AttributeError] with the message
    [__delitem__].  [PlainDict] is a [dict] in its place, as a test double
    passes one and as the declared type [dict[str, Any]] of the state
    manager's methods reads. *)
Inductive store_kind : Type := PlainDict | ADKState.

(** The store behind [tool_context.state] in the calls at hand. *)
Class StateStore : Type := store_of : store_kind.

Section Tools.
Context `{RT : PyRuntime} `{ST : StateStore}.

(** What a tool call works on: the content of the session's state store
    ([tool_context.state]) and the module-level table [_repl_environments].
    [transitions] is a history variable: the targets of the calls of
    [transition_to] that returned, oldest first. *)
Record world : Type :=
  { state : state_dict;
    _repl_environments : gmap string ADKREPLEnvironment;
    transitions : list REPLState }.

Definition on_state {A} (m : SM state_dict A) : SM world A :=
  λ w, let '(r, d) := m (state w) in
       (r, {| state := d;
              _repl_environments := _repl_environments w;
              transitions := transitions w |}).

Definition set_item (k : string) (v : pyval) : SM world unit :=
  on_state (sm_modify (<[k := v]>)).

(** [REPLStateManager.transition_to(state, new_state)] *)
Definition transition (cls : class_object) (new_state : REPLState) : SM world bool :=
  r <- on_state (transition_to cls new_state true) ;;
  sm_modify (λ w, {| state := state w;
                     _repl_environments := _repl_environments w;
                     transitions := transitions w ++ [new_state] |}) ;;;
  sm_ret r.

(** The body of [if session_id not in _repl_environments]: the environment
    built from the state, before it is stored in the table. *)
Definition new_repl (d : state_dict) : exn + ADKREPLEnvironment :=
  let security_str :=
    dict_get d REPL_SECURITY_LEVEL_KEY (PStr (SecurityLevel_value BASIC)) in
  match SecurityLevel_call security_str with
  | inl e => inl e
  | inr security_level =>
      match ADKREPLEnvironment_init security_level with
      | inl e => inl e
      | inr repl =>
          let context := d !! REPL_CONTEXT_KEY in
          let locals_dict := dict_get d REPL_LOCALS_KEY (PDict []) in
          match initialize context locals_dict repl with
          | (inl e, _) => inl e
          | (inr _, repl) => inr repl
          end
      end
  end.

Definition _get_or_create_repl (session_id : string) : SM world ADKREPLEnvironment :=
  w <- sm_get ;;
  match _repl_environments w !! session_id with
  | Some repl => sm_ret repl
  | None =>
      repl <- sm_lift (new_repl (state w)) ;;
      sm_modify (λ w, {| state := state w;
                         _repl_environments := <[session_id := repl]> (_repl_environments w);
                         transitions := transitions w |}) ;;;
      sm_ret repl
  end.

(** [_truncate_output(output, max_chars)] *)
Definition _truncate_output (output : string) (max_chars : Z) : string :=
  if PyStr.len output <=? max_chars then output
  else String.substring 0 (Z.to_nat max_chars) output
       +:+ PyStr.nl +:+ "... [truncated, " +:+ pretty (PyStr.len output - max_chars)
       +:+ " chars omitted]".

(** The dictionaries [execute_code] returns ([execution_time] left out). *)
Inductive response : Type :=
  | PendingApproval (message code : string)
  | EarlyError (message : string)
  | Executed (status : string) (out : string) (err : option string)
             (variables : list string) (error : option string).

(** [_save_code_artifact]: talks to the external artifact service, reads the
    state without writing it and swallows every [Exception]. *)
Definition _save_code_artifact (code : string) (result : REPLResult) : SM world unit :=
  sm_ret tt.

(** [REPLStateManager.clear_pending_code(state)] on the store of a tool call:
    [if REPL_PENDING_CODE_KEY in state_dict: del state_dict[...]].  On a
    dictionary it is [clear_pending_code]; on [ADKState] the test works and
    the [del] raises. *)
Definition clear_pending_code_on_store : SM state_dict unit :=
  match store_of with
  | PlainDict => clear_pending_code
  | ADKState =>
      d <- sm_get ;;
      match d !! REPL_PENDING_CODE_KEY with
      | Some _ => sm_raise (Exn AttributeError "__delitem__")
      | None => sm_ret tt
      end
  end.

(** The part of [execute_code] that follows the approval. *)
Definition run_approved (cls : class_object) (session_id approved_code : string)
    : SM world response :=
  transition cls EXECUTING ;;;
  repl <- _get_or_create_repl session_id ;;
  (** the environment is an object held by the table: what [execute] does
      to it is seen through the table *)
  result <- (λ w, let '(r, repl') := execute approved_code repl in
                  (r, {| state := state w;
                         _repl_environments := <[session_id := repl']> (_repl_environments w);
                         transitions := transitions w |})) ;;
  set_item REPL_LAST_OUTPUT_KEY (PStr (stdout result)) ;;;
  set_item REPL_LAST_ERROR_KEY (PStr (stderr result)) ;;;
  set_item REPL_LOCALS_KEY (PDict (locals_snapshot result)) ;;;
  on_state (add_code_to_history approved_code (stdout result) (stderr result)) ;;;
  w <- sm_get ;;
  (if truthy (dict_get (state w) REPL_ARTIFACT_ENABLED_KEY (PBool false))
   then _save_code_artifact approved_code result else sm_ret tt) ;;;
  on_state clear_pending_code_on_store ;;;
  transition cls IDLE ;;;
  on_state increment_iteration ;;;
  sm_ret (Executed (if success result then "success" else "error")
                   (_truncate_output (stdout result) 100000)
                   (if String.eqb (stderr result) "" then None else Some (stderr result))
                   (fst <$> locals_snapshot result)
                   (if success result then None else Some (stderr result))).

(** [async def execute_code(code, tool_context)] with
    [session_id = tool_context._invocation_context.session.id] *)
Definition execute_code (cls : class_object) (code : string) (session_id : string)
    : SM world response :=
  w <- sm_get ;;
  current_state <- sm_lift (get_state_from_dict (state w)) ;;
  (if decide (current_state = IDLE)
   then transition cls CODE_PENDING_REVIEW ;;; sm_ret tt
   else sm_ret tt) ;;;
  w <- sm_get ;;
  let security_level_str :=
    dict_get (state w) REPL_SECURITY_LEVEL_KEY (PStr (SecurityLevel_value BASIC)) in
  security_level <- sm_lift (SecurityLevel_call security_level_str) ;;
  on_state (set_pending_code code) ;;;
  if bool_decide (security_level = NONE) || bool_decide (security_level = BASIC) then
    transition cls CODE_APPROVED ;;;
    w <- sm_get ;;
    match get_pending_code (state w) with
    | Some (PStr approved_code) =>
        if String.eqb approved_code "" then
          sm_ret (EarlyError "No code pending for execution")
        else run_approved cls session_id approved_code
    | _ => sm_ret (EarlyError "No code pending for execution")
    end
  else
    sm_ret (PendingApproval "Code requires security approval before execution" code).

(** [approve_code_execution] and [reject_code_execution], the two tools of
    the STRICT mode; [None] stands for their error dictionary. *)
Definition approve_code_execution (cls : class_object) : SM world (option pyval) :=
  w <- sm_get ;;
  match get_pending_code (state w) with
  | Some pending_code =>
      if negb (truthy pending_code) then sm_ret None
      else
        current_state <- sm_lift (get_state_from_dict (state w)) ;;
        if decide (current_state = CODE_PENDING_REVIEW) then
          transition cls CODE_APPROVED ;;; sm_ret (Some pending_code)
        else sm_ret None
  | None => sm_ret None
  end.

Definition reject_code_execution (cls : class_object) (reason : string)
    : SM world (option pyval) :=
  w <- sm_get ;;
  match get_pending_code (state w) with
  | Some pending_code =>
      if negb (truthy pending_code) then sm_ret None
      else
        on_state clear_pending_code_on_store ;;;
        transition cls CODE_REJECTED ;;;
        transition cls IDLE ;;;
        sm_ret (Some pending_code)
  | None => sm_ret None
  end.

End Tools.

(** ** The end of a session, and the search for a final answer *)

Section Completion.
Context `{RT : PyRuntime}.

(** [shutil.rmtree(path)] when [os.path.exists(path)]: the host's answer. *)
Variable host_rmtree : string → exn + unit.

(** [ADKREPLEnvironment.cleanup]: an [Exception] is logged and dropped. *)
Definition cleanup (self : ADKREPLEnvironment) : exn + unit :=
  match host_rmtree (_temp_dir self) with
  | inl e => if is_Exception e then inr tt else inl e
  | inr _ => inr tt
  end.

Definition _cleanup_repl (session_id : string) : SM tools.world unit :=
  w <- sm_get ;;
  match tools._repl_environments w !! session_id with
  | Some repl =>
      sm_lift (cleanup repl) ;;;
      sm_modify (λ w, {| tools.state := tools.state w;
                         tools._repl_environments :=
                           delete session_id (tools._repl_environments w);
                         tools.transitions := tools.transitions w |})
  | None => sm_ret tt
  end.

(** [submit_final_answer]; the value is the [final_answer] of the dictionary
    it returns. *)
Definition submit_final_answer (cls : class_object) (answer : string)
    (session_id : string) : SM tools.world string :=
  tools.on_state (set_final_answer cls answer) ;;;
  sm_modify (λ w, {| tools.state := tools.state w;
                     tools._repl_environments := tools._repl_environments w;
                     tools.transitions := tools.transitions w ++ [COMPLETE] |}) ;;;
  _cleanup_repl session_id ;;;
  sm_ret answer.

End Completion.

(** [s.partition(sep)]: the text before the first occurrence of [sep] and the
    text after it, or [None] when [sep] does not occur. *)
Fixpoint partition (sep s : string) : option (string * string) :=
  if String.prefix sep s
  then Some ("", String.substring (String.length sep) (String.length s) s)
  else match s with
       | EmptyString => None
       | String c s' =>
           match partition sep s' with
           | Some (before, after) => Some (String c before, after)
           | None => None
           end
       end.

(** [check_for_final_answer].  The pattern [FINAL\((.*?)\)] is searched with
    [re.DOTALL]: the match starts at the first [FINAL(] that has a [)]
    somewhere after it, and its group, being lazy, ends before the first such
    [)].  When the first [FINAL(] has no [)] after it no later one has, so the
    match starts at the first [FINAL(] or there is none. *)
Definition check_for_final_answer (text : string) : option string :=
  match partition "FINAL(" text with
  | None => None
  | Some (_, rest) =>
      match partition ")" rest with
      | None => None
      | Some (group, _) => Some (PyStr.strip group)
      end
  end.

End tools.

(* ===================================================================== *)
(** * A reference runtime for straight-line submissions *)
(* ===================================================================== *)

(** [MiniPy] is an instance of [PyRuntime] that runs a fragment of Python,
    enough to run the console on concrete submissions.  A line is a blank
    line, a comment, [x = e], [print(a)] or [e]; an expression [e] is an
    atom, [a + b] or [a // b] with single spaces around the operator; an
    atom is a decimal integer, a double-quoted string of letters and digits
    or a one-letter variable.  On this fragment it computes what Python
    computes.  Any other text is refused with a [SyntaxError]: the instance
    says nothing about Python outside the fragment, and the general results
    below do not depend on it. *)
Module MiniPy.

Inductive atom : Type := ALit (v : pyval) | AName (x : string).
Inductive expr : Type := EAtom (a : atom) | EAdd (a b : atom) | EFloorDiv (a b : atom).
Inductive stmt : Type :=
  | SSkip
  | SAssign (x : string) (e : expr)
  | SPrint (a : atom)
  | SExpr (e : expr).

Definition is_digit (c : ascii) : bool :=
  let n := nat_of_ascii c in (48 <=? n)%nat && (n <=? 57)%nat.
Definition is_lower (c : ascii) : bool :=
  let n := nat_of_ascii c in (97 <=? n)%nat && (n <=? 122)%nat.
Definition is_upper (c : ascii) : bool :=
  let n := nat_of_ascii c in (65 <=? n)%nat && (n <=? 90)%nat.
Definition is_alnum (c : ascii) : bool := is_digit c || is_lower c || is_upper c.

Definition chars (s : string) : list ascii := String.list_ascii_of_string s.

Definition digits_value (s : string) : Z :=
  fold_left (λ acc c, 10 * acc + (Z.of_nat (nat_of_ascii c) - 48)) (chars s) 0.

Definition parse_atom (w : string) : option atom :=
  match chars w with
  | [] => None
  | [c] =>
      if is_digit c then Some (ALit (PInt (digits_value w)))
      else if is_lower c then Some (AName w)
      else None
  | c :: rest =>
      if forallb is_digit (c :: rest) then
        if Ascii.eqb c "0" then None else Some (ALit (PInt (digits_value w)))
      else if Ascii.eqb c "034" then
        match List.rev rest with
        | q :: inner =>
            if Ascii.eqb q "034" && forallb is_alnum inner
            then Some (ALit (PStr (String.string_of_list_ascii (List.rev inner))))
            else None
        | [] => None
        end
      else None
  end.

Definition parse_expr (ws : list string) : option expr :=
  match ws with
  | [a] => EAtom <$> parse_atom a
  | [a; op; b] =>
      match parse_atom a, parse_atom b with
      | Some a, Some b =>
          if String.eqb op "+" then Some (EAdd a b)
          else if String.eqb op "//" then Some (EFloorDiv a b)
          else None
      | _, _ => None
      end
  | _ => None
  end.

Definition parse_stmt (line : string) : option stmt :=
  if String.eqb (PyStr.strip line) "" then Some SSkip
  else if PyStr.startswith "#" (PyStr.lstrip line) then Some SSkip
  else if negb (String.eqb (PyStr.lstrip line) line) then None
  else
    match PyStr.split " " line with
    | x :: eq :: rest =>
        if String.eqb eq "=" then
          match parse_atom x with
          | Some (AName x) => SAssign x <$> parse_expr rest
          | _ => None
          end
        else SExpr <$> parse_expr (x :: eq :: rest)
    | [w] =>
        if PyStr.startswith "print(" w && PyStr.endswith ")" w then
          SPrint <$> parse_atom (String.substring 6 (String.length w - 7) w)
        else SExpr <$> parse_expr [w]
    | [] => None
    end.

Definition namespace : Type := list (string * pyval).

Fixpoint lookup_name (x : string) (ns : namespace) : option pyval :=
  match ns with
  | [] => None
  | (k, v) :: ns' => if String.eqb k x then Some v else lookup_name x ns'
  end.

(** [ns[x] = v]: in place when the key exists, at the end otherwise. *)
Fixpoint assign (x : string) (v : pyval) (ns : namespace) : namespace :=
  match ns with
  | [] => [(x, v)]
  | (k, v') :: ns' => if String.eqb k x then (k, v) :: ns' else (k, v') :: assign x v ns'
  end.

Definition eval_atom (ns : namespace) (a : atom) : exn + pyval :=
  match a with
  | ALit v => inr v
  | AName x =>
      match lookup_name x ns with
      | Some v => inr v
      | None => inl (Exn (OtherException "NameError") ("name '" +:+ x +:+ "' is not defined"))
      end
  end.

Definition unsupported_operands (op : string) (a b : pyval) : exn :=
  Exn TypeError ("unsupported operand type(s) for " +:+ op +:+ ": '"
                 +:+ type_name_of a +:+ "' and '" +:+ type_name_of b +:+ "'").

Definition eval_expr (ns : namespace) (e : expr) : exn + pyval :=
  match e with
  | EAtom a => eval_atom ns a
  | EAdd a b =>
      match eval_atom ns a with
      | inl e => inl e
      | inr va =>
          match eval_atom ns b with
          | inl e => inl e
          | inr vb =>
              match va, vb with
              | PInt x, PInt y => inr (PInt (x + y))
              | PStr x, PStr y => inr (PStr (x +:+ y))
              | PStr _, _ =>
                  inl (Exn TypeError ("can only concatenate str (not " +:+ PyStr.dq
                         +:+ type_name_of vb +:+ PyStr.dq +:+ ") to str"))
              | _, _ => inl (unsupported_operands "+" va vb)
              end
          end
      end
  | EFloorDiv a b =>
      match eval_atom ns a with
      | inl e => inl e
      | inr va =>
          match eval_atom ns b with
          | inl e => inl e
          | inr vb =>
              match va, vb with
              | PInt x, PInt y =>
                  if y =? 0
                  then inl (Exn (OtherException "ZeroDivisionError")
                                "integer division or modulo by zero")
                  else inr (PInt (x / y))
              | _, _ => inl (unsupported_operands "//" va vb)
              end
          end
      end
  end.

(** [str(v)] and [repr(v)] for the values of the fragment *)
Definition str_of (v : pyval) : string :=
  match v with
  | PInt z => pretty z
  | PStr s => s
  | _ => "<" +:+ type_name_of v +:+ ">"
  end.

Definition repr_of (v : pyval) : string :=
  match v with
  | PInt z => pretty z
  | PStr s => "'" +:+ s +:+ "'"
  | _ => "<" +:+ type_name_of v +:+ ">"
  end.

Definition syntax_error : exn := Exn (OtherException "SyntaxError") "invalid syntax".

Definition exec_stmt (s : stmt) (ns : namespace) : effect namespace unit :=
  match s with
  | SSkip => Effect ns "" "" (inr tt)
  | SAssign x e =>
      match eval_expr ns e with
      | inl err => Effect ns "" "" (inl err)
      | inr v => Effect (assign x v ns) "" "" (inr tt)
      end
  | SPrint a =>
      match eval_atom ns a with
      | inl err => Effect ns "" "" (inl err)
      | inr v => Effect ns (str_of v +:+ PyStr.nl) "" (inr tt)
      end
  | SExpr e =>
      match eval_expr ns e with
      | inl err => Effect ns "" "" (inl err)
      | inr _ => Effect ns "" "" (inr tt)
      end
  end.

Fixpoint exec_stmts (ss : list stmt) (ns : namespace) (out : string)
    : effect namespace unit :=
  match ss with
  | [] => Effect ns out "" (inr tt)
  | s :: ss' =>
      let r := exec_stmt s ns in
      match eff_result r with
      | inl err => Effect (eff_locals r) (out +:+ eff_stdout r) "" (inl err)
      | inr _ => exec_stmts ss' (eff_locals r) (out +:+ eff_stdout r)
      end
  end.

(** The whole text is compiled before any of it runs. *)
Definition exec (code : string) (ns : namespace) : effect namespace unit :=
  match mapM parse_stmt (PyStr.split PyStr.LF code) with
  | None => Effect ns "" "" (inl syntax_error)
  | Some ss => exec_stmts ss ns ""
  end.

Definition eval (text : string) (ns : namespace) : effect namespace pyval :=
  match parse_expr (PyStr.split " " text) with
  | None => Effect ns "" "" (inl syntax_error)
  | Some e => Effect ns "" "" (eval_expr ns e)
  end.

Definition console_locals (locals_dict : pyval) : exn + namespace :=
  match locals_dict with
  | PDict items =>
      inr (fold_left (λ ns kv, assign (fst kv) (snd kv) ns)
             (items ++ [("llm_query", PObj "function"); ("FINAL_VAR", PObj "function")])
             [("__builtins__", PObj "dict")])
  | _ => inl (Exn TypeError ("'" +:+ type_name_of locals_dict +:+ "' object is not a mapping"))
  end.

#[export] Instance runtime : PyRuntime :=
  {| py_locals := namespace;
     py_value := pyval;
     py_exec := exec;
     py_eval := eval;
     py_repr := λ v ns, Effect ns "" "" (inr (repr_of v));
     py_items := λ ns, ns;
     py_reify := λ v, v;
     host_console_locals := console_locals;
     host_mkdtemp := inr "/tmp/adk_repl_0";
     host_write_text := λ _ content,
       match content with
       | PStr _ => inr tt
       | _ => inl (Exn TypeError "write() argument must be str")
       end |}.

Definition console (level : SecurityLevel) (ns : namespace) : SecureInteractiveConsole :=
  {| _security_level := level; locals := ns |}.

End MiniPy.

(* ===================================================================== *)
(** * Vocabulary of the properties *)
(* ===================================================================== *)

(** ** Strings *)

(** [p] occurs in [s] as a substring. *)
Definition occurs_in (p s : string) : Prop := ∃ pre post, s = pre +:+ p +:+ post.

(** The character [c] occurs in [s]. *)
Definition has_char (c : ascii) (s : string) : Prop :=
  c ∈ String.list_ascii_of_string s.

(** ** The transition table *)

(** The table of the specification, as a relation. *)
Inductive allowed : REPLState → REPLState → Prop :=
  | allowed_submit : allowed IDLE CODE_PENDING_REVIEW
  | allowed_approve : allowed CODE_PENDING_REVIEW CODE_APPROVED
  | allowed_reject : allowed CODE_PENDING_REVIEW CODE_REJECTED
  | allowed_begin : allowed CODE_APPROVED EXECUTING
  | allowed_retry : allowed CODE_REJECTED IDLE
  | allowed_finish : allowed EXECUTING IDLE
  | allowed_complete s : s ≠ COMPLETE → allowed s COMPLETE.


(** ** Sample submissions *)

Definition shell_submission : string :=
  "import os" +:+ PyStr.nl +:+ "os.system(" +:+ PyStr.dq +:+ "ls" +:+ PyStr.dq +:+ ")".
Definition counter_submission : string := "n = n + 1" +:+ PyStr.nl +:+ "1 // n".
Definition print_then_fault : string :=
  "print(" +:+ PyStr.dq +:+ "a" +:+ PyStr.dq +:+ ")" +:+ PyStr.nl +:+ "y = 1 // 0".

Definition blocked_message : string := "Security Error: os module import blocked".

(** ** The console *)

Section ConsoleVocabulary.
Context `{RT : PyRuntime}.

(** The capture at the start of the [with] block. *)
Definition fresh_capture (self : SecureInteractiveConsole) : capture :=
  {| cap_locals := locals self; stdout_buffer := ""; stderr_buffer := "" |}.

End ConsoleVocabulary.

(** ** The iteration count *)

(** The iteration count a state dictionary shows: the stored integer, 0 when
    the key is missing, nothing when the stored object is not a number. *)
Definition iteration_count (d : state_dict) : option Z :=
  match dict_get d REPL_ITERATION_KEY (PInt 0) with
  | PInt z => Some z
  | PBool b => Some (Z.b2z b)
  | _ => None
  end.

Definition never_decreases (d d' : state_dict) : Prop :=
  ∀ n, iteration_count d = Some n → ∃ n', iteration_count d' = Some n' ∧ n ≤ n'.

(** The operations of the state manager that write to the dictionary,
    [initialize_state] apart. *)
Inductive manager_op : Type :=
  | OpTransitionTo (new_state : REPLState) (validate : bool)
  | OpIncrementIteration
  | OpAddCodeToHistory (code stdout stderr : string)
  | OpSetPendingCode (code : string)
  | OpClearPendingCode
  | OpSetFinalAnswer (answer : string).

Definition run_op (cls : class_object) (op : manager_op) : SM state_dict unit :=
  match op with
  | OpTransitionTo new_state validate => transition_to cls new_state validate ;;; sm_ret tt
  | OpIncrementIteration => increment_iteration ;;; sm_ret tt
  | OpAddCodeToHistory code stdout stderr => add_code_to_history code stdout stderr
  | OpSetPendingCode code => set_pending_code code
  | OpClearPendingCode => clear_pending_code
  | OpSetFinalAnswer answer => set_final_answer cls answer
  end.

(** Weakest precondition of a computation: [Qe] on a raise, [Q] on a return. *)
Definition wp {S A} (m : SM S A) (Qe : S → Prop) (Q : A → S → Prop) (s : S) : Prop :=
  match m s with
  | (inl _, s') => Qe s'
  | (inr a, s') => Q a s'
  end.

(** The same, when the condition on a raise is on the exception as well. *)
Definition wpe {S A} (m : SM S A) (Qe : exn → S → Prop) (Q : A → S → Prop) (s : S)
    : Prop :=
  match m s with
  | (inl e, s') => Qe e s'
  | (inr a, s') => Q a s'
  end.

(** A computation on the dictionary that leaves the iteration key alone,
    however it ends. *)
Definition keeps_iteration {A} (m : SM state_dict A) : Prop :=
  ∀ d, snd (m d) !! REPL_ITERATION_KEY = d !! REPL_ITERATION_KEY.

(** ** Tool calls *)

Section ToolVocabulary.
Context `{RT : PyRuntime}.

Definition iter_kept (v0 : option pyval) (w : tools.world) : Prop :=
  tools.state w !! REPL_ITERATION_KEY = v0.

(** A tool step that leaves the iteration key alone, however it ends. *)
Definition wkeeps {A} (m : SM tools.world A) : Prop :=
  ∀ v0 w, iter_kept v0 w → wp m (iter_kept v0) (λ _, iter_kept v0) w.

(** What a call of [tools.execute_code] does to the stored count: a run that
    reaches the end has added one to it, every other exit leaves it. *)
Definition iter_post (v0 : option pyval) (r : tools.response) (w' : tools.world) : Prop :=
  match r with
  | tools.Executed _ _ _ _ _ =>
      ∃ n, add_one (default (PInt 0) v0) = inr n
           ∧ tools.state w' !! REPL_ITERATION_KEY = Some (PInt n)
  | _ => iter_kept v0 w'
  end.

(** The environment a call for [session_id] works with: the one in the
    table, or the one built from the state. *)
Definition session_env (w : tools.world) (session_id : string) : option ADKREPLEnvironment :=
  match tools._repl_environments w !! session_id with
  | Some env => Some env
  | None => match tools.new_repl (tools.state w) with inr env => Some env | inl _ => None end
  end.

(** A tool step that leaves the pending code alone, however it ends. *)
Definition keeps_pending {A} (m : SM tools.world A) : Prop :=
  ∀ w, get_pending_code (tools.state (snd (m w))) = get_pending_code (tools.state w).

(** What the state key holds after the transitions [l], made on a store
    whose state key held [v0]: the value of the last one, or [v0] when none
    was made. *)
Definition state_after (v0 : option pyval) (l : list REPLState) : option pyval :=
  match last l with
  | Some s => Some (PStr (REPLState_value s))
  | None => v0
  end.

(** A tool step that makes some of the transitions of [allowed], in the
    order of [allowed], and no other, and that writes the state key through
    them only. *)
Definition logs {A} (allowed : list REPLState) (m : SM tools.world A) : Prop :=
  ∀ w, ∃ l, tools.transitions (snd (m w)) = tools.transitions w ++ l
            ∧ l `sublist_of` allowed
            ∧ tools.state (snd (m w)) !! REPL_STATE_KEY
              = state_after (tools.state w !! REPL_STATE_KEY) l.

(** A session that [initialize_state] has just set up, without context. *)
Definition fresh_world (level : SecurityLevel) : tools.world :=
  {| tools.state := initialize_state ∅ None None 20 level false;
     tools._repl_environments := ∅;
     tools.transitions := [] |}.

End ToolVocabulary.

(** The same session on the reference runtime. *)
Definition sample_world : tools.world (RT := MiniPy.runtime) :=
  fresh_world (RT := MiniPy.runtime) BASIC.

(** Two state keys differ. *)
Ltac key_ne := let H := fresh in intros H; discriminate H.

(* ===================================================================== *)
(** * More of the sample, and its vocabulary *)
(* ===================================================================== *)

(* ===================================================================== *)
(** * More of repl_state.py and its callers *)
(* ===================================================================== *)

(** An object read as a number: [bool] is a subclass of [int]. *)
Definition as_number (v : pyval) : option Z :=
  match v with
  | PInt z => Some z
  | PBool b => Some (Z.b2z b)
  | _ => None
  end.

(** [a >= b].  Numbers compare by value and strings by code points; the
    other pairs of data raise [TypeError].  Lists compare element by element
    and an object may define its own ordering: these two cases are not
    modelled, which [None] records. *)
Definition py_ge (a b : pyval) : option (exn + bool) :=
  match as_number a, as_number b with
  | Some x, Some y => Some (inr (y <=? x))
  | _, _ =>
      match a, b with
      | PStr s, PStr t => Some (inr (String.leb t s))
      | PObj _, _ | _, PObj _ => None
      | PList _, PList _ => None
      | _, _ =>
          Some (inl (Exn TypeError
            ("'>=' not supported between instances of '" +:+ type_name_of a
             +:+ "' and '" +:+ type_name_of b +:+ "'")))
      end
  end.

Definition has_exceeded_max_iterations (d : state_dict) : option (exn + bool) :=
  let current := dict_get d REPL_ITERATION_KEY (PInt 0) in
  let max_iter := dict_get d REPL_MAX_ITERATIONS_KEY (PInt 20) in
  py_ge current max_iter.

(** [k] calls of [increment_iteration], one after the other. *)
Fixpoint increments (k : nat) (d : state_dict) : state_dict :=
  match k with
  | O => d
  | S k' => increments k' (snd (increment_iteration d))
  end.

(** ** agents.py and agent.py *)

(** [before_base_agent_callback]: [if REPL_STATE_KEY not in state:
    REPLStateManager.initialize_state(state)], with the defaults of
    [initialize_state]. *)
Definition before_base_agent_callback (d : state_dict) : state_dict :=
  match d !! REPL_STATE_KEY with
  | Some _ => d
  | None => initialize_state d None None 20 BASIC false
  end.

(** [c.lower()] for code points below 256: the letters [A]-[Z] and the
    accented capitals of Latin-1, the multiplication sign apart. *)
Definition lower_char (c : ascii) : ascii :=
  let n := nat_of_ascii c in
  if ((65 <=? n) && (n <=? 90))%nat then ascii_of_nat (n + 32)
  else if ((192 <=? n) && (n <=? 222) && negb (n =? 215))%nat then ascii_of_nat (n + 32)
  else c.

Fixpoint lower (s : string) : string :=
  match s with
  | EmptyString => EmptyString
  | String c s' => String (lower_char c) (lower s')
  end.

Definition level_map : list (string * SecurityLevel) :=
  [ ("none", NONE); ("basic", BASIC); ("strict", STRICT) ].

(** [m.get(k, dflt)] on an association list *)
Fixpoint assoc_get {A} (m : list (string * A)) (k : string) (dflt : A) : A :=
  match m with
  | [] => dflt
  | (k', v) :: m' => if String.eqb k' k then v else assoc_get m' k dflt
  end.

(** [agent._get_security_level] *)
Definition _get_security_level (level_str : string) : SecurityLevel :=
  assoc_get level_map (lower level_str) BASIC.

(** The entry that [add_code_to_history] appends. *)
Definition history_entry (code out err : string) (iteration : pyval) : pyval :=
  PDict [ ("code", PStr code); ("stdout", PStr out); ("stderr", PStr err);
          ("iteration", iteration) ].

(** ** Calls on the output router *)

(** The calls that change an [OutputRouter]. *)
Inductive router_call : Type :=
  | CallWrite (text : string)
  | CallSetTarget (target : string)
  | CallClearBuffer (target : option string).

Definition router_step (r : OutputRouter) (c : router_call) : OutputRouter :=
  match c with
  | CallWrite text => write text r
  | CallSetTarget target => set_target target r
  | CallClearBuffer target => clear_buffer target r
  end.

(** The calls of a list, one after the other. *)
Definition router_run (cs : list router_call) (r : OutputRouter) : OutputRouter :=
  foldl router_step r cs.

(** The number of characters the calls of a list write. *)
Fixpoint written (cs : list router_call) : Z :=
  match cs with
  | [] => 0
  | CallWrite text :: cs' => PyStr.len text + written cs'
  | _ :: cs' => written cs'
  end.

Definition is_clear (c : router_call) : bool :=
  match c with CallClearBuffer _ => true | _ => false end.

(** ** The console *)

Section LastExpression.
Context `{RT : PyRuntime}.

(** What [run_as_expression] does after the statements: the last line is
    evaluated and its value, unless [None], is printed. *)
Definition eval_and_print (last_line : string) : SM capture unit :=
  result <- eval_ last_line ;;
  match py_reify result with
  | PNone => sm_ret tt
  | _ => s <- repr_ result ;; print_ s
  end.

End LastExpression.

(** ** The review tools *)

Section ReviewVocabulary.
Context `{RT : PyRuntime} `{ST : tools.StateStore}.

(** The three tools that take part in the review of a submission. *)
Inductive tool_call : Type :=
  | ToolExecuteCode (code : string)
  | ToolApprove
  | ToolReject (reason : string).

(** The world a call leaves behind, however it ends. *)
Definition tool_step (cls : class_object) (session_id : string)
    (w : tools.world) (c : tool_call) : tools.world :=
  match c with
  | ToolExecuteCode code => snd (tools.execute_code cls code session_id w)
  | ToolApprove => snd (tools.approve_code_execution cls w)
  | ToolReject reason => snd (tools.reject_code_execution cls reason w)
  end.

Definition tool_run (cls : class_object) (session_id : string)
    (calls : list tool_call) (w : tools.world) : tools.world :=
  foldl (tool_step cls session_id) w calls.

(** [w'] differs from [w] in the stored state and the pending code at most:
    the table of environments and every other key are the same. *)
Definition same_but_review (w w' : tools.world) : Prop :=
  tools._repl_environments w' = tools._repl_environments w
  ∧ ∀ k, k ≠ REPL_STATE_KEY → k ≠ REPL_PENDING_CODE_KEY →
         tools.state w' !! k = tools.state w !! k.

(** A tool step that writes the stored state and the pending code at most. *)
Definition reviews_only {A} (m : SM tools.world A) : Prop :=
  ∀ w, same_but_review w (snd (m w)).

(** The security level a call reads from the state. *)
Definition stored_level (w : tools.world) : exn + SecurityLevel :=
  SecurityLevel_call
    (dict_get (tools.state w) REPL_SECURITY_LEVEL_KEY (PStr (SecurityLevel_value BASIC))).

Definition pending_approval (code : string) : tools.response :=
  tools.PendingApproval "Code requires security approval before execution" code.

End ReviewVocabulary.

(** A session on the reference runtime, set up at level BASIC, whose stored
    state is [s] and which holds the pending code [pending]. *)
Definition sample_world_in (s : REPLState) (pending : option string)
    : tools.world (RT := MiniPy.runtime) :=
  {| tools.state :=
       match pending with
       | Some code =>
           <[REPL_PENDING_CODE_KEY := PStr code]>
             (<[REPL_STATE_KEY := PStr (REPLState_value s)]> (tools.state sample_world))
       | None => <[REPL_STATE_KEY := PStr (REPLState_value s)]> (tools.state sample_world)
       end;
     tools._repl_environments := ∅;
     tools.transitions := [] |}.

(** [sep] occurs in [s] after [before] and nowhere earlier. *)
Definition first_at (sep before s : string) : Prop :=
  (∃ after, s = before +:+ sep +:+ after)
  ∧ ∀ before' after', s = before' +:+ sep +:+ after' →
      PyStr.len before ≤ PyStr.len before'.

(* ===================================================================== *)
(** * Properties *)
(* ===================================================================== *)

(** ** Strings *)

Lemma str_app_nil_l (s : string) : "" +:+ s = s.
Proof. reflexivity. Qed.

Lemma str_app_cons (c : ascii) (s t : string) : String c s +:+ t = String c (s +:+ t).
Proof. reflexivity. Qed.

Lemma str_app_assoc (s t u : string) : (s +:+ t) +:+ u = s +:+ t +:+ u.
Proof. induction s as [|c s IH]; [done|]. by rewrite !str_app_cons, IH. Qed.

Lemma str_app_eq_nil (s t : string) : s +:+ t = "" → s = "" ∧ t = "".
Proof. destruct s; [rewrite str_app_nil_l; auto | rewrite str_app_cons; discriminate]. Qed.

Lemma prefix_spec (p s : string) :
  String.prefix p s = true ↔ ∃ post, s = p +:+ post.
Proof.
  revert s. induction p as [|c p IH]; intros [|d s]; simpl.
  - split; [intros _; by exists "" | done].
  - split; [intros _; by exists (String d s) | done].
  - split; [done | intros [post H]; rewrite str_app_cons in H; discriminate].
  - destruct (ascii_dec c d) as [->|Hne].
    + rewrite IH. split; intros [post H]; exists post.
      * by rewrite str_app_cons, H.
      * rewrite str_app_cons in H. by injection H.
    + split; [done | intros [post H]; rewrite str_app_cons in H].
      injection H as -> _. by destruct Hne.
Qed.

Lemma contains_spec (p s : string) : PyStr.contains p s = true ↔ occurs_in p s.
Proof.
  unfold occurs_in. induction s as [|c s IH].
  - change (PyStr.contains p "") with (String.prefix p "").
    rewrite prefix_spec. split.
    + intros [post H]. by exists "", post.
    + intros (pre & post & H). symmetry in H.
      apply str_app_eq_nil in H as [-> H]. apply str_app_eq_nil in H as [-> ->].
      by exists "".
  - change (PyStr.contains p (String c s))
      with (String.prefix p (String c s) || PyStr.contains p s).
    rewrite orb_true_iff, IH, prefix_spec. split.
    + intros [[post H]|(pre & post & H)].
      * by exists "", post.
      * exists (String c pre), post. by rewrite str_app_cons, H.
    + intros (pre & post & H). destruct pre as [|d pre].
      * left. by exists post.
      * right. rewrite str_app_cons in H. injection H as _ H. by exists pre, post.
Qed.

Lemma contains_false (p s : string) : PyStr.contains p s = false ↔ ¬ occurs_in p s.
Proof. rewrite <- contains_spec. by destruct (PyStr.contains p s). Qed.

(** ** The transition table *)

Lemma table_allowed (from_state to_state : REPLState) :
  set_mem to_state (table_get VALID_TRANSITIONS from_state) = true
  ↔ allowed from_state to_state.
Proof.
  split.
  - destruct from_state, to_state; simpl; intros H; try discriminate H;
      by constructor.
  - by intros [| | | | | |[]].
Qed.

Lemma enum_call_error {E} (members : list E) value name v e :
  enum_call members value name v = inl e → is_ValueError e = true.
Proof.
  unfold enum_call. intros H.
  destruct v; try (by injection H as <-).
  destruct (List.find _ members); [done | by injection H as <-].
Qed.

Lemma enum_call_value {E} (members : list E) value name str m :
  enum_call members value name (PStr str) = inr m → value m = str.
Proof.
  unfold enum_call. intros H.
  destruct (List.find _ members) as [m'|] eqn:Hfind; [|done].
  injection H as <-. apply find_some in Hfind as [_ Heq].
  by apply String.eqb_eq in Heq.
Qed.

Lemma get_state_from_dict_total (d : state_dict) :
  ∃ s, get_state_from_dict d = inr s.
Proof.
  unfold get_state_from_dict.
  destruct (REPLState_call _) as [e|s] eqn:H; [|eauto].
  apply enum_call_error in H as ->. eauto.
Qed.

Lemma get_state_from_dict_stored (d : state_dict) (s : REPLState) :
  d !! REPL_STATE_KEY = Some (PStr (REPLState_value s)) →
  get_state_from_dict d = inr s.
Proof.
  intros H. unfold get_state_from_dict, dict_get. rewrite H. by destruct s.
Qed.

(** With the table bound on the class, a validated transition does what the
    table says. *)
Lemma transition_to_bound (d : state_dict) (current new_state : REPLState) :
  get_state_from_dict d = inr current →
  transition_to REPLStateManager_bound new_state true d =
    if set_mem new_state (table_get VALID_TRANSITIONS current)
    then (inr true, <[REPL_STATE_KEY := PStr (REPLState_value new_state)]> d)
    else (inl (Exn ValueError
                 ("Invalid state transition from " +:+ REPLState_value current
                  +:+ " to " +:+ REPLState_value new_state)), d).
Proof.
  intros H. unfold transition_to, sm_bind, sm_get, sm_lift. rewrite H. simpl.
  by destruct (set_mem _ _).
Qed.

Lemma transition_to_bound_allowed (d : state_dict) (current new_state : REPLState) :
  get_state_from_dict d = inr current →
  (allowed current new_state →
     transition_to REPLStateManager_bound new_state true d
     = (inr true, <[REPL_STATE_KEY := PStr (REPLState_value new_state)]> d))
  ∧ (¬ allowed current new_state →
     ∃ e, transition_to REPLStateManager_bound new_state true d = (inl e, d)
          ∧ exn_cls e = ValueError).
Proof.
  intros H. rewrite (transition_to_bound _ _ _ H), <- table_allowed.
  destruct (set_mem _ _); split; intros ?; try done; eauto.
Qed.

(** C1: a validated transition through the class [REPLStateManager], as the
    tools make it, never returns: reading [cls.VALID_TRANSITIONS] raises
    [AttributeError] whatever the stored state and the target are, allowed
    by the table or not, and the stored state is left as it was.  For
    instance the allowed transition from IDLE to CODE_PENDING_REVIEW does
    not return [True] and does not store the target. *)
Theorem transition_to_validated_raises_AttributeError
    (d : state_dict) (new_state : REPLState) :
  transition_to REPLStateManager new_state true d
  = (inl (Exn AttributeError
            "type object 'REPLStateManager' has no attribute 'VALID_TRANSITIONS'"), d)
  ∧ transition_to REPLStateManager CODE_PENDING_REVIEW true
      {[ REPL_STATE_KEY := PStr "idle" ]}
    ≠ (inr true, {[ REPL_STATE_KEY := PStr "code_pending_review" ]}).
Proof.
  assert (∀ d n, transition_to REPLStateManager n true d
    = (inl (Exn AttributeError
         "type object 'REPLStateManager' has no attribute 'VALID_TRANSITIONS'"), d)) as H.
  { intros d' n. unfold transition_to, sm_bind, sm_get, sm_lift.
    by destruct (get_state_from_dict_total d') as [s ->]. }
  split; [apply H|]. by rewrite H.
Qed.

(** C10: reading the state never fails, and a missing key or a string that
    is not the value of a state reads as IDLE. *)
Theorem get_state_from_dict_defaults_to_IDLE (d : state_dict) :
  (∃ s, get_state_from_dict d = inr s)
  ∧ (d !! REPL_STATE_KEY = None
     ∨ (∃ str, d !! REPL_STATE_KEY = Some (PStr str)
               ∧ ∀ s, REPLState_value s ≠ str) →
     get_state_from_dict d = inr IDLE).
Proof.
  split; [apply get_state_from_dict_total|].
  unfold get_state_from_dict, dict_get.
  intros [->|(str & -> & Hstr)]; [done|].
  change (default _ (Some (PStr str))) with (PStr str).
  destruct (REPLState_call (PStr str)) as [e|m] eqn:Hcall.
  - by apply enum_call_error in Hcall as ->.
  - apply enum_call_value in Hcall. by destruct (Hstr m).
Qed.

Lemma get_state_from_dict_defaults_to_IDLE_witness :
  get_state_from_dict {[ REPL_STATE_KEY := PStr "running" ]} = inr IDLE.
Proof.
  apply (proj2 (get_state_from_dict_defaults_to_IDLE _)).
  right. exists "running". split; [reflexivity|]. intros []; discriminate.
Defined.

(** ** The security filter *)

Lemma scan_patterns_first (code : string) (before : list (string * string))
    (pattern message : string) (after : list (string * string)) :
  occurs_in pattern code →
  (∀ p m, (p, m) ∈ before → ¬ occurs_in p code) →
  scan_patterns (before ++ (pattern, message) :: after) code = Some message.
Proof.
  intros Hocc. induction before as [|[p m] before IH]; intros Hbefore; simpl.
  - apply contains_spec in Hocc. by rewrite Hocc.
  - assert (PyStr.contains p code = false) as ->.
    { apply contains_false, (Hbefore p m). left. }
    apply IH. intros p' m' Hin. apply (Hbefore p' m'). by right.
Qed.

Lemma scan_patterns_none (code : string) (patterns : list (string * string)) :
  (∀ p m, (p, m) ∈ patterns → ¬ occurs_in p code) →
  scan_patterns patterns code = None.
Proof.
  induction patterns as [|[p m] patterns IH]; intros Hall; simpl; [done|].
  assert (PyStr.contains p code = false) as ->.
  { apply contains_false, (Hall p m). left. }
  apply IH. intros p' m' Hin. apply (Hall p' m'). by right.
Qed.

(** C6: at level BASIC or STRICT the check answers with the reason of the
    first entry of the denylist, in its order, whose pattern occurs in the
    code, and allows the code when no pattern occurs. *)
Theorem check_code_security_first_match (level : SecurityLevel) (code : string) :
  level = BASIC ∨ level = STRICT →
  (∀ before pattern message after,
     dangerous_patterns = before ++ (pattern, message) :: after →
     occurs_in pattern code →
     (∀ p m, (p, m) ∈ before → ¬ occurs_in p code) →
     check_code_security level code = (false, message))
  ∧ ((∀ p m, (p, m) ∈ dangerous_patterns → ¬ occurs_in p code) →
     check_code_security level code = (true, "Code passed security checks")).
Proof.
  intros Hlevel. unfold check_code_security.
  assert (bool_decide (level = BASIC) || bool_decide (level = STRICT) = true) as ->.
  { by destruct Hlevel as [-> | ->]. }
  destruct (decide (level = NONE)) as [->|_]; [by destruct Hlevel|].
  split.
  - intros before pattern message after -> Hocc Hbefore.
    by rewrite (scan_patterns_first _ _ _ _ _ Hocc Hbefore).
  - intros Hnone. by rewrite (scan_patterns_none _ _ Hnone).
Qed.

(** ** The output router *)

(** C4: a write made while the current target is "sub" leaves the buffer of
    "base" as it was, and [redirect] puts the target back to what it was
    before, whatever its body does and however the body ends. *)
Theorem output_router_isolation_and_restore :
  (∀ (r : OutputRouter) (text : string),
     _current_target r = "sub" →
     _base_lm_buffer (write text r) = _base_lm_buffer r)
  ∧ (∀ (A : Type) (target : string) (body : SM OutputRouter A) (r : OutputRouter),
       _current_target (snd (redirect target body r)) = _current_target r
       ∧ fst (redirect target body r) = fst (body (set_target target r)))
  ∧ (∀ (text : string) (r : OutputRouter),
       _base_lm_buffer (snd (redirect "sub" (sm_modify (write text)) r))
       = _base_lm_buffer r).
Proof.
  split; [|split].
  - intros r text H. unfold write. by rewrite H.
  - intros A target body r. unfold redirect.
    by destruct (body (set_target target r)) as [outcome r'].
  - done.
Qed.

(** ** The expression test *)

Lemma len_app (s t : string) : PyStr.len (s +:+ t) = PyStr.len s + PyStr.len t.
Proof.
  unfold PyStr.len. induction s as [|c s IH]; [done|].
  rewrite str_app_cons. simpl String.length. lia.
Qed.

Lemma len_nonneg (s : string) : 0 ≤ PyStr.len s.
Proof. unfold PyStr.len. lia. Qed.

Lemma has_char_cons (c a : ascii) (s : string) :
  has_char c (String a s) ↔ a = c ∨ has_char c s.
Proof.
  unfold has_char. simpl. rewrite elem_of_cons.
  split; (intros [->|?]; [by left | by right]).
Qed.








(** ** Instances *)

Lemma check_code_security_first_match_witness :
  check_code_security BASIC shell_submission = (false, "os module import blocked").
Proof.
  apply (proj1 (check_code_security_first_match BASIC shell_submission (or_introl eq_refl))
           [] "import os" "os module import blocked" (tail dangerous_patterns)).
  - reflexivity.
  - by exists "", (PyStr.nl +:+ "os.system(" +:+ PyStr.dq +:+ "ls" +:+ PyStr.dq +:+ ")").
  - intros p m H. by apply elem_of_nil in H.
Defined.

Lemma output_router_isolation_and_restore_witness :
  _base_lm_buffer (write "from the sub-model" (set_target "sub" OutputRouter_init))
  = _base_lm_buffer (set_target "sub" OutputRouter_init).
Proof. apply (proj1 output_router_isolation_and_restore). reflexivity. Defined.



(** ** The console *)

Section ConsoleProperties.
Context `{RT : PyRuntime}.

Lemma execute_code_checked (self : SecureInteractiveConsole) (code : string) :
  fst (check_code_security (_security_level self) code) = true →
  execute_code self code =
    let '(outcome, c) := run_submission code (fresh_capture self) in
    let self' := {| _security_level := _security_level self; locals := cap_locals c |} in
    match outcome with
    | inr _ =>
        (inr {| stdout := stdout_buffer c; stderr := stderr_buffer c;
                locals_snapshot := _safe_locals_snapshot (cap_locals c);
                success := true |}, self')
    | inl e =>
        if is_Exception e then
          (inr {| stdout := stdout_buffer c;
                  stderr := stderr_buffer c +:+ exn_str e;
                  locals_snapshot := _safe_locals_snapshot (cap_locals c);
                  success := false |}, self')
        else (inl e, self')
    end.
Proof.
  intros H. unfold execute_code.
  destruct (check_code_security _ code) as [is_safe msg]. simpl in H. by subst.
Qed.

Lemma join_split (sep : ascii) (s : string) :
  PyStr.join (String sep "") (PyStr.split sep s) = s.
Proof.
  unfold PyStr.join. induction s as [|c s IH]; [done|].
  simpl PyStr.split. destruct (Ascii.eqb c sep) eqn:Hc.
  - apply Ascii.eqb_eq in Hc as ->.
    destruct (PyStr.split sep s) as [|h t] eqn:Hs.
    + by destruct s; simpl in Hs; [|destruct (Ascii.eqb _ _), (PyStr.split _ _)].
    + simpl in *. by rewrite IH.
  - destruct (PyStr.split sep s) as [|h t] eqn:Hs.
    + by destruct s; simpl in Hs; [|destruct (Ascii.eqb _ _), (PyStr.split _ _)].
    + simpl in *. destruct t; simpl in *; by rewrite <- IH.
Qed.

Lemma split_nonempty (sep : ascii) (s : string) : PyStr.split sep s ≠ [].
Proof.
  destruct s as [|c s]; [done|]. simpl.
  by destruct (Ascii.eqb c sep), (PyStr.split sep s).
Qed.

Lemma filter_none_negb {A} (p : A → bool) (l : list A) :
  List.filter p l = [] → List.filter (λ x, negb (p x)) l = l.
Proof.
  induction l as [|x l IH]; [done|]. simpl.
  destruct (p x); [done|]. simpl. intros H. by rewrite IH.
Qed.

(** A submission without import lines: the body is the whole text. *)
Lemma run_submission_no_imports (code : string) (c : capture) :
  List.filter is_import_line (PyStr.split PyStr.LF code) = [] →
  run_submission code c = run_others (PyStr.split PyStr.LF code) c.
Proof.
  intros H. unfold run_submission, partition_lines.
  rewrite H, (filter_none_negb _ _ H). done.
Qed.

Lemma run_others_statements (other_lines : list string) (l : string) (c : capture) :
  last (List.filter is_non_comment_line other_lines) = Some l →
  _is_expression (PyStr.strip l) = false →
  run_others other_lines c = exec_ (PyStr.join PyStr.nl other_lines) c.
Proof.
  intros Hlast Hexpr. unfold run_others.
  destruct other_lines as [|x other_lines]; [done|].
  by rewrite Hlast, Hexpr.
Qed.

Lemma run_others_fallback (other_lines : list string) (l : string)
    (c c1 : capture) (e1 : exn) :
  last (List.filter is_non_comment_line other_lines) = Some l →
  _is_expression (PyStr.strip l) = true →
  run_as_expression other_lines (List.filter is_non_comment_line other_lines)
    (PyStr.strip l) c = (inl e1, c1) →
  is_Exception e1 = true →
  run_others other_lines c = exec_ (PyStr.join PyStr.nl other_lines) c1.
Proof.
  intros Hlast Hexpr Hattempt He1. unfold run_others.
  destruct other_lines as [|x other_lines]; [done|].
  rewrite Hlast, Hexpr. unfold try_except_Exception.
  by rewrite Hattempt, He1.
Qed.

(** C3: when the fault that ends the submission is an [Exception], the call
    returns a result with everything written to stdout up to the fault, the
    fault's message appended to what was written to stderr, and
    [success = False], and the console keeps the namespace as the fault
    left it.  For a submission without import lines whose last line is not
    an expression, that is the output and the fault of [exec] on the whole
    text. *)
Theorem execute_code_partial_failure (self : SecureInteractiveConsole) (code : string) :
  fst (check_code_security (_security_level self) code) = true →
  (∀ e c,
     run_submission code (fresh_capture self) = (inl e, c) →
     is_Exception e = true →
     execute_code self code
     = (inr {| stdout := stdout_buffer c;
               stderr := stderr_buffer c +:+ exn_str e;
               locals_snapshot := _safe_locals_snapshot (cap_locals c);
               success := false |},
        {| _security_level := _security_level self; locals := cap_locals c |}))
  ∧ (∀ l ns out err e,
       List.filter is_import_line (PyStr.split PyStr.LF code) = [] →
       last (List.filter is_non_comment_line (PyStr.split PyStr.LF code)) = Some l →
       _is_expression (PyStr.strip l) = false →
       py_exec code (locals self) = Effect ns out err (inl e) →
       is_Exception e = true →
       execute_code self code
       = (inr {| stdout := out;
                 stderr := err +:+ exn_str e;
                 locals_snapshot := _safe_locals_snapshot ns;
                 success := false |},
          {| _security_level := _security_level self; locals := ns |})).
Proof.
  intros Hsafe. split.
  - intros e c Hrun He. rewrite (execute_code_checked _ _ Hsafe), Hrun. by rewrite He.
  - intros l ns out err e Himports Hlast Hexpr Hexec He.
    rewrite (execute_code_checked _ _ Hsafe).
    rewrite (run_submission_no_imports _ _ Himports).
    rewrite (run_others_statements _ _ _ Hlast Hexpr).
    change PyStr.nl with (String PyStr.LF ""). rewrite join_split.
    unfold exec_, run_effect, fresh_capture. simpl. rewrite Hexec. simpl.
    by rewrite He.
Qed.

(** The second execution after a failed attempt. *)
Lemma execute_code_fallback (self : SecureInteractiveConsole) (code : string)
    (l : string) (e1 : exn) (c1 : capture) :
  fst (check_code_security (_security_level self) code) = true →
  List.filter is_import_line (PyStr.split PyStr.LF code) = [] →
  last (List.filter is_non_comment_line (PyStr.split PyStr.LF code)) = Some l →
  _is_expression (PyStr.strip l) = true →
  run_as_expression (PyStr.split PyStr.LF code)
    (List.filter is_non_comment_line (PyStr.split PyStr.LF code))
    (PyStr.strip l) (fresh_capture self) = (inl e1, c1) →
  is_Exception e1 = true →
  run_submission code (fresh_capture self) = exec_ code c1
  ∧ (∀ ns out err,
       py_exec code (cap_locals c1) = Effect ns out err (inr tt) →
       execute_code self code
       = (inr {| stdout := stdout_buffer c1 +:+ out;
                 stderr := stderr_buffer c1 +:+ err;
                 locals_snapshot := _safe_locals_snapshot ns;
                 success := true |},
          {| _security_level := _security_level self; locals := ns |})).
Proof.
  intros Hsafe Himports Hlast Hexpr Hattempt He1.
  assert (run_submission code (fresh_capture self) = exec_ code c1) as Hrun.
  { rewrite (run_submission_no_imports _ _ Himports).
    rewrite (run_others_fallback _ _ _ _ _ Hlast Hexpr Hattempt He1).
    change PyStr.nl with (String PyStr.LF ""). by rewrite join_split. }
  split; [done|]. intros ns out err Hexec.
  rewrite (execute_code_checked _ _ Hsafe), Hrun.
  unfold exec_, run_effect. by rewrite Hexec.
Qed.

Lemma check_passes_expression (level : SecurityLevel) :
  fst (check_code_security level "1 + 1") = true.
Proof. by destruct level. Qed.

Lemma check_passes_assignment (level : SecurityLevel) :
  fst (check_code_security level "x = 1") = true.
Proof. by destruct level. Qed.

(** C5: the body [1 + 1] puts the [repr] of its value and a line feed on
    stdout, the body [x = 1] puts nothing there. *)
Theorem auto_print (self : SecureInteractiveConsole) :
  (∀ ns v ns',
     py_eval "1 + 1" (locals self) = Effect ns "" "" (inr v) →
     py_reify v = PInt 2 →
     py_repr v ns = Effect ns' "" "" (inr "2") →
     ∃ r self', execute_code self "1 + 1" = (inr r, self')
                ∧ stdout r = "2" +:+ PyStr.nl ∧ success r = true)
  ∧ (∀ ns,
       py_exec "x = 1" (locals self) = Effect ns "" "" (inr tt) →
       ∃ r self', execute_code self "x = 1" = (inr r, self')
                  ∧ stdout r = "" ∧ success r = true).
Proof.
  split.
  - intros ns v ns' Heval Hv Hrepr.
    rewrite (execute_code_checked _ _ (check_passes_expression _)).
    unfold run_submission.
    change (partition_lines (PyStr.split PyStr.LF "1 + 1")) with ([] : list string, ["1 + 1"]).
    unfold run_imports, run_others.
    change (List.filter is_non_comment_line ["1 + 1"]) with ["1 + 1"].
    change (last ["1 + 1"]) with (Some "1 + 1").
    cbv beta iota zeta.
    change (PyStr.strip "1 + 1") with "1 + 1".
    change (_is_expression "1 + 1") with true.
    unfold try_except_Exception, run_as_expression.
    change (1 <? Z.of_nat (length ["1 + 1"])) with false.
    unfold sm_bind, sm_ret, eval_, repr_, print_, sm_modify, run_effect, fresh_capture.
    cbv beta iota zeta. cbn [cap_locals stdout_buffer stderr_buffer].
    rewrite Heval. cbn [eff_result eff_locals eff_stdout eff_stderr].
    rewrite Hv. cbv beta iota zeta. cbn [cap_locals stdout_buffer stderr_buffer].
    rewrite Hrepr. cbn [eff_result eff_locals eff_stdout eff_stderr].
    cbv beta iota zeta. do 2 eexists. split; [reflexivity|]. by split.
  - intros ns Hexec.
    rewrite (execute_code_checked _ _ (check_passes_assignment _)).
    unfold run_submission.
    change (partition_lines (PyStr.split PyStr.LF "x = 1")) with ([] : list string, ["x = 1"]).
    unfold run_imports, run_others.
    change (List.filter is_non_comment_line ["x = 1"]) with ["x = 1"].
    change (last ["x = 1"]) with (Some "x = 1").
    cbv beta iota zeta.
    change (PyStr.strip "x = 1") with "x = 1".
    change (_is_expression "x = 1") with false.
    change (PyStr.join PyStr.nl ["x = 1"]) with "x = 1".
    unfold sm_bind, sm_ret, exec_, run_effect, fresh_capture.
    cbv beta iota zeta. cbn [cap_locals stdout_buffer stderr_buffer].
    rewrite Hexec. cbn [eff_result eff_locals eff_stdout eff_stderr].
    do 2 eexists. split; [reflexivity|]. by split.
Qed.

End ConsoleProperties.

(** C9: when the last line is taken for an expression and the attempt to
    run the lines before it and to evaluate it raises an [Exception], the
    whole body is executed again from its first line, on the namespace and
    after the output that the failed attempt left, and when this second
    execution returns the result reports [success = True].  On the
    submission [n = n + 1 / 1 // n] with [n = -1] one execution of the body
    leaves [n = 0]; the console leaves [n = 1] and reports success. *)
Theorem fallback_executes_body_twice :
  (∀ (RT : PyRuntime) (self : SecureInteractiveConsole) (code l : string)
     (e1 : exn) (c1 : capture),
     fst (check_code_security (_security_level self) code) = true →
     List.filter is_import_line (PyStr.split PyStr.LF code) = [] →
     last (List.filter is_non_comment_line (PyStr.split PyStr.LF code)) = Some l →
     _is_expression (PyStr.strip l) = true →
     run_as_expression (PyStr.split PyStr.LF code)
       (List.filter is_non_comment_line (PyStr.split PyStr.LF code))
       (PyStr.strip l) (fresh_capture self) = (inl e1, c1) →
     is_Exception e1 = true →
     run_submission code (fresh_capture self) = exec_ code c1
     ∧ (∀ ns out err,
          py_exec code (cap_locals c1) = Effect ns out err (inr tt) →
          execute_code self code
          = (inr {| stdout := stdout_buffer c1 +:+ out;
                    stderr := stderr_buffer c1 +:+ err;
                    locals_snapshot := _safe_locals_snapshot ns;
                    success := true |},
             {| _security_level := _security_level self; locals := ns |})))
  ∧ (eff_locals (MiniPy.exec counter_submission [("n", PInt (-1))]) = [("n", PInt 0)]
     ∧ execute_code (MiniPy.console BASIC [("n", PInt (-1))]) counter_submission
       = (inr {| stdout := ""; stderr := "";
                 locals_snapshot := [("n", PInt 1)]; success := true |},
          MiniPy.console BASIC [("n", PInt 1)])).
Proof.
  split; [|split; reflexivity].
  intros RT self code l e1 c1. apply execute_code_fallback.
Qed.

Lemma fallback_executes_body_twice_witness :
  execute_code (MiniPy.console BASIC [("n", PInt (-1))]) counter_submission
  = (inr {| stdout := ""; stderr := "";
            locals_snapshot := [("n", PInt 1)]; success := true |},
     MiniPy.console BASIC [("n", PInt 1)]).
Proof.
  apply (proj2 (proj1 fallback_executes_body_twice MiniPy.runtime
                  (MiniPy.console BASIC [("n", PInt (-1))]) counter_submission "1 // n"
                  (Exn (OtherException "ZeroDivisionError")
                       "integer division or modulo by zero")
                  (@Build_capture MiniPy.runtime [("n", PInt 0)] "" "")
                  eq_refl eq_refl eq_refl eq_refl eq_refl eq_refl)
           [("n", PInt 1)] "" "").
  reflexivity.
Defined.

Lemma execute_code_partial_failure_witness :
  execute_code (MiniPy.console BASIC []) print_then_fault
  = (inr {| stdout := "a" +:+ PyStr.nl;
            stderr := "integer division or modulo by zero";
            locals_snapshot := []; success := false |},
     MiniPy.console BASIC []).
Proof.
  apply (proj2 (execute_code_partial_failure (MiniPy.console BASIC [])
                  print_then_fault eq_refl)
           "y = 1 // 0" [] ("a" +:+ PyStr.nl) ""
           (Exn (OtherException "ZeroDivisionError")
                "integer division or modulo by zero"));
    reflexivity.
Defined.

(** C3, as stated, fails on the submission [n = n + 1 / 1 // n] with
    [n = -1]: evaluating the last line raises [ZeroDivisionError] once the
    first line has run, yet the result reports success and an empty
    stderr. *)
Lemma fault_raised_yet_success :
  (∃ e, eff_result (MiniPy.eval "1 // n"
                      (eff_locals (MiniPy.exec "n = n + 1" [("n", PInt (-1))]))) = inl e
        ∧ is_Exception e = true)
  ∧ ∃ r self', execute_code (MiniPy.console BASIC [("n", PInt (-1))]) counter_submission
               = (inr r, self')
               ∧ success r = true ∧ stderr r = "".
Proof.
  split.
  - eexists. split; reflexivity.
  - do 2 eexists. split; [reflexivity|]. by split.
Qed.

Lemma auto_print_witness :
  (∃ r self', execute_code (MiniPy.console BASIC []) "1 + 1" = (inr r, self')
              ∧ stdout r = "2" +:+ PyStr.nl ∧ success r = true)
  ∧ (∃ r self', execute_code (MiniPy.console BASIC []) "x = 1" = (inr r, self')
                ∧ stdout r = "" ∧ success r = true).
Proof.
  split.
  - apply (proj1 (auto_print (MiniPy.console BASIC [])) [] (PInt 2) []); reflexivity.
  - apply (proj2 (auto_print (MiniPy.console BASIC [])) [("x", PInt 1)]); reflexivity.
Defined.

(** C5, as stated, fails on [1 + 1]: stdout is the digit followed by a line
    feed, not the digit alone. *)
Lemma auto_print_ends_the_line :
  ∃ r self', execute_code (MiniPy.console BASIC []) "1 + 1" = (inr r, self')
             ∧ stdout r = "2" +:+ PyStr.nl ∧ stdout r ≠ "2".
Proof. do 2 eexists. split; [reflexivity|]. split; [reflexivity | discriminate]. Qed.

(** ** Weakest preconditions *)

Section WP.
Context {S : Type}.
Implicit Types (Qe : S → Prop) (s : S).

Lemma wp_ret {A} (a : A) Qe (Q : A → S → Prop) s : Q a s → wp (sm_ret a) Qe Q s.
Proof. done. Qed.

Lemma wp_raise {A} e Qe (Q : A → S → Prop) s : Qe s → wp (sm_raise e) Qe Q s.
Proof. done. Qed.

Lemma wp_get Qe (Q : S → S → Prop) s : Q s s → wp sm_get Qe Q s.
Proof. done. Qed.

Lemma wp_modify f Qe (Q : unit → S → Prop) s : Q tt (f s) → wp (sm_modify f) Qe Q s.
Proof. done. Qed.

Lemma wp_lift {A} (r : exn + A) Qe (Q : A → S → Prop) s :
  match r with inl _ => Qe s | inr a => Q a s end → wp (sm_lift r) Qe Q s.
Proof. by destruct r. Qed.

Lemma wp_bind {A B} (m : SM S A) (k : A → SM S B) Qe (Q : B → S → Prop) s :
  wp m Qe (λ a s', wp (k a) Qe Q s') s → wp (sm_bind m k) Qe Q s.
Proof. unfold wp, sm_bind. by destruct (m s) as [[e|a] s']. Qed.

Lemma wp_mono {A} (m : SM S A) Qe Qe' (Q Q' : A → S → Prop) s :
  wp m Qe Q s → (∀ s', Qe s' → Qe' s') → (∀ a s', Q a s' → Q' a s') →
  wp m Qe' Q' s.
Proof. unfold wp. destruct (m s) as [[e|a] s']; auto. Qed.

Lemma wpe_ret {A} (a : A) (Qe : exn → S → Prop) (Q : A → S → Prop) s :
  Q a s → wpe (sm_ret a) Qe Q s.
Proof. done. Qed.

Lemma wpe_get (Qe : exn → S → Prop) (Q : S → S → Prop) s : Q s s → wpe sm_get Qe Q s.
Proof. done. Qed.

Lemma wpe_lift {A} (r : exn + A) (Qe : exn → S → Prop) (Q : A → S → Prop) s :
  match r with inl e => Qe e s | inr a => Q a s end → wpe (sm_lift r) Qe Q s.
Proof. by destruct r. Qed.

Lemma wpe_bind {A B} (m : SM S A) (k : A → SM S B) (Qe : exn → S → Prop)
    (Q : B → S → Prop) s :
  wpe m Qe (λ a s', wpe (k a) Qe Q s') s → wpe (sm_bind m k) Qe Q s.
Proof. unfold wpe, sm_bind. by destruct (m s) as [[e|a] s']. Qed.

Lemma wpe_step {A} (m : SM S A) (a : A) (s s1 : S) (Qe : exn → S → Prop)
    (Q : A → S → Prop) :
  m s = (inr a, s1) → (∀ s', s' = s1 → Q a s') → wpe m Qe Q s.
Proof. intros H HQ. unfold wpe. rewrite H. by apply HQ. Qed.

Lemma wpe_raises {A} (m : SM S A) (e : exn) (s s1 : S) (Qe : exn → S → Prop)
    (Q : A → S → Prop) :
  m s = (inl e, s1) → (∀ s', s' = s1 → Qe e s') → wpe m Qe Q s.
Proof. intros H HQ. unfold wpe. rewrite H. by apply HQ. Qed.

End WP.

(** ** The iteration count *)

Lemma keeps_ret {A} (a : A) : keeps_iteration (sm_ret a).
Proof. done. Qed.

Lemma keeps_raise {A} e : keeps_iteration (@sm_raise _ A e).
Proof. done. Qed.

Lemma keeps_lift {A} (r : exn + A) : keeps_iteration (sm_lift r).
Proof. done. Qed.

Lemma keeps_get : keeps_iteration (@sm_get state_dict).
Proof. done. Qed.

Lemma keeps_bind {A B} (m : SM state_dict A) (k : A → SM state_dict B) :
  keeps_iteration m → (∀ a, keeps_iteration (k a)) → keeps_iteration (sm_bind m k).
Proof.
  intros Hm Hk d. unfold sm_bind. specialize (Hm d).
  destruct (m d) as [[e|a] d']; [done|]. simpl in Hm. by rewrite Hk.
Qed.

Lemma keeps_insert (k : string) (v : pyval) :
  k ≠ REPL_ITERATION_KEY → keeps_iteration (sm_modify (<[k := v]>)).
Proof. intros Hk d. simpl. by rewrite lookup_insert_ne. Qed.

Lemma keeps_delete (k : string) :
  k ≠ REPL_ITERATION_KEY → keeps_iteration (sm_modify (delete k)).
Proof. intros Hk d. simpl. by rewrite lookup_delete_ne. Qed.

Lemma keeps_transition_to cls new_state validate :
  keeps_iteration (transition_to cls new_state validate).
Proof.
  unfold transition_to.
  apply keeps_bind; [apply keeps_get|]. intros d.
  apply keeps_bind; [apply keeps_lift|]. intros current.
  apply keeps_bind; [destruct validate; [apply keeps_lift | apply keeps_ret]|].
  intros [|]; simpl; [|apply keeps_raise].
  apply keeps_bind; [by apply keeps_insert | intros; apply keeps_ret].
Qed.

Lemma keeps_add_code_to_history code out err :
  keeps_iteration (add_code_to_history code out err).
Proof.
  unfold add_code_to_history.
  apply keeps_bind; [apply keeps_get|]. intros d.
  destruct (dict_get d _ _); try apply keeps_raise. by apply keeps_insert.
Qed.

Lemma keeps_never_decreases {A} (m : SM state_dict A) (d : state_dict) :
  keeps_iteration m → never_decreases d (snd (m d)).
Proof.
  intros H n Hn. exists n. split; [|lia].
  unfold iteration_count, dict_get in *. by rewrite H.
Qed.

Lemma add_one_count (d : state_dict) (n : Z) :
  add_one (dict_get d REPL_ITERATION_KEY (PInt 0)) = inr n →
  iteration_count d = Some (n - 1).
Proof.
  unfold iteration_count. destruct (dict_get d _ _); simpl; intros H;
    try discriminate; injection H as <-; f_equal; lia.
Qed.

Lemma increment_iteration_spec (d : state_dict) :
  match increment_iteration d with
  | (inr n, d') => iteration_count d = Some (n - 1) ∧ iteration_count d' = Some n
  | (inl _, d') => d' = d
  end.
Proof.
  unfold increment_iteration, sm_bind, sm_get, sm_lift, sm_modify, sm_ret.
  destruct (add_one _) as [e|n] eqn:Hadd; [done|].
  split; [by apply add_one_count|].
  unfold iteration_count, dict_get. by rewrite lookup_insert_eq.
Qed.

Lemma run_op_never_decreases cls op d : never_decreases d (snd (run_op cls op d)).
Proof.
  destruct op; cbn [run_op].
  - apply keeps_never_decreases, keeps_bind;
      [apply keeps_transition_to | intros; apply keeps_ret].
  - unfold sm_bind. pose proof (increment_iteration_spec d) as H.
    destruct (increment_iteration d) as [[e|n] d']; cbn [snd sm_ret].
    + subst. intros n Hn. exists n. split; [done | lia].
    + destruct H as [H1 H2]. intros m Hm. exists n. split; [done|].
      rewrite H1 in Hm. injection Hm as <-. lia.
  - apply keeps_never_decreases, keeps_add_code_to_history.
  - apply keeps_never_decreases. by apply keeps_insert.
  - apply keeps_never_decreases. by apply keeps_delete.
  - apply keeps_never_decreases. unfold set_final_answer.
    apply keeps_bind; [by apply keeps_insert|]. intros _.
    apply keeps_bind; [apply keeps_transition_to | intros; apply keeps_ret].
Qed.

Section ToolIteration.
Context `{RT : PyRuntime} `{ST : tools.StateStore}.

Lemma wkeeps_ret {A} (a : A) : wkeeps (sm_ret a).
Proof. by intros v0 w H. Qed.

Lemma wkeeps_get : wkeeps (@sm_get tools.world).
Proof. by intros v0 w H. Qed.

Lemma wkeeps_lift {A} (r : exn + A) : wkeeps (sm_lift r).
Proof. intros v0 w H. by apply wp_lift; destruct r. Qed.

Lemma wkeeps_bind {A B} (m : SM tools.world A) (k : A → SM tools.world B) :
  wkeeps m → (∀ a, wkeeps (k a)) → wkeeps (sm_bind m k).
Proof.
  intros Hm Hk v0 w H. apply wp_bind.
  eapply wp_mono; [by apply Hm | done | intros a w' H'; by apply Hk].
Qed.

Lemma wkeeps_on_state {A} (m : SM state_dict A) :
  keeps_iteration m → wkeeps (tools.on_state m).
Proof.
  intros Hm v0 w H. unfold wp, tools.on_state, iter_kept in *. specialize (Hm (tools.state w)).
  destruct (m (tools.state w)) as [[e|a] d]; simpl in *; congruence.
Qed.

Lemma wkeeps_same_state {A} (f : tools.world → (exn + A) * tools.world) :
  (∀ w, tools.state (snd (f w)) = tools.state w) → wkeeps f.
Proof.
  intros Hf v0 w H. unfold wp, iter_kept in *. specialize (Hf w).
  destruct (f w) as [[e|a] w']; simpl in *; congruence.
Qed.

Lemma wkeeps_transition cls new_state : wkeeps (tools.transition cls new_state).
Proof.
  unfold tools.transition. apply wkeeps_bind.
  - apply wkeeps_on_state, keeps_transition_to.
  - intros r. apply wkeeps_bind; [by apply wkeeps_same_state|].
    intros; apply wkeeps_ret.
Qed.

Lemma wkeeps_set_item k v : k ≠ REPL_ITERATION_KEY → wkeeps (tools.set_item k v).
Proof. intros Hk. by apply wkeeps_on_state, keeps_insert. Qed.

Lemma wkeeps_get_or_create sid : wkeeps (tools._get_or_create_repl sid).
Proof.
  unfold tools._get_or_create_repl. apply wkeeps_bind; [apply wkeeps_get|]. intros w.
  destruct (_ !! sid); [apply wkeeps_ret|].
  apply wkeeps_bind; [apply wkeeps_lift|]. intros repl.
  apply wkeeps_bind; [by apply wkeeps_same_state | intros; apply wkeeps_ret].
Qed.

Lemma wp_bind_keeps {A B} (m : SM tools.world A) (k : A → SM tools.world B) v0
    (Q : B → tools.world → Prop) w :
  wkeeps m →
  (∀ a w', iter_kept v0 w' → wp (k a) (iter_kept v0) Q w') →
  iter_kept v0 w → wp (sm_bind m k) (iter_kept v0) Q w.
Proof.
  intros Hm Hk H. apply wp_bind.
  eapply wp_mono; [by apply Hm | done | intros a w' H'; by apply Hk].
Qed.

Lemma keeps_clear_pending_on_store :
  keeps_iteration tools.clear_pending_code_on_store.
Proof.
  unfold tools.clear_pending_code_on_store. destruct tools.store_of.
  - by apply keeps_delete.
  - intros d. unfold sm_bind, sm_get. by destruct (d !! REPL_PENDING_CODE_KEY).
Qed.

Lemma run_approved_iteration cls sid approved_code v0 w :
  iter_kept v0 w →
  wp (tools.run_approved cls sid approved_code) (iter_kept v0) (iter_post v0) w.
Proof.
  unfold tools.run_approved.
  intros H. apply wp_bind_keeps; [apply wkeeps_transition| |done]. clear w H.
  intros _ w H. apply wp_bind_keeps; [apply wkeeps_get_or_create| |done]. clear w H.
  intros repl w H. apply wp_bind_keeps; [| |done].
  { apply wkeeps_same_state. intros w0. by destruct (execute _ _). } clear w H.
  intros result w H. apply wp_bind_keeps; [by apply wkeeps_set_item| |done]. clear w H.
  intros _ w H. apply wp_bind_keeps; [by apply wkeeps_set_item| |done]. clear w H.
  intros _ w H. apply wp_bind_keeps; [by apply wkeeps_set_item| |done]. clear w H.
  intros _ w H. apply wp_bind_keeps;
    [apply wkeeps_on_state, keeps_add_code_to_history| |done]. clear w H.
  intros _ w H. apply wp_bind_keeps; [apply wkeeps_get| |done]. clear w H.
  intros w0 w H. apply wp_bind_keeps; [| |done].
  { destruct (truthy _); apply wkeeps_ret. } clear w H.
  intros _ w H. apply wp_bind_keeps;
    [apply wkeeps_on_state, keeps_clear_pending_on_store| |done]. clear w H.
  intros _ w H. apply wp_bind_keeps; [apply wkeeps_transition| |done]. clear w H.
  intros _ w H. unfold wp, sm_bind, tools.on_state, sm_ret, iter_kept in *.
  unfold increment_iteration, sm_bind, sm_get, sm_lift, sm_modify, sm_ret, dict_get.
  rewrite H. destruct (add_one _) as [e|n] eqn:Hadd; simpl; [done|].
  exists n. split; [done|]. apply lookup_insert_eq.
Qed.

Lemma execute_code_iteration cls code sid v0 w :
  iter_kept v0 w →
  wp (tools.execute_code cls code sid) (iter_kept v0) (iter_post v0) w.
Proof.
  unfold tools.execute_code.
  intros H. apply wp_bind_keeps; [apply wkeeps_get| |done]. clear w H.
  intros w0 w H. apply wp_bind_keeps; [apply wkeeps_lift| |done]. clear w H.
  intros current w H. apply wp_bind_keeps; [| |done].
  { destruct (decide _); [|apply wkeeps_ret].
    apply wkeeps_bind; [apply wkeeps_transition | intros; apply wkeeps_ret]. }
  clear w H.
  intros _ w H. apply wp_bind_keeps; [apply wkeeps_get| |done]. clear w H.
  intros w1 w H. apply wp_bind_keeps; [apply wkeeps_lift| |done]. clear w H.
  intros level w H. apply wp_bind_keeps;
    [by apply wkeeps_on_state, keeps_insert| |done]. clear w H.
  intros _ w H. destruct (_ || _); [|by apply wp_ret].
  apply wp_bind_keeps; [apply wkeeps_transition| |done]. clear w H.
  intros _ w H. apply wp_bind_keeps; [apply wkeeps_get| |done]. clear w H.
  intros w2 w H.
  destruct (get_pending_code _) as [[| | |approved| | |]|]; try by apply wp_ret.
  destruct (String.eqb approved ""); [by apply wp_ret|].
  by apply run_approved_iteration.
Qed.

End ToolIteration.

(** C8: the operations of the state manager that write to the dictionary,
    [initialize_state] apart, and [execute_code] never lower the iteration
    count, on any exit; and a call of [execute_code] that runs to its end
    has raised the count by exactly one. *)
Theorem iteration_count_monotone :
  (∀ cls op d, never_decreases d (snd (run_op cls op d)))
  ∧ (∀ (RT : PyRuntime) (ST : tools.StateStore) cls code sid w,
       never_decreases (tools.state w)
         (tools.state (snd (tools.execute_code cls code sid w))))
  ∧ (∀ (RT : PyRuntime) (ST : tools.StateStore) cls code sid w w' status out err
       variables error,
       tools.execute_code cls code sid w
       = (inr (tools.Executed status out err variables error), w') →
       ∃ n, iteration_count (tools.state w) = Some n
            ∧ iteration_count (tools.state w') = Some (n + 1)).
Proof.
  split; [apply run_op_never_decreases|]. split.
  - intros RT ST cls code sid w.
    pose proof (execute_code_iteration cls code sid _ w eq_refl) as H.
    unfold wp in H. destruct (tools.execute_code _ _ _ w) as [[e|r] w']; simpl.
    + intros n Hn. exists n. split; [|lia].
      unfold iteration_count, dict_get in *. by rewrite H.
    + destruct r; simpl in H;
        try (intros n Hn; exists n; split; [|lia];
             unfold iteration_count, dict_get in *; by rewrite H).
      destruct H as (n & Hadd & Hn). intros m Hm.
      apply add_one_count in Hadd. rewrite Hadd in Hm. injection Hm as <-.
      exists n. split; [|lia]. unfold iteration_count, dict_get. by rewrite Hn.
  - intros RT ST cls code sid w w' status out err variables error Hrun.
    pose proof (execute_code_iteration cls code sid _ w eq_refl) as H.
    unfold wp in H. rewrite Hrun in H. destruct H as (n & Hadd & Hn).
    apply add_one_count in Hadd. exists (n - 1). split; [done|].
    unfold iteration_count, dict_get. rewrite Hn. simpl. f_equal. lia.
Qed.

Lemma pair_eq_fst {A B} (p : A * B) (a : A) : fst p = a → p = (a, snd p).
Proof. destruct p. simpl. by intros ->. Qed.

(** C8, as stated, fails on [initialize_state]: on a dictionary that
    counts 3 iterations it puts the count back to 0. *)
Lemma initialize_state_resets_the_count :
  iteration_count {[ REPL_ITERATION_KEY := PInt 3 ]} = Some 3
  ∧ iteration_count
      (initialize_state {[ REPL_ITERATION_KEY := PInt 3 ]} None None 20 BASIC false)
    = Some 0
  ∧ ¬ never_decreases {[ REPL_ITERATION_KEY := PInt 3 ]}
        (initialize_state {[ REPL_ITERATION_KEY := PInt 3 ]} None None 20 BASIC false).
Proof.
  assert (iteration_count
      (initialize_state {[ REPL_ITERATION_KEY := PInt 3 ]} None None 20 BASIC false)
    = Some 0) as H0 by reflexivity.
  split; [reflexivity|]. split; [exact H0|].
  intros H. destruct (H 3 eq_refl) as (n' & Hn' & Hle).
  rewrite H0 in Hn'. injection Hn' as <-. lia.
Qed.

Lemma iteration_count_monotone_witness :
  ∃ n, iteration_count (tools.state sample_world) = Some n
       ∧ iteration_count
           (tools.state (snd (tools.execute_code (ST := tools.PlainDict)
                                REPLStateManager_bound "x = 1" "s1" sample_world)))
         = Some (n + 1).
Proof.
  apply (proj2 (proj2 iteration_count_monotone) MiniPy.runtime tools.PlainDict
           REPLStateManager_bound "x = 1" "s1" sample_world
           (snd (tools.execute_code (ST := tools.PlainDict) REPLStateManager_bound
                   "x = 1" "s1" sample_world))
           "success" "" None ["llm_query"; "FINAL_VAR"; "x"] None).
  apply pair_eq_fst. vm_compute. reflexivity.
Defined.

(** ** Steps that write the review keys only *)

Lemma sm_bind_inr {S A B} (m : SM S A) (k : A → SM S B) (s s1 : S) (a : A) :
  m s = (inr a, s1) → sm_bind m k s = k a s1.
Proof. intros H. unfold sm_bind. by rewrite H. Qed.

Lemma sm_bind_inl {S A B} (m : SM S A) (k : A → SM S B) (s s1 : S) (e : exn) :
  m s = (inl e, s1) → sm_bind m k s = (inl e, s1).
Proof. intros H. unfold sm_bind. by rewrite H. Qed.

Lemma get_state_from_dict_ext (d d' : state_dict) :
  d' !! REPL_STATE_KEY = d !! REPL_STATE_KEY →
  get_state_from_dict d' = get_state_from_dict d.
Proof. intros H. unfold get_state_from_dict, dict_get. by rewrite H. Qed.

Lemma transition_to_writes_state (cls : class_object) (new_state : REPLState)
    (validate : bool) (d : state_dict) (k : string) :
  k ≠ REPL_STATE_KEY → snd (transition_to cls new_state validate d) !! k = d !! k.
Proof.
  intros Hk. unfold transition_to, sm_bind, sm_get, sm_lift, sm_ret, sm_raise, sm_modify.
  destruct (get_state_from_dict_total d) as [s ->].
  destruct validate; [destruct (can_transition cls s new_state) as [e|[|]]|]; simpl;
    by rewrite ?lookup_insert_ne.
Qed.

Section ReviewFrame.
Context `{RT : PyRuntime} `{ST : tools.StateStore}.

Lemma same_but_review_refl (w : tools.world) : same_but_review w w.
Proof. by split. Qed.

Lemma same_but_review_trans (w1 w2 w3 : tools.world) :
  same_but_review w1 w2 → same_but_review w2 w3 → same_but_review w1 w3.
Proof.
  intros [He1 Hs1] [He2 Hs2]. split; [congruence|].
  intros k H1 H2. by rewrite Hs2, Hs1.
Qed.

Lemma same_but_review_level (w w' : tools.world) :
  same_but_review w w' → stored_level w' = stored_level w.
Proof.
  intros [_ Hs]. unfold stored_level, dict_get. by rewrite Hs by key_ne.
Qed.

Lemma reviews_only_ret {A} (a : A) : reviews_only (sm_ret a).
Proof. intros w. apply same_but_review_refl. Qed.

Lemma reviews_only_get : reviews_only (@sm_get tools.world).
Proof. intros w. apply same_but_review_refl. Qed.

Lemma reviews_only_lift {A} (r : exn + A) : reviews_only (sm_lift r).
Proof. intros w. apply same_but_review_refl. Qed.

Lemma reviews_only_bind {A B} (m : SM tools.world A) (k : A → SM tools.world B) :
  reviews_only m → (∀ a, reviews_only (k a)) → reviews_only (sm_bind m k).
Proof.
  intros Hm Hk w. specialize (Hm w). unfold sm_bind.
  destruct (m w) as [[e|a] w1]; [done|].
  eapply same_but_review_trans; [exact Hm | apply Hk].
Qed.

Lemma reviews_only_on_state {A} (m : SM state_dict A) :
  (∀ d k, k ≠ REPL_STATE_KEY → k ≠ REPL_PENDING_CODE_KEY → snd (m d) !! k = d !! k) →
  reviews_only (tools.on_state m).
Proof.
  intros Hm w. unfold tools.on_state. specialize (Hm (tools.state w)).
  destruct (m (tools.state w)) as [r d]. split; [done|]. exact Hm.
Qed.

Lemma reviews_only_transition (cls : class_object) (new_state : REPLState) :
  reviews_only (tools.transition cls new_state).
Proof.
  unfold tools.transition. apply reviews_only_bind.
  - apply reviews_only_on_state. intros d k Hk _. by apply transition_to_writes_state.
  - intros r. apply reviews_only_bind; [|intros; apply reviews_only_ret].
    intros w. by split.
Qed.

Lemma reviews_only_set_pending (code : string) :
  reviews_only (tools.on_state (set_pending_code code)).
Proof.
  apply reviews_only_on_state. intros d k _ Hk.
  unfold set_pending_code, sm_modify. simpl. by rewrite lookup_insert_ne.
Qed.

Lemma reviews_only_clear_pending :
  reviews_only (tools.on_state tools.clear_pending_code_on_store).
Proof.
  apply reviews_only_on_state. intros d k _ Hk.
  unfold tools.clear_pending_code_on_store. destruct tools.store_of.
  - unfold clear_pending_code, sm_modify. simpl. by rewrite lookup_delete_ne.
  - unfold sm_bind, sm_get. by destruct (d !! REPL_PENDING_CODE_KEY).
Qed.

Lemma reviews_only_approve (cls : class_object) :
  reviews_only (tools.approve_code_execution cls).
Proof.
  unfold tools.approve_code_execution.
  apply reviews_only_bind; [apply reviews_only_get|]. intros w.
  destruct (get_pending_code _) as [p|]; [|apply reviews_only_ret].
  destruct (negb (truthy p)); [apply reviews_only_ret|].
  apply reviews_only_bind; [apply reviews_only_lift|]. intros s.
  destruct (decide _); [|apply reviews_only_ret].
  apply reviews_only_bind; [apply reviews_only_transition|].
  intros; apply reviews_only_ret.
Qed.

Lemma reviews_only_reject (cls : class_object) (reason : string) :
  reviews_only (tools.reject_code_execution cls reason).
Proof.
  unfold tools.reject_code_execution.
  apply reviews_only_bind; [apply reviews_only_get|]. intros w.
  destruct (get_pending_code _) as [p|]; [|apply reviews_only_ret].
  destruct (negb (truthy p)); [apply reviews_only_ret|].
  apply reviews_only_bind; [apply reviews_only_clear_pending|]. intros _.
  apply reviews_only_bind; [apply reviews_only_transition|]. intros _.
  apply reviews_only_bind; [apply reviews_only_transition|].
  intros; apply reviews_only_ret.
Qed.

(** One step of a computation that keeps to the review keys, with the value
    it returns. *)
Lemma wp_bind_reviews {A B} (m : SM tools.world A) (k : A → SM tools.world B)
    (w0 : tools.world) (Q : B → tools.world → Prop) (w : tools.world) :
  reviews_only m →
  (∀ a w', same_but_review w0 w' → m w = (inr a, w') →
           wp (k a) (same_but_review w0) Q w') →
  same_but_review w0 w → wp (sm_bind m k) (same_but_review w0) Q w.
Proof.
  intros Hm Hk H. specialize (Hm w). unfold wp, sm_bind in *.
  destruct (m w) as [[e|a] w1] eqn:Hmw; simpl in Hm.
  - by eapply same_but_review_trans.
  - apply Hk; [by eapply same_but_review_trans | done].
Qed.

End ReviewFrame.

(** ** The blocked submission *)

Section ToolSecurity.
Context `{RT : PyRuntime} `{ST : tools.StateStore}.

Lemma shell_submission_blocked (self : SecureInteractiveConsole) :
  _security_level self = BASIC →
  execute_code self shell_submission
  = (inr {| stdout := ""; stderr := blocked_message;
            locals_snapshot := raw_locals (locals self); success := false |}, self).
Proof.
  intros H. unfold execute_code. rewrite H.
  by change (check_code_security BASIC shell_submission)
    with (false, "os module import blocked").
Qed.

Lemma execute_code_level (self : SecureInteractiveConsole) (code : string) :
  _security_level (snd (execute_code self code)) = _security_level self.
Proof.
  unfold execute_code. destruct (check_code_security _ _) as [[|] msg]; simpl; [|done].
  destruct (run_submission _ _) as [[e|[]] c]; [|done].
  by destruct (is_Exception e).
Qed.

Lemma new_repl_level (d : state_dict) (env : ADKREPLEnvironment) (level : SecurityLevel) :
  SecurityLevel_call
    (dict_get d REPL_SECURITY_LEVEL_KEY (PStr (SecurityLevel_value BASIC))) = inr level →
  tools.new_repl d = inr env →
  ∃ con, _console env = Some con ∧ _security_level con = level.
Proof.
  intros Hlevel. unfold tools.new_repl. rewrite Hlevel.
  unfold ADKREPLEnvironment_init. destruct host_mkdtemp as [e|dir]; [done|].
  unfold initialize, sm_bind, sm_get, sm_lift, sm_modify, sm_ret.
  destruct (host_console_locals _) as [e|l]; [done|].
  set (con := {| _security_level := level; locals := l |}).
  assert (∀ env0 : ADKREPLEnvironment,
    (∃ c, _console env0 = Some c ∧ _security_level c = level) →
    ∀ ctx env1, (let '(r, env') := _load_string_context ctx env0 in
                 match r with inl e => inl e | inr _ => inr env' end) = inr env1 →
    ∃ c, _console env1 = Some c ∧ _security_level c = level) as Hload.
  { intros env0 (c & Hc & Hl) ctx env1.
    unfold _load_string_context, sm_bind, sm_get, sm_lift, sm_modify, sm_ret, sm_raise.
    rewrite Hc. destruct (host_write_text _ _) as [e|[]]; [done|].
    pose proof (execute_code_level c
      (PyStr.nl +:+ "with open(r'" +:+ path_join (_temp_dir env0) "context.txt"
       +:+ "', 'r') as f:" +:+ PyStr.nl +:+ "    context = f.read()" +:+ PyStr.nl)) as Hlev.
    destruct (execute_code c _) as [[e|r] c']; [done|].
    intros [= <-]. exists c'. simpl in *. split; [done | congruence]. }
  simpl. destruct (d !! REPL_CONTEXT_KEY) as [ctx|] eqn:Hctx.
  - destruct ctx; [intros [= <-]; by exists con|..];
      (intros H; eapply Hload; [|exact H]; by exists con).
  - intros [= <-]. by exists con.
Qed.

Lemma new_repl_ext (d d' : state_dict) :
  d' !! REPL_SECURITY_LEVEL_KEY = d !! REPL_SECURITY_LEVEL_KEY →
  d' !! REPL_CONTEXT_KEY = d !! REPL_CONTEXT_KEY →
  d' !! REPL_LOCALS_KEY = d !! REPL_LOCALS_KEY →
  tools.new_repl d' = tools.new_repl d.
Proof. intros H1 H2 H3. unfold tools.new_repl, dict_get. by rewrite H1, H2, H3. Qed.

Lemma transition_ok cls current new_state w :
  cls_VALID_TRANSITIONS cls = Some VALID_TRANSITIONS →
  get_state_from_dict (tools.state w) = inr current →
  set_mem new_state (table_get VALID_TRANSITIONS current) = true →
  tools.transition cls new_state w
  = (inr true,
     {| tools.state := <[REPL_STATE_KEY := PStr (REPLState_value new_state)]> (tools.state w);
        tools._repl_environments := tools._repl_environments w;
        tools.transitions := tools.transitions w ++ [new_state] |}).
Proof.
  intros Hcls Hcur Hmem.
  unfold tools.transition, tools.on_state, transition_to, can_transition,
    sm_bind, sm_get, sm_lift, sm_modify, sm_ret.
  by rewrite Hcur, Hcls, Hmem.
Qed.

Lemma with_console_same (env : ADKREPLEnvironment) (con : SecureInteractiveConsole) :
  _console env = Some con → with_console env (Some con) = env.
Proof. destruct env. simpl. by intros ->. Qed.

Lemma execute_blocked (env : ADKREPLEnvironment) (con : SecureInteractiveConsole) :
  _console env = Some con → _security_level con = BASIC →
  execute shell_submission env
  = (inr {| stdout := ""; stderr := blocked_message;
            locals_snapshot := raw_locals (locals con); success := false |}, env).
Proof.
  intros Hcon Hlevel. unfold execute, sm_bind, sm_get, sm_modify, sm_lift.
  rewrite Hcon, (shell_submission_blocked _ Hlevel).
  by rewrite (with_console_same _ _ Hcon).
Qed.

Lemma get_or_create_ok (w w1 : tools.world) (sid : string) (env : ADKREPLEnvironment) :
  tools._repl_environments w1 = tools._repl_environments w →
  tools.new_repl (tools.state w1) = tools.new_repl (tools.state w) →
  session_env w sid = Some env →
  tools._get_or_create_repl sid w1
  = (inr env,
     {| tools.state := tools.state w1;
        tools._repl_environments := <[sid := env]> (tools._repl_environments w1);
        tools.transitions := tools.transitions w1 |}).
Proof.
  intros Henvs Hnew. unfold session_env, tools._get_or_create_repl.
  unfold sm_bind, sm_get, sm_lift, sm_modify, sm_ret.
  rewrite Henvs, Hnew. destruct (tools._repl_environments w !! sid) as [env'|] eqn:Hsid.
  - intros [= ->]. destruct w1 as [d envs tr]. simpl in *. subst envs.
    by rewrite insert_id.
  - destruct (tools.new_repl (tools.state w)) as [e|env']; [done|].
    intros [= ->]. simpl. by rewrite Henvs.
Qed.

Lemma wp_step {A} (m : SM tools.world A) (a : A) (w w1 : tools.world)
    (Qe : tools.world → Prop) (Q : A → tools.world → Prop) :
  m w = (inr a, w1) → (∀ w', w' = w1 → Q a w') → wp m Qe Q w.
Proof. intros H HQ. unfold wp. rewrite H. by apply HQ. Qed.

(** *** The transitions a call makes *)

Lemma state_after_app (v0 : option pyval) (l1 l2 : list REPLState) :
  state_after (state_after v0 l1) l2 = state_after v0 (l1 ++ l2).
Proof. unfold state_after. rewrite last_app. by destruct (last l2). Qed.

Lemma logs_weaken {A} (a b : list REPLState) (m : SM tools.world A) :
  a `sublist_of` b → logs a m → logs b m.
Proof.
  intros Hab Hm w. destruct (Hm w) as (l & Hl & Hsub & Hs).
  exists l. split; [done|]. split; [by etrans | done].
Qed.

Lemma logs_same {A} (f : SM tools.world A) :
  (∀ w, tools.transitions (snd (f w)) = tools.transitions w) →
  (∀ w, tools.state (snd (f w)) = tools.state w) → logs [] f.
Proof. intros Ht Hs w. exists []. by rewrite Ht, Hs, app_nil_r. Qed.

Lemma logs_ret {A} (a : A) : logs [] (sm_ret a).
Proof. by apply logs_same. Qed.

Lemma logs_get : logs [] (@sm_get tools.world).
Proof. by apply logs_same. Qed.

Lemma logs_lift {A} (r : exn + A) : logs [] (@sm_lift tools.world A r).
Proof. apply logs_same; intros w; by destruct r. Qed.

Lemma logs_on_state {A} (m : SM state_dict A) :
  (∀ d, snd (m d) !! REPL_STATE_KEY = d !! REPL_STATE_KEY) → logs [] (tools.on_state m).
Proof.
  intros Hm w. exists []. specialize (Hm (tools.state w)). unfold tools.on_state.
  destruct (m (tools.state w)) as [r d]. simpl in *. by rewrite app_nil_r.
Qed.

Lemma logs_set_item (k : string) (v : pyval) :
  k ≠ REPL_STATE_KEY → logs [] (tools.set_item k v).
Proof.
  intros Hk. apply logs_on_state. intros d. unfold sm_modify. simpl.
  by rewrite lookup_insert_ne.
Qed.

Lemma logs_add_code_to_history (code out err : string) :
  logs [] (tools.on_state (add_code_to_history code out err)).
Proof.
  apply logs_on_state. intros d.
  unfold add_code_to_history, sm_bind, sm_get, sm_modify, sm_raise.
  destruct (dict_get _ _ _); simpl; try done. by rewrite lookup_insert_ne by key_ne.
Qed.

Lemma logs_clear_pending_code : logs [] (tools.on_state tools.clear_pending_code_on_store).
Proof.
  apply logs_on_state. intros d.
  unfold tools.clear_pending_code_on_store. destruct tools.store_of.
  - unfold clear_pending_code, sm_modify. simpl. by rewrite lookup_delete_ne by key_ne.
  - unfold sm_bind, sm_get. by destruct (d !! REPL_PENDING_CODE_KEY).
Qed.

Lemma logs_increment_iteration : logs [] (tools.on_state increment_iteration).
Proof.
  apply logs_on_state. intros d.
  unfold increment_iteration, sm_bind, sm_get, sm_lift, sm_modify, sm_ret.
  destruct (add_one _); simpl; [done|]. by rewrite lookup_insert_ne by key_ne.
Qed.

Lemma logs_bind {A B} (a b : list REPLState) (m : SM tools.world A)
    (k : A → SM tools.world B) :
  logs a m → (∀ x, logs b (k x)) → logs (a ++ b) (sm_bind m k).
Proof.
  intros Hm Hk w. destruct (Hm w) as (l1 & Hl1 & Hsub1 & Hs1). unfold sm_bind.
  destruct (m w) as [[e|x] w1]; simpl in Hl1, Hs1.
  - exists l1. split; [done|]. split; [by apply sublist_inserts_r | done].
  - destruct (Hk x w1) as (l2 & Hl2 & Hsub2 & Hs2). exists (l1 ++ l2).
    split; [by rewrite Hl2, Hl1, (assoc_L (++))|].
    split; [by apply sublist_app|]. by rewrite Hs2, Hs1, state_after_app.
Qed.

Lemma logs_transition (cls : class_object) (new_state : REPLState) :
  logs [new_state] (tools.transition cls new_state).
Proof.
  intros w. unfold tools.transition, tools.on_state, sm_bind, sm_modify, sm_ret,
    transition_to, sm_bind, sm_get, sm_lift, sm_raise.
  destruct (get_state_from_dict_total (tools.state w)) as [s ->].
  destruct (can_transition cls s new_state) as [e|[|]]; simpl.
  - exists []. split; [by rewrite app_nil_r|]. split; [apply sublist_nil_l | done].
  - exists [new_state]. do 2 (split; [done|]). apply lookup_insert_eq.
  - exists []. split; [by rewrite app_nil_r|]. split; [apply sublist_nil_l | done].
Qed.

Lemma logs_get_or_create (sid : string) : logs [] (tools._get_or_create_repl sid).
Proof.
  apply logs_same; intros w;
    unfold tools._get_or_create_repl, sm_bind, sm_get, sm_lift, sm_modify, sm_ret;
    (destruct (tools._repl_environments w !! sid); [done|]);
    by destruct (tools.new_repl (tools.state w)).
Qed.

Lemma logs_run_approved (cls : class_object) (sid approved_code : string) :
  logs [EXECUTING; IDLE] (tools.run_approved cls sid approved_code).
Proof.
  unfold tools.run_approved.
  apply (logs_bind [EXECUTING] [IDLE]); [apply logs_transition|]. intros _.
  apply (logs_bind [] [IDLE]); [apply logs_get_or_create|]. intros repl.
  apply (logs_bind [] [IDLE]).
  { apply logs_same; intros w; by destruct (execute approved_code repl). }
  intros result.
  do 3 (apply (logs_bind [] [IDLE]); [apply logs_set_item; key_ne|]; intros _).
  apply (logs_bind [] [IDLE]); [apply logs_add_code_to_history|]. intros _.
  apply (logs_bind [] [IDLE]); [apply logs_get|]. intros w.
  apply (logs_bind [] [IDLE]); [destruct (truthy _); apply logs_ret|]. intros _.
  apply (logs_bind [] [IDLE]); [apply logs_clear_pending_code|]. intros _.
  apply (logs_bind [IDLE] []); [apply logs_transition|]. intros _.
  apply (logs_bind [] []); [apply logs_increment_iteration|]. intros n. apply logs_ret.
Qed.

Lemma logs_execute_code (cls : class_object) (code sid : string) :
  logs [CODE_PENDING_REVIEW; CODE_APPROVED; EXECUTING; IDLE]
    (tools.execute_code cls code sid).
Proof.
  unfold tools.execute_code.
  apply (logs_bind [] [CODE_PENDING_REVIEW; CODE_APPROVED; EXECUTING; IDLE]);
    [apply logs_get|]. intros w0.
  apply (logs_bind [] [CODE_PENDING_REVIEW; CODE_APPROVED; EXECUTING; IDLE]);
    [apply logs_lift|]. intros current.
  apply (logs_bind [CODE_PENDING_REVIEW] [CODE_APPROVED; EXECUTING; IDLE]).
  { destruct (decide _).
    - apply (logs_bind [CODE_PENDING_REVIEW] []); [apply logs_transition|].
      intros; apply logs_ret.
    - eapply logs_weaken; [apply sublist_nil_l | apply logs_ret]. }
  intros _.
  apply (logs_bind [] [CODE_APPROVED; EXECUTING; IDLE]); [apply logs_get|]. intros w1.
  apply (logs_bind [] [CODE_APPROVED; EXECUTING; IDLE]); [apply logs_lift|].
  intros level.
  apply (logs_bind [] [CODE_APPROVED; EXECUTING; IDLE]).
  { apply logs_on_state. intros d. unfold set_pending_code, sm_modify. simpl.
    by rewrite lookup_insert_ne by key_ne. }
  intros _.
  destruct (_ || _); [|eapply logs_weaken; [apply sublist_nil_l | apply logs_ret]].
  apply (logs_bind [CODE_APPROVED] [EXECUTING; IDLE]); [apply logs_transition|]. intros _.
  apply (logs_bind [] [EXECUTING; IDLE]); [apply logs_get|]. intros w2.
  destruct (get_pending_code _) as [[| | |approved| | |]|];
    try (eapply logs_weaken; [apply sublist_nil_l | apply logs_ret]).
  destruct (String.eqb approved "");
    [eapply logs_weaken; [apply sublist_nil_l | apply logs_ret]|].
  apply logs_run_approved.
Qed.

Lemma wp_any_bind {A B} (m : SM tools.world A) (k : A → SM tools.world B)
    (Q : B → tools.world → Prop) (w : tools.world) :
  (∀ a w', wp (k a) (λ _, True) Q w') → wp (sm_bind m k) (λ _, True) Q w.
Proof. intros Hk. unfold wp, sm_bind. destruct (m w) as [[e|a] w1]; [done | apply Hk]. Qed.

End ToolSecurity.

(** C2: the operation never moves the state to CODE_REJECTED.  Whatever the
    class object, the state store, the code and the state, and however the
    call ends, the transitions it makes are some of CODE_PENDING_REVIEW,
    CODE_APPROVED, EXECUTING and IDLE, in this order, and the stored state is
    the target of the last of them, or as it was when none was made: the
    levels NONE and BASIC are approved without review.  The submission
    [import os / os.system("ls")] is refused by the sandbox's own check: a
    sandbox whose console checks at level BASIC returns before any code is
    run and is left as it was, with empty stdout, the reason of the matched
    entry on stderr and [success = False]; and the sandbox that the
    operation builds for a session whose stored level is BASIC, or is
    missing, has such a console. *)
Theorem blocked_submission_is_refused_by_the_sandbox :
  (∀ (RT : PyRuntime) (ST : tools.StateStore) cls code sid w,
     ∃ l, tools.transitions (snd (tools.execute_code cls code sid w))
          = tools.transitions w ++ l
          ∧ l `sublist_of` [CODE_PENDING_REVIEW; CODE_APPROVED; EXECUTING; IDLE]
          ∧ (CODE_REJECTED ∉ l)
          ∧ tools.state (snd (tools.execute_code cls code sid w)) !! REPL_STATE_KEY
            = state_after (tools.state w !! REPL_STATE_KEY) l)
  ∧ (∀ (RT : PyRuntime) env con,
       _console env = Some con → _security_level con = BASIC →
       execute shell_submission env
       = (inr {| stdout := ""; stderr := blocked_message;
                 locals_snapshot := raw_locals (locals con); success := false |}, env))
  ∧ (∀ (RT : PyRuntime) d env,
       SecurityLevel_call
         (dict_get d REPL_SECURITY_LEVEL_KEY (PStr (SecurityLevel_value BASIC)))
       = inr BASIC →
       tools.new_repl d = inr env →
       ∃ con, _console env = Some con ∧ _security_level con = BASIC).
Proof.
  split; [|split].
  - intros RT ST cls code sid w.
    destruct (logs_execute_code cls code sid w) as (l & Hl & Hsub & Hs).
    exists l. do 2 (split; [done|]). split; [|done]. intros Hin.
    apply sublist_submseteq in Hsub.
    pose proof (elem_of_submseteq _ _ _ Hin Hsub) as H.
    repeat (apply elem_of_cons in H as [H|H]; [discriminate H|]).
    by apply elem_of_nil in H.
  - intros RT env con. apply execute_blocked.
  - intros RT d env. apply new_repl_level.
Qed.

(** C2 on the reference runtime: a sandbox at level BASIC, with a variable
    in its namespace, refuses the submission and is left as it was; and the
    sandbox built for the sample session has a console at level BASIC. *)
Lemma blocked_submission_is_refused_by_the_sandbox_witness :
  execute (RT := MiniPy.runtime) shell_submission
    {| env_security_level := BASIC; _output_router := OutputRouter_init;
       _console := Some (MiniPy.console BASIC [("x", PInt 1)]);
       _temp_dir := "/tmp/adk_repl_0" |}
  = (inr {| stdout := ""; stderr := blocked_message;
            locals_snapshot := raw_locals (locals (MiniPy.console BASIC [("x", PInt 1)]));
            success := false |},
     {| env_security_level := BASIC; _output_router := OutputRouter_init;
        _console := Some (MiniPy.console BASIC [("x", PInt 1)]);
        _temp_dir := "/tmp/adk_repl_0" |})
  ∧ ∃ env,
      tools.new_repl (RT := MiniPy.runtime) (tools.state sample_world) = inr env
      ∧ ∃ con, _console env = Some con ∧ _security_level con = BASIC.
Proof.
  split.
  - apply (proj1 (proj2 blocked_submission_is_refused_by_the_sandbox) MiniPy.runtime
             _ (MiniPy.console BASIC [("x", PInt 1)])); reflexivity.
  - eexists. split.
    + reflexivity.
    + apply (proj2 (proj2 blocked_submission_is_refused_by_the_sandbox) MiniPy.runtime
               (tools.state sample_world)); reflexivity.
Defined.

(** C2, as stated, fails on a session that [initialize_state] has just set
    up at level BASIC, with the state store of a running agent.  Through the
    class as written the first transition raises [AttributeError]: the state
    never leaves IDLE and nothing is written to stderr.  With the table
    bound on the class the state goes through CODE_PENDING_REVIEW and
    CODE_APPROVED to EXECUTING, the sandbox is called and refuses, its stderr
    is stored as the last error, and the call then raises at [del]: the state
    stays at EXECUTING and never enters CODE_REJECTED. *)
Lemma blocked_submission_is_never_rejected :
  (fst (tools.execute_code (ST := tools.ADKState) REPLStateManager shell_submission "s1"
          sample_world)
   = inl (Exn AttributeError
            "type object 'REPLStateManager' has no attribute 'VALID_TRANSITIONS'")
   ∧ tools.transitions
       (snd (tools.execute_code (ST := tools.ADKState) REPLStateManager shell_submission
               "s1" sample_world)) = []
   ∧ get_state_from_dict
       (tools.state
          (snd (tools.execute_code (ST := tools.ADKState) REPLStateManager
                  shell_submission "s1" sample_world)))
     = inr IDLE)
  ∧ (fst (tools.execute_code (ST := tools.ADKState) REPLStateManager_bound
            shell_submission "s1" sample_world)
     = inl (Exn AttributeError "__delitem__")
     ∧ tools.transitions
         (snd (tools.execute_code (ST := tools.ADKState) REPLStateManager_bound
                 shell_submission "s1" sample_world))
       = [CODE_PENDING_REVIEW; CODE_APPROVED; EXECUTING]
     ∧ get_state_from_dict
         (tools.state
            (snd (tools.execute_code (ST := tools.ADKState) REPLStateManager_bound
                    shell_submission "s1" sample_world)))
       = inr EXECUTING
     ∧ tools.state
         (snd (tools.execute_code (ST := tools.ADKState) REPLStateManager_bound
                 shell_submission "s1" sample_world)) !! REPL_LAST_ERROR_KEY
       = Some (PStr blocked_message)
     ∧ CODE_REJECTED
       ∉ tools.transitions
           (snd (tools.execute_code (ST := tools.ADKState) REPLStateManager_bound
                   shell_submission "s1" sample_world))).
Proof.
  assert (tools.transitions
           (snd (tools.execute_code (ST := tools.ADKState) REPLStateManager_bound
                   shell_submission "s1" sample_world))
          = [CODE_PENDING_REVIEW; CODE_APPROVED; EXECUTING]) as Ht
    by (vm_compute; reflexivity).
  split; [repeat split; vm_compute; reflexivity|].
  split; [vm_compute; reflexivity|]. split; [exact Ht|].
  do 2 (split; [vm_compute; reflexivity|]).
  rewrite Ht. intros H.
  repeat (apply elem_of_cons in H as [H|H]; [discriminate H|]).
  by apply elem_of_nil in H.
Qed.

(* ===================================================================== *)
(** * Further properties of the code *)
(* ===================================================================== *)

(** ** The state manager, beyond the transition table *)

Lemma enum_round_trip_state (s : REPLState) :
  REPLState_call (PStr (REPLState_value s)) = inr s.
Proof. by destruct s. Qed.

Lemma enum_round_trip_level (l : SecurityLevel) :
  SecurityLevel_call (PStr (SecurityLevel_value l)) = inr l.
Proof. by destruct l. Qed.

Lemma transition_to_unvalidated (cls : class_object) (new_state : REPLState)
    (d : state_dict) :
  transition_to cls new_state false d
  = (inr true, <[REPL_STATE_KEY := PStr (REPLState_value new_state)]> d).
Proof.
  unfold transition_to, sm_bind, sm_get, sm_lift, sm_ret, sm_modify.
  by destruct (get_state_from_dict_total d) as [s ->].
Qed.

(** X1: a transition made with [validate=False] succeeds from every
    dictionary and through every class object, also the class as written;
    the state then reads back as the target and no other key has changed. *)
Theorem unvalidated_transition_reads_back (cls : class_object)
    (new_state : REPLState) (d : state_dict) :
  ∃ d', transition_to cls new_state false d = (inr true, d')
        ∧ get_state_from_dict d' = inr new_state
        ∧ ∀ k, k ≠ REPL_STATE_KEY → d' !! k = d !! k.
Proof.
  eexists. split; [apply transition_to_unvalidated|]. split.
  - apply get_state_from_dict_stored, lookup_insert_eq.
  - intros k Hk. by rewrite lookup_insert_ne.
Qed.

Lemma set_final_answer_result (cls : class_object) (answer : string) (d : state_dict) :
  set_final_answer cls answer d
  = (inr tt, <[REPL_STATE_KEY := PStr (REPLState_value COMPLETE)]>
               (<[REPL_FINAL_ANSWER_KEY := PStr answer]> d)).
Proof.
  unfold set_final_answer, sm_bind, sm_modify, sm_ret.
  by rewrite transition_to_unvalidated.
Qed.

(** X2: [set_final_answer] never raises, whatever the state and the class
    object: afterwards the session is complete, the answer reads back, and
    only the state key and the answer key have changed. *)
Theorem set_final_answer_completes (cls : class_object) (answer : string)
    (d : state_dict) :
  ∃ d', set_final_answer cls answer d = (inr tt, d')
        ∧ is_complete d' = inr true
        ∧ get_final_answer d' = Some (PStr answer)
        ∧ ∀ k, k ≠ REPL_STATE_KEY → k ≠ REPL_FINAL_ANSWER_KEY → d' !! k = d !! k.
Proof.
  eexists. split; [apply set_final_answer_result|].
  split; [|split].
  - unfold is_complete.
    by rewrite (get_state_from_dict_stored _ COMPLETE) by apply lookup_insert_eq.
  - unfold get_final_answer. rewrite lookup_insert_ne by key_ne. apply lookup_insert_eq.
  - intros k H1 H2. by rewrite !lookup_insert_ne.
Qed.

(** X3: COMPLETE is terminal for validated transitions: from a dictionary
    whose state reads COMPLETE every target, COMPLETE included, is refused
    and the dictionary is left as it was, with [ValueError] when the table
    is bound on the class and with [AttributeError] through the class as
    written. *)
Theorem complete_is_terminal (d : state_dict) (new_state : REPLState) :
  get_state_from_dict d = inr COMPLETE →
  (∃ e, transition_to REPLStateManager_bound new_state true d = (inl e, d)
        ∧ exn_cls e = ValueError)
  ∧ (∃ e, transition_to REPLStateManager new_state true d = (inl e, d)
          ∧ exn_cls e = AttributeError).
Proof.
  intros H. split.
  - rewrite (transition_to_bound _ _ _ H). simpl. eauto.
  - unfold transition_to, sm_bind, sm_get, sm_lift. rewrite H. simpl. eauto.
Qed.

Lemma complete_is_terminal_witness :
  (∃ e, transition_to REPLStateManager_bound IDLE true
          {[ REPL_STATE_KEY := PStr "complete" ]}
        = (inl e, {[ REPL_STATE_KEY := PStr "complete" ]})
        ∧ exn_cls e = ValueError)
  ∧ (∃ e, transition_to REPLStateManager IDLE true
            {[ REPL_STATE_KEY := PStr "complete" ]}
          = (inl e, {[ REPL_STATE_KEY := PStr "complete" ]})
          ∧ exn_cls e = AttributeError).
Proof. apply complete_is_terminal. reflexivity. Defined.

(** X4: the pending code reads back after [set_pending_code] and is gone
    after [clear_pending_code]; clearing a dictionary that holds no pending
    code changes nothing and raises nothing, and setting then clearing
    gives back a dictionary that held none. *)
Theorem pending_code_round_trip (code : string) (d : state_dict) :
  get_pending_code (snd (set_pending_code code d)) = Some (PStr code)
  ∧ fst (clear_pending_code d) = inr tt
  ∧ get_pending_code (snd (clear_pending_code d)) = None
  ∧ (get_pending_code d = None →
     snd (clear_pending_code d) = d
     ∧ snd (clear_pending_code (snd (set_pending_code code d))) = d)
  ∧ (∀ k, k ≠ REPL_PENDING_CODE_KEY →
     snd (set_pending_code code d) !! k = d !! k
     ∧ snd (clear_pending_code d) !! k = d !! k).
Proof.
  unfold get_pending_code, set_pending_code, clear_pending_code, sm_modify. simpl.
  split; [apply lookup_insert_eq|]. split; [done|].
  split; [apply lookup_delete_eq|]. split.
  - intros H. split; [by apply delete_id|].
    rewrite delete_insert_eq. by apply delete_id.
  - intros k Hk. by rewrite lookup_insert_ne, lookup_delete_ne.
Qed.

(** X5: on a dictionary whose history is a list, or is missing,
    [add_code_to_history] puts one entry at the end of the list, with the
    code, the two outputs and the iteration count of that moment; the
    earlier entries and the other keys stay.  On a history that is [None],
    a number, a string or a dictionary it raises [AttributeError] and
    changes nothing. *)
Theorem add_code_to_history_appends (code out err : string) (d : state_dict) :
  (∀ h, d !! REPL_CODE_HISTORY_KEY = Some (PList h)
        ∨ (d !! REPL_CODE_HISTORY_KEY = None ∧ h = []) →
     ∃ d', add_code_to_history code out err d = (inr tt, d')
           ∧ d' !! REPL_CODE_HISTORY_KEY
             = Some (PList (h ++ [history_entry code out err
                                    (dict_get d REPL_ITERATION_KEY (PInt 0))]))
           ∧ ∀ k, k ≠ REPL_CODE_HISTORY_KEY → d' !! k = d !! k)
  ∧ (∀ v, d !! REPL_CODE_HISTORY_KEY = Some v →
          match v with PList _ | PObj _ => False | _ => True end →
     ∃ e, add_code_to_history code out err d = (inl e, d)
          ∧ exn_cls e = AttributeError).
Proof.
  split.
  - intros h Hh. eexists. split.
    + unfold add_code_to_history, sm_bind, sm_get, sm_modify, dict_get.
      destruct Hh as [-> | [-> ->]]; reflexivity.
    + split; [apply lookup_insert_eq|]. intros k Hk. by rewrite lookup_insert_ne.
  - intros v Hv Hkind.
    unfold add_code_to_history, sm_bind, sm_get, sm_raise, dict_get. rewrite Hv.
    destruct v; try done; simpl; eauto.
Qed.

Lemma add_code_to_history_appends_witness :
  ∃ d', add_code_to_history "x = 1" "" "" {[ REPL_ITERATION_KEY := PInt 2 ]}
        = (inr tt, d')
        ∧ d' !! REPL_CODE_HISTORY_KEY
          = Some (PList ([] ++ [history_entry "x = 1" "" ""
                    (dict_get {[ REPL_ITERATION_KEY := PInt 2 ]} REPL_ITERATION_KEY (PInt 0))]))
        ∧ ∀ k, k ≠ REPL_CODE_HISTORY_KEY → d' !! k = ({[ REPL_ITERATION_KEY := PInt 2 ]} : state_dict) !! k.
Proof.
  apply (proj1 (add_code_to_history_appends "x = 1" "" "" {[ REPL_ITERATION_KEY := PInt 2 ]}) []).
  right. split; reflexivity.
Defined.

Lemma initialize_state_lookup_other (d : state_dict) context query m level art k :
  k ∉ [ REPL_STATE_KEY; REPL_LOCALS_KEY; REPL_GLOBALS_KEY; REPL_ITERATION_KEY;
        REPL_MAX_ITERATIONS_KEY; REPL_LAST_OUTPUT_KEY; REPL_LAST_ERROR_KEY;
        REPL_CODE_HISTORY_KEY; REPL_SECURITY_LEVEL_KEY; REPL_ARTIFACT_ENABLED_KEY;
        REPL_CONTEXT_KEY; REPL_QUERY_KEY ] →
  initialize_state d context query m level art !! k = d !! k.
Proof.
  intros Hk. rewrite !not_elem_of_cons in Hk.
  destruct Hk as (?&?&?&?&?&?&?&?&?&?&?&?&_).
  unfold initialize_state. destruct context, query;
    by rewrite !lookup_insert_ne.
Qed.

Ltac initialized_lookup :=
  unfold initialize_state;
  repeat first
    [ apply lookup_insert_eq
    | rewrite lookup_insert_ne by key_ne
    | match goal with |- context [match ?o with Some _ => _ | None => _ end] =>
        destruct o
      end ].

(** X6: [initialize_state] leaves a session that reads IDLE, counts 0
    iterations, has an empty history and holds the given level and bound.
    It does not touch the final answer or the pending code, so those of an
    earlier session stay in a dictionary that is initialised again, and
    without a new context the old context stays as well. *)
Theorem initialize_state_postcondition (d : state_dict) (context query : option string)
    (m : Z) (level : SecurityLevel) (art : bool) :
  let d' := initialize_state d context query m level art in
  get_state_from_dict d' = inr IDLE
  ∧ iteration_count d' = Some 0
  ∧ d' !! REPL_CODE_HISTORY_KEY = Some (PList [])
  ∧ SecurityLevel_call
      (dict_get d' REPL_SECURITY_LEVEL_KEY (PStr (SecurityLevel_value BASIC))) = inr level
  ∧ d' !! REPL_MAX_ITERATIONS_KEY = Some (PInt m)
  ∧ get_final_answer d' = get_final_answer d
  ∧ get_pending_code d' = get_pending_code d
  ∧ d' !! REPL_CONTEXT_KEY
    = match context with Some c => Some (PStr c) | None => d !! REPL_CONTEXT_KEY end.
Proof.
  intros d'.
  assert (d' !! REPL_STATE_KEY = Some (PStr (REPLState_value IDLE))) as Hstate
    by (subst d'; initialized_lookup).
  assert (d' !! REPL_ITERATION_KEY = Some (PInt 0)) as Hiter
    by (subst d'; initialized_lookup).
  assert (d' !! REPL_SECURITY_LEVEL_KEY = Some (PStr (SecurityLevel_value level))) as Hsec
    by (subst d'; initialized_lookup).
  split; [by apply get_state_from_dict_stored|].
  split; [unfold iteration_count, dict_get; by rewrite Hiter|].
  split; [subst d'; initialized_lookup|].
  split; [unfold dict_get; rewrite Hsec; apply enum_round_trip_level|].
  split; [subst d'; initialized_lookup|].
  split; [unfold get_final_answer; subst d';
          by initialized_lookup|].
  split; [unfold get_pending_code; subst d'; by initialized_lookup|].
  subst d'. unfold initialize_state. destruct context, query;
    repeat first [apply lookup_insert_eq | rewrite lookup_insert_ne by key_ne]; done.
Qed.

Lemma increment_iteration_on_int (d : state_dict) (n : Z) :
  d !! REPL_ITERATION_KEY = Some (PInt n) →
  increment_iteration d = (inr (n + 1), <[REPL_ITERATION_KEY := PInt (n + 1)]> d).
Proof.
  intros H. unfold increment_iteration, sm_bind, sm_get, sm_lift, sm_modify, sm_ret, dict_get.
  by rewrite H.
Qed.

Lemma increments_on_int (k : nat) (d : state_dict) (n : Z) :
  d !! REPL_ITERATION_KEY = Some (PInt n) →
  increments k d !! REPL_ITERATION_KEY = Some (PInt (n + Z.of_nat k))
  ∧ ∀ key, key ≠ REPL_ITERATION_KEY → increments k d !! key = d !! key.
Proof.
  revert d n. induction k as [|k IH]; intros d n H.
  - cbn [increments]. split; [|done]. rewrite H. do 2 f_equal. lia.
  - cbn [increments]. rewrite (increment_iteration_on_int _ _ H). cbn [snd].
    destruct (IH (<[REPL_ITERATION_KEY := PInt (n + 1)]> d) (n + 1)) as [H1 H2];
      [apply lookup_insert_eq|].
    split.
    + rewrite H1. do 2 f_equal. lia.
    + intros key Hkey. rewrite H2 by done. by rewrite lookup_insert_ne.
Qed.

(** X7: in a session set up with the bound [m], the check of the iteration
    budget answers true exactly from the [m]-th increment on: at once when
    [m] is zero or negative.  On a dictionary without the two keys it
    compares 0 with 20. *)
Theorem budget_is_exceeded_after_max_iterations (d : state_dict)
    (context query : option string) (m : Z) (level : SecurityLevel) (art : bool)
    (k : nat) :
  has_exceeded_max_iterations
    (increments k (initialize_state d context query m level art))
  = Some (inr (m <=? Z.of_nat k))
  ∧ has_exceeded_max_iterations ∅ = Some (inr false).
Proof.
  split; [|reflexivity].
  pose proof (initialize_state_postcondition d context query m level art)
    as (_ & Hcount & _ & _ & Hmax & _).
  set (d' := initialize_state d context query m level art) in *.
  assert (d' !! REPL_ITERATION_KEY = Some (PInt 0)) as Hiter.
  { subst d'. initialized_lookup. }
  destruct (increments_on_int k d' 0 Hiter) as [H1 H2].
  unfold has_exceeded_max_iterations, dict_get.
  rewrite H1, H2 by key_ne. rewrite Hmax. simpl. do 3 f_equal.
Qed.

(** X8: [before_base_agent_callback] initialises a dictionary only when
    it holds no state key: a session that has one is left exactly as it is,
    its iteration count included, and running the callback twice is the
    same as running it once. *)
Theorem before_callback_never_resets (d : state_dict) :
  (is_Some (d !! REPL_STATE_KEY) → before_base_agent_callback d = d)
  ∧ (d !! REPL_STATE_KEY = None →
     before_base_agent_callback d = initialize_state d None None 20 BASIC false)
  ∧ before_base_agent_callback (before_base_agent_callback d)
    = before_base_agent_callback d.
Proof.
  unfold before_base_agent_callback. split; [|split].
  - intros [v ->]. done.
  - by intros ->.
  - destruct (d !! REPL_STATE_KEY) as [v|] eqn:H; [by rewrite H|].
    assert (initialize_state d None None 20 BASIC false !! REPL_STATE_KEY
            = Some (PStr (REPLState_value IDLE))) as -> by initialized_lookup.
    done.
Qed.

Lemma before_callback_never_resets_witness :
  before_base_agent_callback
    (<[REPL_ITERATION_KEY := PInt 7]> {[ REPL_STATE_KEY := PStr "idle" ]})
  = <[REPL_ITERATION_KEY := PInt 7]> {[ REPL_STATE_KEY := PStr "idle" ]}.
Proof.
  apply (proj1 (before_callback_never_resets _)). eexists. reflexivity.
Defined.

Lemma lower_char_idempotent (c : ascii) : lower_char (lower_char c) = lower_char c.
Proof. by destruct c as [[] [] [] [] [] [] [] []]. Qed.

Lemma lower_idempotent (s : string) : lower (lower s) = lower s.
Proof. induction s as [|c s IH]; [done|]. simpl. by rewrite lower_char_idempotent, IH. Qed.

(** X9: [_get_security_level] reads a level back from its value, ignores
    the case of the letters, and answers BASIC for every string that is not
    the name of a level. *)
Theorem get_security_level_defaults_to_BASIC (level_str : string) :
  (∀ l, _get_security_level (SecurityLevel_value l) = l)
  ∧ _get_security_level (lower level_str) = _get_security_level level_str
  ∧ ((∀ l, lower level_str ≠ SecurityLevel_value l) →
     _get_security_level level_str = BASIC).
Proof.
  split; [by intros []|]. split.
  - unfold _get_security_level. by rewrite lower_idempotent.
  - intros H. unfold _get_security_level, level_map, assoc_get.
    destruct (String.eqb_spec "none" (lower level_str)) as [E|_];
      [by destruct (H NONE)|].
    destruct (String.eqb_spec "basic" (lower level_str)) as [E|_]; [done|].
    destruct (String.eqb_spec "strict" (lower level_str)) as [E|_];
      [by destruct (H STRICT)|done].
Qed.

Lemma get_security_level_defaults_to_BASIC_witness :
  _get_security_level "paranoid" = BASIC.
Proof.
  apply (proj2 (proj2 (get_security_level_defaults_to_BASIC "paranoid"))).
  intros []; discriminate.
Defined.

(** ** The output router, call by call *)

Lemma eqb_base (t : string) : t ≠ "base" → String.eqb t "base" = false.
Proof. intros H. by apply String.eqb_neq. Qed.

(** X10: the router has two buffers and every target name other than
    "base" names the second one: with such a target current, a write goes to
    the buffer of "sub" and leaves the buffer of "base", and reading or
    clearing by that name reads or clears the buffer of "sub". *)
Theorem targets_other_than_base_are_sub (t : string) (text : string) (r : OutputRouter) :
  t ≠ "base" →
  _sub_lm_buffer (write text (set_target t r)) = _sub_lm_buffer r +:+ text
  ∧ _base_lm_buffer (write text (set_target t r)) = _base_lm_buffer r
  ∧ get_buffer (Some t) r = get_buffer (Some "sub") r
  ∧ clear_buffer (Some t) r = clear_buffer (Some "sub") r.
Proof.
  intros Ht. unfold write, get_buffer, clear_buffer, set_target. simpl.
  by rewrite (eqb_base _ Ht).
Qed.

Lemma targets_other_than_base_are_sub_witness :
  _sub_lm_buffer (write "x" (set_target "Base" OutputRouter_init)) = "" +:+ "x"
  ∧ _base_lm_buffer (write "x" (set_target "Base" OutputRouter_init)) = ""
  ∧ get_buffer (Some "Base") OutputRouter_init = get_buffer (Some "sub") OutputRouter_init
  ∧ clear_buffer (Some "Base") OutputRouter_init
    = clear_buffer (Some "sub") OutputRouter_init.
Proof. apply (targets_other_than_base_are_sub "Base" "x" OutputRouter_init). done. Defined.

(** X11: what is written reads back from the current buffer, after what
    was there, and the other buffer keeps its text; a cleared buffer reads
    back empty, by name or by default.  [clear_buffer] empties the base
    buffer and keeps the sub buffer when the target, or the current target
    when none is given, is "base"; for every other target it empties the sub
    buffer and keeps the base buffer.  Neither changes the current target. *)
Theorem router_buffer_round_trip (text : string) (target : option string)
    (r : OutputRouter) :
  get_buffer None (write text r) = get_buffer None r +:+ text
  ∧ get_buffer target (clear_buffer target r) = ""
  ∧ _current_target (clear_buffer target r) = _current_target r
  ∧ _current_target (write text r) = _current_target r
  ∧ (if String.eqb (default (_current_target r) target) "base"
     then _base_lm_buffer (clear_buffer target r) = ""
          ∧ _sub_lm_buffer (clear_buffer target r) = _sub_lm_buffer r
     else _sub_lm_buffer (clear_buffer target r) = ""
          ∧ _base_lm_buffer (clear_buffer target r) = _base_lm_buffer r)
  ∧ (if String.eqb (_current_target r) "base"
     then _base_lm_buffer (write text r) = _base_lm_buffer r +:+ text
          ∧ _sub_lm_buffer (write text r) = _sub_lm_buffer r
     else _sub_lm_buffer (write text r) = _sub_lm_buffer r +:+ text
          ∧ _base_lm_buffer (write text r) = _base_lm_buffer r).
Proof.
  unfold get_buffer, clear_buffer, write.
  destruct target as [t|]; unfold default, id;
    destruct (String.eqb (_current_target r) "base") eqn:Hcur;
    try destruct (String.eqb t "base") eqn:Ht;
    cbn [_base_lm_buffer _sub_lm_buffer _current_target];
    rewrite ?Hcur, ?Ht; cbn [_base_lm_buffer _sub_lm_buffer _current_target];
    repeat split; auto.
Qed.

Lemma str_app_nil_r (s : string) : s +:+ "" = s.
Proof. induction s as [|c s IH]; [done|]. by rewrite str_app_cons, IH. Qed.

Lemma router_step_grows (c : router_call) (r : OutputRouter) :
  is_clear c = false →
  ∃ b s, _base_lm_buffer (router_step r c) = _base_lm_buffer r +:+ b
         ∧ _sub_lm_buffer (router_step r c) = _sub_lm_buffer r +:+ s
         ∧ PyStr.len b + PyStr.len s = written [c].
Proof.
  destruct c as [text|target|target]; [| |done]; intros _; simpl.
  - unfold write. destruct (String.eqb _ _); simpl.
    + exists text, "". rewrite str_app_nil_r. do 2 (split; [done|]).
      change (PyStr.len "") with 0. lia.
    + exists "", text. rewrite str_app_nil_r. do 2 (split; [done|]).
      change (PyStr.len "") with 0. lia.
  - exists "", "". by rewrite !str_app_nil_r.
Qed.

(** X12: over any run of writes and target switches the two buffers only
    grow at their ends, and together they grow by exactly the characters
    written: a text lands in one buffer, once, whatever the target names
    are. *)
Theorem router_run_conserves_output (cs : list router_call) (r : OutputRouter) :
  forallb (λ c, negb (is_clear c)) cs = true →
  ∃ b s, _base_lm_buffer (router_run cs r) = _base_lm_buffer r +:+ b
         ∧ _sub_lm_buffer (router_run cs r) = _sub_lm_buffer r +:+ s
         ∧ PyStr.len b + PyStr.len s = written cs.
Proof.
  revert r. induction cs as [|c cs IH]; intros r Hcs.
  - exists "", "". by rewrite !str_app_nil_r.
  - simpl in Hcs. apply andb_true_iff in Hcs as [Hc Hcs].
    apply negb_true_iff in Hc.
    destruct (router_step_grows c r Hc) as (b1 & s1 & Hb1 & Hs1 & Hlen1).
    destruct (IH (router_step r c) Hcs) as (b2 & s2 & Hb2 & Hs2 & Hlen2).
    exists (b1 +:+ b2), (s1 +:+ s2).
    change (router_run (c :: cs) r) with (router_run cs (router_step r c)).
    rewrite Hb2, Hs2, Hb1, Hs1, !str_app_assoc, !len_app.
    do 2 (split; [done|]).
    assert (written (c :: cs) = written [c] + written cs) as ->.
    { destruct c; simpl; lia. }
    lia.
Qed.

Lemma router_run_conserves_output_witness :
  ∃ b s,
    _base_lm_buffer
      (router_run [CallWrite "a"; CallSetTarget "sub"; CallWrite "bc";
                   CallSetTarget "base"; CallWrite "d"] OutputRouter_init)
    = "" +:+ b
    ∧ _sub_lm_buffer
        (router_run [CallWrite "a"; CallSetTarget "sub"; CallWrite "bc";
                     CallSetTarget "base"; CallWrite "d"] OutputRouter_init)
      = "" +:+ s
    ∧ PyStr.len b + PyStr.len s
      = written [CallWrite "a"; CallSetTarget "sub"; CallWrite "bc";
                 CallSetTarget "base"; CallWrite "d"].
Proof.
  apply (router_run_conserves_output
           [CallWrite "a"; CallSetTarget "sub"; CallWrite "bc";
            CallSetTarget "base"; CallWrite "d"] OutputRouter_init).
  reflexivity.
Defined.

(** X13: [llm_query] without a callback answers with its error text and
    does not touch the router.  With a callback that writes and answers, the
    text goes to the buffer of "sub" only and the target is put back; when
    the callback raises, the exception goes on to the caller and the target
    is put back as well. *)
Theorem llm_query_routes_to_sub (prompt : string) (r : OutputRouter) :
  llm_query None prompt r = (inr "Error: Sub-LLM not available", r)
  ∧ (∀ text answer : string,
       ∃ r', llm_query (Some (λ _, sm_modify (write text) ;;; sm_ret answer)) prompt r
             = (inr answer, r')
             ∧ _base_lm_buffer r' = _base_lm_buffer r
             ∧ _sub_lm_buffer r' = _sub_lm_buffer r +:+ text
             ∧ _current_target r' = _current_target r)
  ∧ (∀ callback e r1,
       callback prompt (set_target "sub" r) = (inl e, r1) →
       llm_query (Some callback) prompt r = (inl e, set_target (_current_target r) r1)).
Proof.
  split; [done|]. split.
  - intros text answer. eexists. split; [reflexivity|]. by simpl.
  - intros callback e r1 H. unfold llm_query, redirect. by rewrite H.
Qed.

Lemma llm_query_routes_to_sub_witness :
  llm_query (Some (λ _, sm_modify (write "partial") ;;;
                        sm_raise (Exn (OtherException "RuntimeError") "quota")))
    "q" OutputRouter_init
  = (inl (Exn (OtherException "RuntimeError") "quota"),
     set_target (_current_target OutputRouter_init)
       (write "partial" (set_target "sub" OutputRouter_init))).
Proof.
  apply (proj2 (proj2 (llm_query_routes_to_sub "q" OutputRouter_init))).
  reflexivity.
Defined.

(** ** The security filter, beyond the first match *)

Lemma occurs_in_app (p s pre post : string) :
  occurs_in p s → occurs_in p (pre +:+ s +:+ post).
Proof.
  intros (a & b & ->). exists (pre +:+ a), (b +:+ post).
  by rewrite !str_app_assoc.
Qed.

Lemma scan_patterns_some (patterns : list (string * string)) (code message : string) :
  scan_patterns patterns code = Some message →
  ∃ pattern, (pattern, message) ∈ patterns ∧ occurs_in pattern code.
Proof.
  induction patterns as [|[p m] patterns IH]; [done|]. simpl.
  destruct (PyStr.contains p code) eqn:Hp.
  - intros [= <-]. exists p. split; [left | by apply contains_spec].
  - intros H. destruct (IH H) as (p' & Hin & Hocc). exists p'. split; [by right | done].
Qed.

Lemma scan_patterns_extend (patterns : list (string * string)) (code code' : string) :
  (∀ p, occurs_in p code → occurs_in p code') →
  is_Some (scan_patterns patterns code) → is_Some (scan_patterns patterns code').
Proof.
  intros Hext. induction patterns as [|[p m] patterns IH]; [done|]. simpl.
  destruct (PyStr.contains p code') eqn:Hp'; [by eauto|].
  destruct (PyStr.contains p code) eqn:Hp; [|done].
  apply contains_spec, Hext, contains_spec in Hp. congruence.
Qed.

Lemma check_refused (level : SecurityLevel) (code : string) :
  fst (check_code_security level code) = false
  ↔ level ≠ NONE ∧ is_Some (scan_patterns dangerous_patterns code).
Proof.
  unfold check_code_security.
  generalize (scan_patterns dangerous_patterns code). intros o.
  destruct level, o as [m|]; simpl;
    (split; [intros H; first [done | by split; [|eexists]]
            | intros [H1 [x H2]]; first [done | by destruct H1]]).
Qed.

(** X14: the denylist is a test on substrings, so a refusal carries over
    to every text that holds the refused code: inside a comment, a string
    literal or a longer program it is refused as well; and level NONE
    refuses nothing. *)
Theorem refusal_carries_over_to_larger_text (level : SecurityLevel)
    (code pre post : string) :
  (fst (check_code_security level code) = false →
   fst (check_code_security level (pre +:+ code +:+ post)) = false)
  ∧ fst (check_code_security NONE code) = true.
Proof.
  split; [|done]. rewrite !check_refused. intros [Hl Hs]. split; [done|].
  eapply scan_patterns_extend; [|exact Hs]. intros p. apply occurs_in_app.
Qed.

Lemma refusal_carries_over_to_larger_text_witness :
  fst (check_code_security STRICT ("# never call " +:+ "eval(" +:+ "x)")) = false.
Proof.
  apply (proj1 (refusal_carries_over_to_larger_text STRICT "eval(" "# never call " "x)")).
  reflexivity.
Defined.

Section ConsoleEdges.
Context `{RT : PyRuntime}.

(** X15: a submission that the check refuses does not reach the runtime:
    the console is returned as it was, stdout is empty, stderr names the
    reason of a denylist entry whose pattern occurs in the code, and the
    snapshot is the whole namespace, private names and the table of
    builtins included. *)
Theorem refused_submission_leaves_console (self : SecureInteractiveConsole)
    (code : string) :
  fst (check_code_security (_security_level self) code) = false →
  ∃ pattern reason,
    (pattern, reason) ∈ dangerous_patterns ∧ occurs_in pattern code
    ∧ execute_code self code
      = (inr {| stdout := ""; stderr := "Security Error: " +:+ reason;
                locals_snapshot := raw_locals (locals self); success := false |}, self)
    ∧ fst <$> raw_locals (locals self) = fst <$> py_items (locals self).
Proof.
  intros H. pose proof H as [Hl [reason Hs]]%check_refused.
  destruct (scan_patterns_some _ _ _ Hs) as (pattern & Hin & Hocc).
  exists pattern, reason. repeat (split; [done|]). split.
  - unfold execute_code, check_code_security.
    destruct (_security_level self); [done|..]; by rewrite Hs.
  - unfold raw_locals. rewrite <- list_fmap_compose.
    apply list_fmap_ext. by intros _ [k v] _.
Qed.

(** X17: the snapshot of the namespace keeps the names that do not start
    with an underscore, in the order of the namespace, and every value in it
    passes [json.dumps]: an object that does not is replaced by the name of
    its type between angle brackets.  The separate test for [__builtins__]
    never decides. *)
Theorem snapshot_is_public_and_serializable (l : py_locals) :
  fst <$> _safe_locals_snapshot l
  = List.filter (λ key, negb (PyStr.startswith "_" key)) (fst <$> py_items l)
  ∧ Forall (λ kv, json_ok kv.2 = true) (_safe_locals_snapshot l)
  ∧ ∀ key v, (key, v) ∈ _safe_locals_snapshot l →
      ∃ value, (key, value) ∈ py_items l
               ∧ v = if json_ok (py_reify value) then py_reify value
                     else PStr ("<" +:+ type_name_of (py_reify value) +:+ ">").
Proof.
  unfold _safe_locals_snapshot.
  induction (py_items l) as [|[key value] items (IH1 & IH2 & IH3)]; [by repeat split; try done; intros ?? ?%elem_of_nil|].
  assert (String.eqb key "__builtins__" = true → PyStr.startswith "_" key = true) as Hb.
  { intros ->%String.eqb_eq. done. }
  cbn [omap list_omap fmap list_fmap List.filter fst].
  destruct (PyStr.startswith "_" key) eqn:Hu; cbn [orb negb].
  - split; [done|]. split; [done|].
    intros key' v Hin. destruct (IH3 _ _ Hin) as (value' & ? & ?).
    exists value'. split; [by right | done].
  - destruct (String.eqb key "__builtins__") eqn:He; [by discriminate Hb|].
    destruct (json_ok (py_reify value)) eqn:Hj; cbn [fmap list_fmap fst].
    + split; [by rewrite IH1|]. split; [by constructor|].
      intros key' v [[= -> ->]|Hin]%elem_of_cons.
      * exists value. split; [left | by rewrite Hj].
      * destruct (IH3 _ _ Hin) as (value' & ? & ?). exists value'.
        split; [by right | done].
    + split; [by rewrite IH1|]. split; [by constructor|].
      intros key' v [[= -> ->]|Hin]%elem_of_cons.
      * exists value. split; [left | by rewrite Hj].
      * destruct (IH3 _ _ Hin) as (value' & ? & ?). exists value'.
        split; [by right | done].
Qed.

Lemma import_line_is_not_comment (line : string) :
  is_import_line line = true → is_non_comment_line line = true.
Proof.
  unfold is_import_line, is_non_comment_line.
  intros [Hstart ->]%andb_true_iff. rewrite andb_true_r.
  destruct (PyStr.strip line) as [|c s]; [done|done].
Qed.

Lemma filter_all_false {A} (p : A → bool) (l : list A) :
  Forall (λ x, p x = false) l → List.filter p l = [].
Proof. induction 1 as [|x l Hx _ IH]; [done|]. simpl. by rewrite Hx. Qed.

(** X18: a submission of blank lines and comments only, once it has passed
    the check, runs nothing: no call of [exec] or [eval] is made, both
    outputs are empty, the result reports success and the console is
    returned as it was. *)
Theorem comments_run_nothing (self : SecureInteractiveConsole) (code : string) :
  fst (check_code_security (_security_level self) code) = true →
  Forall (λ line, is_non_comment_line line = false) (PyStr.split PyStr.LF code) →
  execute_code self code
  = (inr {| stdout := ""; stderr := "";
            locals_snapshot := _safe_locals_snapshot (locals self);
            success := true |}, self).
Proof.
  intros Hsafe Hall.
  assert (List.filter is_import_line (PyStr.split PyStr.LF code) = []) as Himp.
  { apply filter_all_false. eapply Forall_impl; [exact Hall|].
    intros line Hline. simpl in Hline. destruct (is_import_line line) eqn:Hi; [|done].
    apply import_line_is_not_comment in Hi. congruence. }
  rewrite (execute_code_checked _ _ Hsafe), (run_submission_no_imports _ _ Himp).
  unfold run_others. rewrite (filter_all_false _ _ Hall).
  destruct (PyStr.split PyStr.LF code); simpl; by destruct self.
Qed.

Lemma strip_decides_comment (x l : string) :
  PyStr.strip x = PyStr.strip l → is_non_comment_line x = is_non_comment_line l.
Proof. unfold is_non_comment_line. by intros ->. Qed.

Lemma find_last_line_idx_last (pre post : list string) (l : string) (i acc : Z) :
  is_non_comment_line l = true →
  Forall (λ x, is_non_comment_line x = false) post →
  find_last_line_idx (pre ++ l :: post) (PyStr.strip l) i acc = i + Z.of_nat (length pre).
Proof.
  intros Hl Hpost. revert i acc. induction pre as [|x pre IH]; intros i acc.
  - simpl. rewrite String.eqb_refl.
    rewrite Z.add_0_r. generalize i at 2 3. generalize (i + 1). clear acc.
    induction Hpost as [|x post Hx _ IH]; intros j; [done|]. simpl.
    destruct (String.eqb_spec (PyStr.strip x) (PyStr.strip l)) as [E|_]; [|apply IH].
    apply strip_decides_comment in E. congruence.
  - simpl. rewrite IH. lia.
Qed.

Lemma last_filter_app (pre post : list string) (l : string) :
  is_non_comment_line l = true →
  Forall (λ x, is_non_comment_line x = false) post →
  List.filter is_non_comment_line (pre ++ l :: post)
  = List.filter is_non_comment_line pre ++ [l].
Proof.
  intros Hl Hpost. rewrite List.filter_app. simpl. rewrite Hl.
  by rewrite (filter_all_false _ _ Hpost).
Qed.

(** X19: when the last line that is neither blank nor a comment is taken
    for an expression, the lines before it are run as one block of
    statements, unless they are all blank or comments, in which case they
    are not run at all; then the line is evaluated, stripped, and its value
    printed.  The lines after it never reach the runtime. *)
Theorem statements_then_last_expression (pre post : list string) (l : string)
    (c : capture) :
  is_non_comment_line l = true →
  Forall (λ x, is_non_comment_line x = false) post →
  last (List.filter is_non_comment_line (pre ++ l :: post)) = Some l
  ∧ run_as_expression (pre ++ l :: post)
      (List.filter is_non_comment_line (pre ++ l :: post)) (PyStr.strip l) c
    = ((if existsb is_non_comment_line pre
        then exec_ (PyStr.join PyStr.nl pre) else sm_ret tt) ;;;
       eval_and_print (PyStr.strip l)) c.
Proof.
  intros Hl Hpost. rewrite (last_filter_app _ _ _ Hl Hpost).
  split; [by rewrite last_snoc|].
  unfold run_as_expression, eval_and_print.
  rewrite (find_last_line_idx_last _ _ _ _ _ Hl Hpost).
  rewrite length_app. simpl length.
  assert (existsb is_non_comment_line pre
          = (1 <? Z.of_nat (length (List.filter is_non_comment_line pre) + 1))) as ->.
  { induction pre as [|x pre IH]; [done|]. simpl.
    destruct (is_non_comment_line x); simpl; [|exact IH].
    symmetry. apply Z.ltb_lt. lia. }
  destruct (Z.ltb_spec 1 (Z.of_nat (length (List.filter is_non_comment_line pre) + 1)))
    as [Hlt|Hge]; [|done].
  assert (0 < Z.of_nat (length pre)) as Hpre.
  { destruct pre; simpl in *; lia. }
  replace (0 + Z.of_nat (length pre)) with (Z.of_nat (length pre)) by lia.
  destruct (Z.ltb_spec 0 (Z.of_nat (length pre))); [|lia].
  rewrite Nat2Z.id. by rewrite take_app_length.
Qed.

End ConsoleEdges.

Lemma refused_submission_leaves_console_witness :
  ∃ pattern reason,
    (pattern, reason) ∈ dangerous_patterns ∧ occurs_in pattern "x = compile(y)"
    ∧ execute_code (MiniPy.console BASIC []) "x = compile(y)"
      = (inr {| stdout := ""; stderr := "Security Error: " +:+ reason;
                locals_snapshot := raw_locals (locals (MiniPy.console BASIC []));
                success := false |}, MiniPy.console BASIC [])
    ∧ fst <$> raw_locals (locals (MiniPy.console BASIC []))
      = fst <$> py_items (locals (MiniPy.console BASIC [])).
Proof.
  apply (refused_submission_leaves_console (RT := MiniPy.runtime)
           (MiniPy.console BASIC []) "x = compile(y)").
  reflexivity.
Defined.

Lemma comments_run_nothing_witness :
  execute_code (MiniPy.console BASIC [("x", PInt 1)]) ("# a note" +:+ PyStr.nl +:+ "  ")
  = (inr {| stdout := ""; stderr := "";
            locals_snapshot :=
              _safe_locals_snapshot (locals (MiniPy.console BASIC [("x", PInt 1)]));
            success := true |}, MiniPy.console BASIC [("x", PInt 1)]).
Proof.
  apply (comments_run_nothing (RT := MiniPy.runtime)
           (MiniPy.console BASIC [("x", PInt 1)]) ("# a note" +:+ PyStr.nl +:+ "  ")).
  - reflexivity.
  - repeat constructor.
Defined.

Lemma statements_then_last_expression_witness :
  last (List.filter is_non_comment_line (["x = 1"] ++ "x + 1" :: ["# done"]))
  = Some "x + 1"
  ∧ run_as_expression (RT := MiniPy.runtime) (["x = 1"] ++ "x + 1" :: ["# done"])
      (List.filter is_non_comment_line (["x = 1"] ++ "x + 1" :: ["# done"]))
      (PyStr.strip "x + 1") (fresh_capture (MiniPy.console BASIC []))
    = ((if existsb is_non_comment_line ["x = 1"]
        then exec_ (PyStr.join PyStr.nl ["x = 1"]) else sm_ret tt) ;;;
       eval_and_print (PyStr.strip "x + 1")) (fresh_capture (MiniPy.console BASIC [])).
Proof.
  apply (statements_then_last_expression (RT := MiniPy.runtime)
           ["x = 1"] ["# done"] "x + 1" (fresh_capture (MiniPy.console BASIC []))).
  - reflexivity.
  - repeat constructor.
Defined.

(** ** The review tools *)

Section ToolReview.
Context `{RT : PyRuntime} `{ST : tools.StateStore}.

Lemma strict_execute_code (cls : class_object) (code sid : string)
    (w0 w : tools.world) :
  stored_level w0 = inr STRICT → same_but_review w0 w →
  wp (tools.execute_code cls code sid) (same_but_review w0)
     (λ r w', r = pending_approval code ∧ same_but_review w0 w') w.
Proof.
  intros Hlevel H. unfold tools.execute_code.
  apply wp_bind_reviews; [apply reviews_only_get| |done].
  intros wa w1 H1 _. apply wp_bind_reviews; [apply reviews_only_lift| |done].
  intros current w2 H2 _. apply wp_bind_reviews; [| |done].
  { destruct (decide _); [|apply reviews_only_ret].
    apply reviews_only_bind; [apply reviews_only_transition|].
    intros; apply reviews_only_ret. }
  intros _ w3 H3 _. apply wp_bind_reviews; [apply reviews_only_get| |done].
  intros wb w4 H4 [= <- <-].
  apply wp_bind_reviews; [apply reviews_only_lift| |done].
  intros level w5 H5 Hl.
  assert (level = STRICT) as ->.
  { unfold sm_lift in Hl. injection Hl as Hl _.
    pose proof (same_but_review_level _ _ H3) as E. unfold stored_level in E, Hlevel.
    change (PStr "basic") with (PStr (SecurityLevel_value BASIC)) in Hl.
    rewrite E, Hlevel in Hl. by injection Hl. }
  apply wp_bind_reviews; [apply reviews_only_set_pending| |done].
  intros _ w6 H6 _. by apply wp_ret.
Qed.

Lemma tool_step_strict (cls : class_object) (sid : string) (c : tool_call)
    (w0 w : tools.world) :
  stored_level w0 = inr STRICT → same_but_review w0 w →
  same_but_review w0 (tool_step cls sid w c).
Proof.
  intros Hlevel H. destruct c as [code| |reason]; simpl.
  - pose proof (strict_execute_code cls code sid w0 w Hlevel H) as Hwp.
    unfold wp in Hwp. destruct (tools.execute_code cls code sid w) as [[e|r] w'];
      simpl; [done | by destruct Hwp].
  - eapply same_but_review_trans; [exact H | apply reviews_only_approve].
  - eapply same_but_review_trans; [exact H | apply reviews_only_reject].
Qed.

Lemma tool_run_strict (cls : class_object) (sid : string) (calls : list tool_call)
    (w0 w : tools.world) :
  stored_level w0 = inr STRICT → same_but_review w0 w →
  same_but_review w0 (tool_run cls sid calls w).
Proof.
  intros Hlevel. revert w. induction calls as [|c calls IH]; intros w H; [done|].
  apply IH. by apply tool_step_strict.
Qed.

(** X20: at level STRICT no submission is ever run.  Whatever calls of
    [execute_code], [approve_code_execution] and [reject_code_execution]
    were made before, in whatever order and however they ended, the table of
    environments and every key of the state other than the stored state and
    the pending code are as they were at the start: no environment was
    built, no output, history entry or iteration was recorded.  A further
    submission, also after an approval, is answered with "pending approval"
    again, unless the call raises. *)
Theorem strict_level_never_runs_code (cls : class_object) (sid : string)
    (calls : list tool_call) (code : string) (w : tools.world) :
  stored_level w = inr STRICT →
  same_but_review w (tool_run cls sid calls w)
  ∧ match fst (tools.execute_code cls code sid (tool_run cls sid calls w)) with
    | inr r => r = pending_approval code
    | inl _ => True
    end.
Proof.
  intros Hlevel.
  pose proof (tool_run_strict cls sid calls w w Hlevel (same_but_review_refl w)) as H.
  split; [done|].
  pose proof (strict_execute_code cls code sid w _ Hlevel H) as Hwp.
  unfold wp in Hwp. destruct (tools.execute_code cls code sid _) as [[e|r] w'];
    simpl; [done | by destruct Hwp].
Qed.

End ToolReview.

Lemma strict_level_never_runs_code_witness :
  same_but_review (fresh_world (RT := MiniPy.runtime) STRICT)
    (tool_run (ST := tools.ADKState) REPLStateManager_bound "s1"
       [ToolExecuteCode "x = 1"; ToolApprove; ToolExecuteCode "x = 1"]
       (fresh_world (RT := MiniPy.runtime) STRICT))
  ∧ match fst (tools.execute_code (ST := tools.ADKState) REPLStateManager_bound "x = 1" "s1"
                 (tool_run (ST := tools.ADKState) REPLStateManager_bound "s1"
                    [ToolExecuteCode "x = 1"; ToolApprove; ToolExecuteCode "x = 1"]
                    (fresh_world (RT := MiniPy.runtime) STRICT))) with
    | inr r => r = pending_approval "x = 1"
    | inl _ => True
    end.
Proof.
  apply (strict_level_never_runs_code (RT := MiniPy.runtime) (ST := tools.ADKState)
           REPLStateManager_bound "s1"
           [ToolExecuteCode "x = 1"; ToolApprove; ToolExecuteCode "x = 1"] "x = 1"
           (fresh_world (RT := MiniPy.runtime) STRICT)).
  reflexivity.
Defined.

Section ToolStates.
Context `{RT : PyRuntime} `{ST : tools.StateStore}.

Ltac bind_step := erewrite sm_bind_inr; [|reflexivity]; cbv beta.

Lemma transition_bound (current new_state : REPLState) (w : tools.world) :
  get_state_from_dict (tools.state w) = inr current →
  tools.transition REPLStateManager_bound new_state w
  = if set_mem new_state (table_get VALID_TRANSITIONS current)
    then (inr true,
          {| tools.state :=
               <[REPL_STATE_KEY := PStr (REPLState_value new_state)]> (tools.state w);
             tools._repl_environments := tools._repl_environments w;
             tools.transitions := tools.transitions w ++ [new_state] |})
    else (inl (Exn ValueError
                 ("Invalid state transition from " +:+ REPLState_value current
                  +:+ " to " +:+ REPLState_value new_state)), w).
Proof.
  intros H. unfold tools.transition, tools.on_state, sm_bind.
  rewrite (transition_to_bound _ _ _ H).
  destruct (set_mem _ _); [done|]. by destruct w.
Qed.

Lemma execute_code_stuck (code sid : string) (w : tools.world)
    (current : REPLState) (level : SecurityLevel) :
  get_state_from_dict (tools.state w) = inr current →
  current ≠ IDLE → current ≠ CODE_PENDING_REVIEW →
  stored_level w = inr level → level ≠ STRICT →
  tools.execute_code REPLStateManager_bound code sid w
  = (inl (Exn ValueError
            ("Invalid state transition from " +:+ REPLState_value current
             +:+ " to " +:+ REPLState_value CODE_APPROVED)),
     {| tools.state := <[REPL_PENDING_CODE_KEY := PStr code]> (tools.state w);
        tools._repl_environments := tools._repl_environments w;
        tools.transitions := tools.transitions w |}).
Proof.
  intros Hs Hidle Hreview Hlevel Hstrict. unfold tools.execute_code.
  bind_step. unfold sm_lift at 1. rewrite Hs. bind_step.
  destruct (decide (current = IDLE)) as [|_]; [done|]. bind_step. bind_step.
  fold (stored_level w). rewrite Hlevel. unfold sm_lift at 1. bind_step. bind_step.
  assert (bool_decide (level = NONE) || bool_decide (level = BASIC) = true) as ->
    by by destruct level.
  erewrite sm_bind_inl; [reflexivity|].
  erewrite (transition_bound current).
  - destruct current; try done.
  - rewrite <- Hs. apply get_state_from_dict_ext. simpl.
    by rewrite lookup_insert_ne by key_ne.
Qed.

(** X21: with the transition table bound on the class and the level NONE
    or BASIC, a submission is accepted from the states IDLE and
    CODE_PENDING_REVIEW only.  From CODE_APPROVED, CODE_REJECTED, EXECUTING
    and COMPLETE the call raises [ValueError] at the approval; it has stored
    the code as pending by then, runs nothing, and leaves the stored state
    and the level as they were, so that the next submission meets the same
    refusal. *)
Theorem submission_outside_IDLE_is_refused (code sid : string) (w : tools.world)
    (current : REPLState) (level : SecurityLevel) :
  get_state_from_dict (tools.state w) = inr current →
  current ≠ IDLE → current ≠ CODE_PENDING_REVIEW →
  stored_level w = inr level → level ≠ STRICT →
  ∃ e w',
    tools.execute_code REPLStateManager_bound code sid w = (inl e, w')
    ∧ exn_cls e = ValueError
    ∧ get_pending_code (tools.state w') = Some (PStr code)
    ∧ get_state_from_dict (tools.state w') = inr current
    ∧ stored_level w' = inr level
    ∧ tools._repl_environments w' = tools._repl_environments w
    ∧ tools.transitions w' = tools.transitions w
    ∧ ∀ k, k ≠ REPL_PENDING_CODE_KEY → tools.state w' !! k = tools.state w !! k.
Proof.
  intros Hs Hidle Hreview Hlevel Hstrict. do 2 eexists.
  split; [by eapply execute_code_stuck|]. simpl.
  split; [done|]. split; [apply lookup_insert_eq|].
  split. { rewrite <- Hs. apply get_state_from_dict_ext. by rewrite lookup_insert_ne by key_ne. }
  split. { rewrite <- Hlevel. unfold stored_level, dict_get. simpl.
           by rewrite lookup_insert_ne by key_ne. }
  do 2 (split; [done|]). intros k Hk. by rewrite lookup_insert_ne.
Qed.

Lemma execute_code_empty (sid : string) (w : tools.world) (level : SecurityLevel) :
  get_state_from_dict (tools.state w) = inr IDLE →
  stored_level w = inr level → level ≠ STRICT →
  tools.execute_code REPLStateManager_bound "" sid w
  = (inr (tools.EarlyError "No code pending for execution"),
     {| tools.state :=
          <[REPL_STATE_KEY := PStr (REPLState_value CODE_APPROVED)]>
            (<[REPL_PENDING_CODE_KEY := PStr ""]>
               (<[REPL_STATE_KEY := PStr (REPLState_value CODE_PENDING_REVIEW)]>
                  (tools.state w)));
        tools._repl_environments := tools._repl_environments w;
        tools.transitions :=
          (tools.transitions w ++ [CODE_PENDING_REVIEW]) ++ [CODE_APPROVED] |}).
Proof.
  intros Hs Hlevel Hstrict. unfold tools.execute_code.
  bind_step. unfold sm_lift at 1. rewrite Hs. bind_step.
  destruct (decide (IDLE = IDLE)) as [_|]; [|done].
  erewrite sm_bind_inr; cycle 1.
  { erewrite sm_bind_inr; [reflexivity|]. by rewrite (transition_bound IDLE). }
  cbv beta. bind_step.
  match goal with |- context [SecurityLevel_call ?x] =>
    replace (SecurityLevel_call x) with (stored_level w)
  end.
  2:{ unfold stored_level, dict_get. simpl. by rewrite lookup_insert_ne by key_ne. }
  rewrite Hlevel. unfold sm_lift at 1. bind_step. bind_step.
  assert (bool_decide (level = NONE) || bool_decide (level = BASIC) = true) as ->
    by by destruct level.
  erewrite sm_bind_inr; cycle 1.
  { rewrite (transition_bound CODE_PENDING_REVIEW); [reflexivity|].
    apply get_state_from_dict_stored. simpl.
    rewrite lookup_insert_ne by key_ne. apply lookup_insert_eq. }
  cbv beta. bind_step. unfold get_pending_code. simpl.
  rewrite lookup_insert_ne by key_ne. by rewrite lookup_insert_eq.
Qed.

(** X22: with the table bound on the class, an empty submission at level
    NONE or BASIC is approved and then found empty: the call answers "No code
    pending for execution" and returns with the stored state at
    CODE_APPROVED.  From there the session does not come back by the review
    tools: approval and rejection find no pending code and change nothing,
    and every later submission raises [ValueError]. *)
Theorem empty_submission_leaves_CODE_APPROVED (sid : string) (w : tools.world)
    (level : SecurityLevel) :
  get_state_from_dict (tools.state w) = inr IDLE →
  stored_level w = inr level → level ≠ STRICT →
  ∃ w',
    tools.execute_code REPLStateManager_bound "" sid w
    = (inr (tools.EarlyError "No code pending for execution"), w')
    ∧ get_state_from_dict (tools.state w') = inr CODE_APPROVED
    ∧ tools.transitions w' = tools.transitions w ++ [CODE_PENDING_REVIEW; CODE_APPROVED]
    ∧ tools._repl_environments w' = tools._repl_environments w
    ∧ tools.approve_code_execution REPLStateManager_bound w' = (inr None, w')
    ∧ (∀ reason,
         tools.reject_code_execution REPLStateManager_bound reason w' = (inr None, w'))
    ∧ (∀ code, ∃ e w'',
         tools.execute_code REPLStateManager_bound code sid w' = (inl e, w'')
         ∧ exn_cls e = ValueError
         ∧ get_state_from_dict (tools.state w'') = inr CODE_APPROVED).
Proof.
  intros Hs Hlevel Hstrict. eexists.
  split; [by eapply execute_code_empty|].
  match goal with |- get_state_from_dict (tools.state ?x) = _ ∧ _ => set (w' := x) end.
  assert (get_state_from_dict (tools.state w') = inr CODE_APPROVED) as Hs'.
  { apply get_state_from_dict_stored. apply lookup_insert_eq. }
  assert (get_pending_code (tools.state w') = Some (PStr "")) as Hp.
  { unfold get_pending_code. simpl. rewrite lookup_insert_ne by key_ne.
    apply lookup_insert_eq. }
  split; [done|]. split; [unfold w'; simpl; by rewrite <- (assoc_L (++))|]. split; [done|].
  split. { unfold tools.approve_code_execution. bind_step. by rewrite Hp. }
  split. { intros reason. unfold tools.reject_code_execution. bind_step. by rewrite Hp. }
  intros code. do 2 eexists. split.
  - eapply (execute_code_stuck code sid w' CODE_APPROVED level); try done.
    rewrite <- Hlevel. unfold stored_level, dict_get. simpl.
    by rewrite !lookup_insert_ne by key_ne.
  - split; [done|]. rewrite <- Hs'. apply get_state_from_dict_ext. simpl.
    by rewrite lookup_insert_ne by key_ne.
Qed.

(** X23: [approve_code_execution] acts only on a session that holds
    pending code and whose stored state is CODE_PENDING_REVIEW: with the
    table bound on the class it moves the state to CODE_APPROVED, keeps the
    pending code and answers with it.  Without pending code, or from any
    other state, it answers with an error and changes nothing, whatever the
    class. *)
Theorem approval_needs_code_under_review (cls : class_object) (w : tools.world) :
  (∀ p, get_pending_code (tools.state w) = Some p → truthy p = true →
        get_state_from_dict (tools.state w) = inr CODE_PENDING_REVIEW →
        ∃ w', tools.approve_code_execution REPLStateManager_bound w = (inr (Some p), w')
              ∧ get_state_from_dict (tools.state w') = inr CODE_APPROVED
              ∧ get_pending_code (tools.state w') = Some p
              ∧ tools.transitions w' = tools.transitions w ++ [CODE_APPROVED])
  ∧ ((∀ p, get_pending_code (tools.state w) = Some p → truthy p = false)
     ∨ get_state_from_dict (tools.state w) ≠ inr CODE_PENDING_REVIEW →
     tools.approve_code_execution cls w = (inr None, w)).
Proof.
  split.
  - intros p Hp Htruthy Hs. eexists. split.
    + unfold tools.approve_code_execution. bind_step. rewrite Hp, Htruthy. cbn [negb].
      rewrite Hs. unfold sm_lift at 1. bind_step.
      destruct (decide (CODE_PENDING_REVIEW = CODE_PENDING_REVIEW)) as [_|]; [|done].
      erewrite sm_bind_inr; [reflexivity|]. by rewrite (transition_bound CODE_PENDING_REVIEW).
    + simpl. split; [apply get_state_from_dict_stored, lookup_insert_eq|].
      split; [|done]. unfold get_pending_code in *. by rewrite lookup_insert_ne by key_ne.
  - intros H. unfold tools.approve_code_execution. bind_step.
    destruct (get_pending_code (tools.state w)) as [p|] eqn:Hp; [|done].
    destruct (truthy p) eqn:Htruthy; [|done]. cbn [negb].
    destruct H as [H|H]; [by rewrite (H p) in Htruthy|].
    destruct (get_state_from_dict_total (tools.state w)) as [s Hs]. rewrite Hs in *.
    unfold sm_lift at 1. bind_step. destruct (decide (s = CODE_PENDING_REVIEW)); [|done].
    by subst.
Qed.

(** On the session's state store [del state[REPL_PENDING_CODE_KEY]] raises
    as soon as the key is there, and the store is as it was. *)
Lemma clear_pending_code_raises (w : tools.world) (p : pyval) :
  get_pending_code (tools.state w) = Some p →
  tools.on_state (tools.clear_pending_code_on_store (ST := tools.ADKState)) w
  = (inl (Exn AttributeError "__delitem__"), w).
Proof.
  intros Hp. unfold tools.on_state, tools.clear_pending_code_on_store, tools.store_of,
    sm_bind, sm_get, sm_raise.
  unfold get_pending_code in Hp. rewrite Hp. by destruct w.
Qed.

(** X24: on the session's state store [reject_code_execution] does not
    reject.  When there is pending code, the call raises [AttributeError]
    at [clear_pending_code], before it asks for any transition: the pending
    code, the stored state and the rest of the session are as they were,
    whatever the state and whether or not the transition table is bound on
    the class. *)
Theorem rejection_raises_on_the_state_store (cls : class_object) (reason : string)
    (w : tools.world) (p : pyval) :
  get_pending_code (tools.state w) = Some p → truthy p = true →
  tools.reject_code_execution (ST := tools.ADKState) cls reason w
  = (inl (Exn AttributeError "__delitem__"), w).
Proof.
  intros Hp Htruthy. unfold tools.reject_code_execution. bind_step.
  rewrite Hp, Htruthy. cbn [negb].
  apply sm_bind_inl. by apply (clear_pending_code_raises w p).
Qed.

Lemma substring_head (m : nat) (s : string) :
  (m ≤ String.length s)%nat →
  ∃ dropped, s = String.substring 0 m s +:+ dropped
             ∧ String.length (String.substring 0 m s) = m.
Proof.
  revert s. induction m as [|m IH]; intros s Hm.
  - exists s. by destruct s.
  - destruct s as [|c s]; simpl in Hm; [lia|].
    destruct (IH s) as (dropped & Hd & Hl); [lia|].
    exists dropped. simpl. rewrite str_app_cons, <- Hd. by rewrite Hl.
Qed.

(** X25: [_truncate_output] returns an output of at most [max_chars]
    characters as it is.  Of a longer one it keeps the first [max_chars]
    characters and puts a note with the number of characters left out after
    them, so that what it returns is longer than [max_chars], by 32
    characters at least. *)
Theorem truncate_output_keeps_the_head (output : string) (max_chars : Z) :
  0 ≤ max_chars →
  (PyStr.len output ≤ max_chars → tools._truncate_output output max_chars = output)
  ∧ (max_chars < PyStr.len output →
     ∃ kept dropped,
       output = kept +:+ dropped ∧ PyStr.len kept = max_chars
       ∧ tools._truncate_output output max_chars
         = kept +:+ PyStr.nl +:+ "... [truncated, " +:+ pretty (PyStr.len dropped)
           +:+ " chars omitted]"
       ∧ max_chars + 32 ≤ PyStr.len (tools._truncate_output output max_chars)).
Proof.
  intros Hmax. unfold tools._truncate_output. split.
  - intros H. by destruct (Z.leb_spec (PyStr.len output) max_chars); [|lia].
  - intros H. destruct (Z.leb_spec (PyStr.len output) max_chars); [lia|].
    destruct (substring_head (Z.to_nat max_chars) output) as (dropped & Hd & Hl).
    { unfold PyStr.len in H. lia. }
    set (kept := String.substring 0 (Z.to_nat max_chars) output) in *.
    assert (PyStr.len kept = max_chars) as Hk by (unfold PyStr.len; lia).
    assert (PyStr.len output - max_chars = PyStr.len dropped) as ->.
    { rewrite Hd at 1. rewrite len_app. lia. }
    exists kept, dropped. do 3 (split; [done|]).
    rewrite !len_app, Hk.
    pose proof (len_nonneg (pretty (PyStr.len dropped))).
    change (PyStr.len PyStr.nl) with 1.
    change (PyStr.len "... [truncated, ") with 16.
    change (PyStr.len " chars omitted]") with 15. lia.
Qed.

End ToolStates.

Lemma submission_outside_IDLE_is_refused_witness :
  ∃ e w',
    tools.execute_code (ST := tools.ADKState) REPLStateManager_bound "x = 1" "s1" (sample_world_in EXECUTING None)
    = (inl e, w')
    ∧ exn_cls e = ValueError
    ∧ get_pending_code (tools.state w') = Some (PStr "x = 1")
    ∧ get_state_from_dict (tools.state w') = inr EXECUTING
    ∧ stored_level w' = inr BASIC
    ∧ tools._repl_environments w' = tools._repl_environments (sample_world_in EXECUTING None)
    ∧ tools.transitions w' = tools.transitions (sample_world_in EXECUTING None)
    ∧ ∀ k, k ≠ REPL_PENDING_CODE_KEY →
           tools.state w' !! k = tools.state (sample_world_in EXECUTING None) !! k.
Proof.
  apply (submission_outside_IDLE_is_refused (RT := MiniPy.runtime) (ST := tools.ADKState)
           "x = 1" "s1"
           (sample_world_in EXECUTING None) EXECUTING BASIC).
  - reflexivity.
  - discriminate.
  - discriminate.
  - reflexivity.
  - discriminate.
Defined.

Lemma empty_submission_leaves_CODE_APPROVED_witness :
  ∃ w',
    tools.execute_code (ST := tools.ADKState) REPLStateManager_bound "" "s1" sample_world
    = (inr (tools.EarlyError "No code pending for execution"), w')
    ∧ get_state_from_dict (tools.state w') = inr CODE_APPROVED
    ∧ tools.transitions w'
      = tools.transitions sample_world ++ [CODE_PENDING_REVIEW; CODE_APPROVED]
    ∧ tools._repl_environments w' = tools._repl_environments sample_world
    ∧ tools.approve_code_execution REPLStateManager_bound w' = (inr None, w')
    ∧ (∀ reason,
         tools.reject_code_execution (ST := tools.ADKState) REPLStateManager_bound reason
           w' = (inr None, w'))
    ∧ (∀ code, ∃ e w'',
         tools.execute_code (ST := tools.ADKState) REPLStateManager_bound code "s1" w' = (inl e, w'')
         ∧ exn_cls e = ValueError
         ∧ get_state_from_dict (tools.state w'') = inr CODE_APPROVED).
Proof.
  apply (empty_submission_leaves_CODE_APPROVED (RT := MiniPy.runtime)
           (ST := tools.ADKState) "s1"
           sample_world BASIC).
  - reflexivity.
  - reflexivity.
  - discriminate.
Defined.

Lemma approval_needs_code_under_review_witness :
  ∃ w',
    tools.approve_code_execution REPLStateManager_bound
      (sample_world_in CODE_PENDING_REVIEW (Some "x = 1"))
    = (inr (Some (PStr "x = 1")), w')
    ∧ get_state_from_dict (tools.state w') = inr CODE_APPROVED
    ∧ get_pending_code (tools.state w') = Some (PStr "x = 1")
    ∧ tools.transitions w'
      = tools.transitions (sample_world_in CODE_PENDING_REVIEW (Some "x = 1"))
        ++ [CODE_APPROVED].
Proof.
  apply (proj1 (approval_needs_code_under_review (RT := MiniPy.runtime)
                  REPLStateManager_bound
                  (sample_world_in CODE_PENDING_REVIEW (Some "x = 1")))
           (PStr "x = 1")).
  - reflexivity.
  - reflexivity.
  - reflexivity.
Defined.

Lemma rejection_raises_on_the_state_store_witness :
  tools.reject_code_execution (ST := tools.ADKState) REPLStateManager_bound "too risky"
    (sample_world_in CODE_PENDING_REVIEW (Some "x = 1"))
  = (inl (Exn AttributeError "__delitem__"),
     sample_world_in CODE_PENDING_REVIEW (Some "x = 1")).
Proof.
  apply (rejection_raises_on_the_state_store (RT := MiniPy.runtime)
           REPLStateManager_bound "too risky"
           (sample_world_in CODE_PENDING_REVIEW (Some "x = 1")) (PStr "x = 1"));
    reflexivity.
Defined.

Lemma truncate_output_keeps_the_head_witness :
  ∃ kept dropped,
    "abcdefgh" = kept +:+ dropped ∧ PyStr.len kept = 3
    ∧ tools._truncate_output "abcdefgh" 3
      = kept +:+ PyStr.nl +:+ "... [truncated, " +:+ pretty (PyStr.len dropped)
        +:+ " chars omitted]"
    ∧ 3 + 32 ≤ PyStr.len (tools._truncate_output "abcdefgh" 3).
Proof.
  assert (0 ≤ 3) as H by done.
  apply (proj2 (truncate_output_keeps_the_head "abcdefgh" 3 H)).
  reflexivity.
Defined.

(** ** The end of a session *)

Section CompletionProperties.
Context `{RT : PyRuntime}.
Variable host_rmtree : string → exn + unit.

(** X26: [submit_final_answer] stores the answer and completes the
    session from every state and through every class object, before it
    cleans up: the session reads complete and the answer reads back also when
    the cleanup raises.  The cleanup lets no [Exception] out.  When the call
    returns, the environment of the session is out of the table and the
    environments of the other sessions are where they were. *)
Theorem final_answer_completes_the_session (cls : class_object) (answer sid : string)
    (w : tools.world) :
  let out := tools.submit_final_answer host_rmtree cls answer sid w in
  is_complete (tools.state (snd out)) = inr true
  ∧ get_final_answer (tools.state (snd out)) = Some (PStr answer)
  ∧ tools.transitions (snd out) = tools.transitions w ++ [COMPLETE]
  ∧ (∀ sid', sid' ≠ sid →
       tools._repl_environments (snd out) !! sid' = tools._repl_environments w !! sid')
  ∧ match fst out with
    | inr a => a = answer ∧ tools._repl_environments (snd out) !! sid = None
    | inl e => is_Exception e = false
               ∧ tools._repl_environments (snd out) = tools._repl_environments w
    end.
Proof.
  intros out. subst out. unfold tools.submit_final_answer.
  erewrite sm_bind_inr; cycle 1.
  { unfold tools.on_state. by rewrite set_final_answer_result. }
  erewrite sm_bind_inr; [|reflexivity]. cbv beta.
  cbn [tools.state tools._repl_environments tools.transitions].
  set (d := <[REPL_STATE_KEY := PStr (REPLState_value COMPLETE)]>
              (<[REPL_FINAL_ANSWER_KEY := PStr answer]> (tools.state w))).
  assert (is_complete d = inr true) as Hc.
  { unfold is_complete.
    by rewrite (get_state_from_dict_stored _ COMPLETE) by apply lookup_insert_eq. }
  assert (get_final_answer d = Some (PStr answer)) as Ha.
  { unfold get_final_answer, d. rewrite lookup_insert_ne by key_ne. apply lookup_insert_eq. }
  unfold tools._cleanup_repl, sm_bind, sm_get, sm_lift, sm_modify, sm_ret.
  cbn [tools.state tools._repl_environments tools.transitions].
  destruct (tools._repl_environments w !! sid) as [repl|] eqn:Hsid.
  - unfold tools.cleanup. destruct (host_rmtree (_temp_dir repl)) as [e|[]].
    + destruct (is_Exception e) eqn:He; simpl.
      * do 3 (split; [done|]). split; [|by rewrite lookup_delete_eq].
        intros sid' Hne. by rewrite lookup_delete_ne.
      * by do 4 (split; [done|]).
    + simpl. do 3 (split; [done|]). split; [|by rewrite lookup_delete_eq].
      intros sid' Hne. by rewrite lookup_delete_ne.
  - simpl. by do 4 (split; [done|]).
Qed.

End CompletionProperties.

(** ** The search for a final answer *)

Lemma substring_all (s : string) (m : nat) :
  (String.length s ≤ m)%nat → String.substring 0 m s = s.
Proof.
  revert m. induction s as [|c s IH]; intros [|m] Hm; simpl in *; try done; [lia|].
  rewrite IH; [done | lia].
Qed.

Lemma substring_drop (p s : string) (m : nat) :
  (String.length s ≤ m)%nat → String.substring (String.length p) m (p +:+ s) = s.
Proof.
  intros Hm. induction p as [|c p IH]; [by apply substring_all|].
  rewrite str_app_cons. exact IH.
Qed.

Lemma length_app_le (p s : string) : (String.length s ≤ String.length (p +:+ s))%nat.
Proof. induction p as [|c p IH]; [done|]. rewrite str_app_cons. simpl. lia. Qed.

Lemma partition_unfold (sep s : string) :
  tools.partition sep s
  = if String.prefix sep s
    then Some ("", String.substring (String.length sep) (String.length s) s)
    else match s with
         | EmptyString => None
         | String c s' =>
             match tools.partition sep s' with
             | Some (before, after) => Some (String c before, after)
             | None => None
             end
         end.
Proof. by destruct s. Qed.

Lemma partition_first (sep before s after : string) :
  s = before +:+ sep +:+ after → first_at sep before s →
  tools.partition sep s = Some (before, after).
Proof.
  revert s. induction before as [|c before IH]; intros s Hs [_ Hfirst].
  - rewrite str_app_nil_l in Hs. subst s.
    assert (String.prefix sep (sep +:+ after) = true) as Hp by (apply prefix_spec; eauto).
    rewrite partition_unfold, Hp.
    by rewrite (substring_drop sep after _ (length_app_le sep after)).
  - rewrite str_app_cons in Hs. subst s.
    assert (String.prefix sep (String c (before +:+ sep +:+ after)) = false) as Hp.
    { destruct (String.prefix sep _) eqn:Hp; [|done].
      apply prefix_spec in Hp as [post Hp].
      specialize (Hfirst "" post Hp). unfold PyStr.len in Hfirst. simpl in Hfirst. lia. }
    rewrite partition_unfold, Hp. rewrite (IH (before +:+ sep +:+ after)); [done..|].
    split; [eauto|]. intros before' after' E.
    specialize (Hfirst (String c before') after').
    rewrite str_app_cons, E in Hfirst. specialize (Hfirst eq_refl).
    unfold PyStr.len in *. simpl in Hfirst. lia.
Qed.

Lemma partition_none (sep s : string) :
  ¬ occurs_in sep s → tools.partition sep s = None.
Proof.
  induction s as [|c s IH]; intros Hnot.
  - rewrite partition_unfold. destruct (String.prefix sep "") eqn:Hp; [|done].
    destruct Hnot. apply contains_spec. exact Hp.
  - assert (String.prefix sep (String c s) = false) as Hp.
    { destruct (String.prefix sep _) eqn:Hp; [|done].
      destruct Hnot. apply prefix_spec in Hp as [post Hp]. by exists "", post. }
    rewrite partition_unfold, Hp. rewrite IH; [done|].
    intros (a & b & E). destruct Hnot. exists (String c a), b. by rewrite str_app_cons, E.
Qed.

Lemma first_char_at (c : ascii) (before after : string) :
  ¬ has_char c before → first_at (String c "") before (before +:+ String c "" +:+ after).
Proof.
  intros Hnot. split; [eauto|]. intros before' after' E.
  destruct (Z.le_gt_cases (PyStr.len before) (PyStr.len before')) as [|Hlt]; [done|].
  destruct Hnot. revert before' E Hlt.
  induction before as [|a before IH]; intros before' E Hlt.
  - unfold PyStr.len in Hlt. simpl in Hlt. lia.
  - destruct before' as [|a' before'].
    + rewrite str_app_nil_l, !str_app_cons in E. injection E as -> _.
      apply has_char_cons. by left.
    + rewrite !str_app_cons in E. injection E as -> E.
      apply has_char_cons. right. apply (IH before' E).
      unfold PyStr.len in *. simpl in Hlt. lia.
Qed.

Lemma has_char_app (c : ascii) (s t : string) :
  has_char c (s +:+ t) ↔ has_char c s ∨ has_char c t.
Proof.
  induction s as [|a s IH].
  - rewrite str_app_nil_l. unfold has_char at 2. simpl. rewrite elem_of_nil. tauto.
  - rewrite str_app_cons, !has_char_cons, IH. tauto.
Qed.

Lemma occurs_has_char (c : ascii) (s : string) :
  occurs_in (String c "") s → has_char c s.
Proof.
  intros (a & b & ->). apply has_char_app. right.
  rewrite str_app_cons. apply has_char_cons. by left.
Qed.

(** X27: the answer found in a text is what stands between the first
    [FINAL(] and the first [)] after it, without the blanks at its two
    ends, so an answer that holds a [)] is cut there.  A text without
    [FINAL(] holds no answer, and neither does one whose [FINAL(] is never
    closed. *)
Theorem final_answer_ends_at_first_parenthesis (before group after : string) :
  first_at "FINAL(" before (before +:+ "FINAL(" +:+ group +:+ ")" +:+ after) →
  ¬ has_char ")" group →
  tools.check_for_final_answer (before +:+ "FINAL(" +:+ group +:+ ")" +:+ after)
  = Some (PyStr.strip group)
  ∧ (∀ text, ¬ occurs_in "FINAL(" text → tools.check_for_final_answer text = None)
  ∧ (¬ has_char ")" after →
     first_at "FINAL(" before (before +:+ "FINAL(" +:+ group +:+ after) →
     tools.check_for_final_answer (before +:+ "FINAL(" +:+ group +:+ after) = None).
Proof.
  intros Hfirst Hgroup. unfold tools.check_for_final_answer. split; [|split].
  - rewrite (partition_first "FINAL(" before _ (group +:+ ")" +:+ after) eq_refl Hfirst).
    by rewrite (partition_first ")" group _ after eq_refl (first_char_at _ _ _ Hgroup)).
  - intros text Hnot. by rewrite (partition_none _ _ Hnot).
  - intros Hafter Hfirst'.
    rewrite (partition_first "FINAL(" before _ (group +:+ after) eq_refl Hfirst').
    rewrite partition_none; [done|].
    intros Hocc. apply occurs_has_char, has_char_app in Hocc. tauto.
Qed.

Lemma final_first_at (after : string) :
  first_at "FINAL(" "The answer is " ("The answer is " +:+ "FINAL(" +:+ after).
Proof.
  split; [eauto|]. intros before' after' E.
  destruct (Z.le_gt_cases (PyStr.len "The answer is ") (PyStr.len before')) as [|Hlt]; [done|].
  exfalso. change (PyStr.len "The answer is ") with 14 in Hlt.
  unfold PyStr.len in Hlt.
  do 14 (destruct before' as [|? before'];
         [rewrite str_app_nil_l in E; discriminate E|];
         rewrite str_app_cons in E; injection E as _ E).
  simpl in Hlt. lia.
Qed.

Lemma no_parenthesis : ¬ has_char ")" " f(x".
Proof.
  unfold has_char. simpl. rewrite !elem_of_cons, elem_of_nil.
  intros [H|[H|[H|[H|[]]]]]; discriminate H.
Qed.

Lemma final_answer_ends_at_first_parenthesis_witness :
  tools.check_for_final_answer
    ("The answer is " +:+ "FINAL(" +:+ " f(x" +:+ ")" +:+ " = 2)")
  = Some (PyStr.strip " f(x").
Proof.
  apply (proj1 (final_answer_ends_at_first_parenthesis "The answer is " " f(x" " = 2)"
                  (final_first_at _) no_parenthesis)).
Defined.

(** ** The environment before and after [initialize] *)

Section EnvironmentProperties.
Context `{RT : PyRuntime}.

Lemma load_string_context_keeps (context : pyval) (env env' : ADKREPLEnvironment)
    (level : SecurityLevel) :
  (∃ c, _console env = Some c ∧ _security_level c = level) →
  snd (_load_string_context context env) = env' →
  (∃ c, _console env' = Some c ∧ _security_level c = level)
  ∧ env_security_level env' = env_security_level env
  ∧ _temp_dir env' = _temp_dir env
  ∧ _output_router env' = _output_router env.
Proof.
  intros (c & Hc & Hl).
  unfold _load_string_context, sm_bind, sm_get, sm_lift, sm_modify, sm_ret, sm_raise.
  rewrite Hc. destruct (host_write_text _ _) as [e|[]]; simpl.
  { intros <-. split; [by exists c | done]. }
  match goal with |- context [execute_code c ?code] =>
    pose proof (execute_code_level c code) as Hlev;
    destruct (execute_code c code) as [[e|r] c']
  end; simpl in *; intros <-; simpl;
    (split; [exists c'; split; [done | congruence] | done]).
Qed.

(** X28: an environment answers "Error: REPL not initialized" to every
    submission until [initialize] has run, and is left as it was.  Once
    [initialize] has returned, with a context or without, the environment
    holds a console that checks at the level the environment was built with,
    the router and the directory are the ones it had, and a submission goes
    to that console. *)
Theorem environment_needs_initialize (level : SecurityLevel) (env : ADKREPLEnvironment)
    (context : option pyval) (locals_dict : pyval) (code : string) :
  ADKREPLEnvironment_init level = inr env →
  execute code env
  = (inr {| stdout := ""; stderr := "Error: REPL not initialized";
            locals_snapshot := []; success := false |}, env)
  ∧ ∀ env', initialize context locals_dict env = (inr tt, env') →
      ∃ c, _console env' = Some c ∧ _security_level c = level
           ∧ _output_router env' = OutputRouter_init
           ∧ _temp_dir env' = _temp_dir env
           ∧ execute code env'
             = (fst (execute_code c code),
                with_console env' (Some (snd (execute_code c code)))).
Proof.
  unfold ADKREPLEnvironment_init. destruct host_mkdtemp as [e|dir]; [done|].
  intros [= <-]. split; [done|]. intros env'.
  unfold initialize, sm_bind at 1 2 3, sm_get, sm_lift at 1, sm_modify at 1.
  destruct (host_console_locals _) as [e|l]; [done|]. cbv beta iota.
  cbn [env_security_level].
  set (env1 := with_console _ _).
  assert (∀ env2 : ADKREPLEnvironment,
            (∃ c, _console env2 = Some c ∧ _security_level c = level)
            ∧ env_security_level env2 = env_security_level env1
            ∧ _temp_dir env2 = _temp_dir env1
            ∧ _output_router env2 = _output_router env1 →
            ∃ c, _console env2 = Some c ∧ _security_level c = level
                 ∧ _output_router env2 = OutputRouter_init
                 ∧ _temp_dir env2 = dir
                 ∧ execute code env2
                   = (fst (execute_code c code),
                      with_console env2 (Some (snd (execute_code c code))))) as Hend.
  { intros env2 ((c & Hc & Hl) & _ & Hdir & Hr). exists c.
    repeat (split; [done|]).
    unfold execute, sm_bind, sm_get, sm_modify, sm_lift. rewrite Hc.
    by destruct (execute_code c code). }
  assert (∃ c, _console env1 = Some c ∧ _security_level c = level) as Hcon.
  { eexists. split; [reflexivity | done]. }
  destruct context as [[]|];
    try (intros [= <-]; apply Hend; by repeat split);
    (intros H; apply Hend;
     eapply (load_string_context_keeps _ env1); [exact Hcon | by rewrite H]).
Qed.

End EnvironmentProperties.

Lemma environment_needs_initialize_witness :
  execute (RT := MiniPy.runtime) "x = 1"
    {| env_security_level := STRICT; _output_router := OutputRouter_init;
       _console := None; _temp_dir := "/tmp/adk_repl_0" |}
  = (inr {| stdout := ""; stderr := "Error: REPL not initialized";
            locals_snapshot := []; success := false |},
     {| env_security_level := STRICT; _output_router := OutputRouter_init;
        _console := None; _temp_dir := "/tmp/adk_repl_0" |})
  ∧ ∀ env',
      initialize (RT := MiniPy.runtime) (Some (PStr "some text")) (PDict [])
        {| env_security_level := STRICT; _output_router := OutputRouter_init;
           _console := None; _temp_dir := "/tmp/adk_repl_0" |}
      = (inr tt, env') →
      ∃ c, _console env' = Some c ∧ _security_level c = STRICT
           ∧ _output_router env' = OutputRouter_init
           ∧ _temp_dir env' = "/tmp/adk_repl_0"
           ∧ execute "x = 1" env'
             = (fst (execute_code c "x = 1"),
                with_console env' (Some (snd (execute_code c "x = 1")))).
Proof.
  apply (environment_needs_initialize (RT := MiniPy.runtime) STRICT
           {| env_security_level := STRICT; _output_router := OutputRouter_init;
              _console := None; _temp_dir := "/tmp/adk_repl_0" |}
           (Some (PStr "some text")) (PDict []) "x = 1").
  reflexivity.
Defined.

(** ** A run on the state store *)

Section StateStoreRun.
Context `{RT : PyRuntime} `{ST : tools.StateStore}.

Lemma add_code_to_history_entry (w : tools.world) (h : list pyval) (code out err : string) :
  tools.state w !! REPL_CODE_HISTORY_KEY = None ∧ h = []
  ∨ tools.state w !! REPL_CODE_HISTORY_KEY = Some (PList h) →
  tools.on_state (add_code_to_history code out err) w
  = (inr tt,
     {| tools.state :=
          <[REPL_CODE_HISTORY_KEY :=
              PList (h ++ [history_entry code out err
                             (dict_get (tools.state w) REPL_ITERATION_KEY (PInt 0))])]>
            (tools.state w);
        tools._repl_environments := tools._repl_environments w;
        tools.transitions := tools.transitions w |}).
Proof.
  intros H.
  unfold tools.on_state, add_code_to_history, sm_bind, sm_get, sm_modify, dict_get.
  by destruct H as [[-> ->]| ->].
Qed.

(** Facts about the lookups of one world, moved to the next one. *)
Ltac carry_facts w w' Hs :=
  repeat match goal with
  | H : tools.state w !! ?k = ?x |- _ =>
      first
        [ assert (tools.state w' !! k = x)
            by (rewrite Hs;
                first [ rewrite lookup_insert_ne by key_ne
                      | rewrite lookup_delete_ne by key_ne
                      | idtac ];
                exact H)
        | idtac ];
      clear H
  end.

Ltac next_world w w' He Ht Hs :=
  let Hw := fresh "Hw" in
  let He' := fresh "He" in
  let Ht' := fresh "Ht" in
  intros w' Hw;
  pose proof (f_equal tools.state Hw) as Hs;
  pose proof (f_equal tools._repl_environments Hw) as He';
  pose proof (f_equal tools.transitions Hw) as Ht';
  cbn [tools.state tools._repl_environments tools.transitions] in Hs, He', Ht';
  try rewrite He in He'; try rewrite Ht in Ht'; clear He Ht Hw;
  rename He' into He; rename Ht' into Ht;
  carry_facts w w' Hs.

Lemma run_until_clear_pending_code (cls : class_object) (w0 : tools.world)
    (sid code : string) (env env' : ADKREPLEnvironment) (result : REPLResult)
    (level : SecurityLevel) (h : list pyval) :
  cls_VALID_TRANSITIONS cls = Some VALID_TRANSITIONS →
  get_state_from_dict (tools.state w0) = inr IDLE →
  stored_level w0 = inr level → level ≠ STRICT → code ≠ "" →
  session_env w0 sid = Some env →
  execute code env = (inr result, env') →
  dict_get (tools.state w0) REPL_CODE_HISTORY_KEY (PList []) = PList h →
  wpe (tools.execute_code (ST := tools.ADKState) cls code sid)
    (λ e w',
       e = Exn AttributeError "__delitem__"
       ∧ tools.transitions w'
         = tools.transitions w0 ++ [CODE_PENDING_REVIEW; CODE_APPROVED; EXECUTING]
       ∧ tools._repl_environments w' = <[sid := env']> (tools._repl_environments w0)
       ∧ tools.state w' !! REPL_STATE_KEY = Some (PStr (REPLState_value EXECUTING))
       ∧ tools.state w' !! REPL_PENDING_CODE_KEY = Some (PStr code)
       ∧ tools.state w' !! REPL_LAST_OUTPUT_KEY = Some (PStr (stdout result))
       ∧ tools.state w' !! REPL_LAST_ERROR_KEY = Some (PStr (stderr result))
       ∧ tools.state w' !! REPL_LOCALS_KEY = Some (PDict (locals_snapshot result))
       ∧ tools.state w' !! REPL_CODE_HISTORY_KEY
         = Some (PList (h ++ [history_entry code (stdout result) (stderr result)
                                (dict_get (tools.state w0) REPL_ITERATION_KEY (PInt 0))]))
       ∧ tools.state w' !! REPL_ITERATION_KEY = tools.state w0 !! REPL_ITERATION_KEY
       ∧ tools.state w' !! REPL_SECURITY_LEVEL_KEY
         = tools.state w0 !! REPL_SECURITY_LEVEL_KEY)
    (λ _ _, False) w0.
Proof.
  intros Hcls Hidle Hlevel Hstrict Hcode Henv Hexec Hhist.
  unfold stored_level in Hlevel. unfold dict_get in Hlevel, Hhist.
  unfold dict_get at 1.
  remember (tools.state w0 !! REPL_SECURITY_LEVEL_KEY) as vsec eqn:Hvsec.
  remember (tools.state w0 !! REPL_CODE_HISTORY_KEY) as vhist eqn:Hvhist.
  remember (tools.state w0 !! REPL_ITERATION_KEY) as viter eqn:Hviter.
  remember (tools.state w0 !! REPL_CONTEXT_KEY) as vctx eqn:Hvctx.
  remember (tools.state w0 !! REPL_LOCALS_KEY) as vloc eqn:Hvloc.
  remember (tools._repl_environments w0) as envs0 eqn:Henvs0.
  remember (tools.transitions w0) as tr0 eqn:Htr0.
  pose proof (eq_sym Henvs0) as He. pose proof (eq_sym Htr0) as Ht.
  unfold tools.execute_code.
  apply wpe_bind, wpe_get. cbv beta.
  apply wpe_bind, wpe_lift. rewrite Hidle.
  destruct (decide (IDLE = IDLE)) as [_|]; [|done].
  apply wpe_bind, wpe_bind.
  eapply wpe_step; [by apply (transition_ok cls IDLE)|].
  pose proof (eq_sym Hvsec) as Fsec. pose proof (eq_sym Hvhist) as Fhist.
  pose proof (eq_sym Hviter) as Fiter. pose proof (eq_sym Hvctx) as Fctx.
  pose proof (eq_sym Hvloc) as Floc.
  next_world w0 w1 He Ht Hs.
  assert (tools.state w1 !! REPL_STATE_KEY = Some (PStr (REPLState_value CODE_PENDING_REVIEW)))
    as Fstate by (rewrite Hs; apply lookup_insert_eq).
  clear Hs. apply wpe_ret.
  apply wpe_bind, wpe_get. cbv beta.
  apply wpe_bind, wpe_lift. unfold dict_get.
  match goal with H : tools.state w1 !! REPL_SECURITY_LEVEL_KEY = _ |- _ => rewrite H end.
  rewrite Hlevel.
  apply wpe_bind. eapply wpe_step; [reflexivity|].
  next_world w1 w2 He Ht Hs.
  assert (tools.state w2 !! REPL_PENDING_CODE_KEY = Some (PStr code))
    as Fpending by (rewrite Hs; apply lookup_insert_eq).
  clear Hs.
  assert (bool_decide (level = NONE) || bool_decide (level = BASIC) = true) as ->
    by by destruct level.
  apply wpe_bind. eapply wpe_step.
  { apply (transition_ok cls CODE_PENDING_REVIEW); [done| |done].
    by apply get_state_from_dict_stored. }
  next_world w2 w3 He Ht Hs.
  assert (tools.state w3 !! REPL_STATE_KEY = Some (PStr (REPLState_value CODE_APPROVED)))
    as Fstate by (rewrite Hs; apply lookup_insert_eq).
  clear Hs.
  apply wpe_bind, wpe_get. cbv beta.
  unfold get_pending_code.
  match goal with H : tools.state w3 !! REPL_PENDING_CODE_KEY = _ |- _ => rewrite H end.
  assert (String.eqb code "" = false) as -> by by apply String.eqb_neq.
  unfold tools.run_approved.
  apply wpe_bind. eapply wpe_step.
  { apply (transition_ok cls CODE_APPROVED); [done| |done].
    by apply get_state_from_dict_stored. }
  next_world w3 w4 He Ht Hs.
  assert (tools.state w4 !! REPL_STATE_KEY = Some (PStr (REPLState_value EXECUTING)))
    as Fstate by (rewrite Hs; apply lookup_insert_eq).
  clear Hs.
  apply wpe_bind. eapply wpe_step.
  { apply (get_or_create_ok w0); [congruence| |done].
    apply new_repl_ext; congruence. }
  next_world w4 w5 He Ht Hs. clear Hs.
  apply wpe_bind. eapply wpe_step.
  { rewrite Hexec. reflexivity. }
  next_world w5 w6 He Ht Hs. clear Hs.
  rewrite insert_insert_eq in He.
  apply wpe_bind. eapply wpe_step; [reflexivity|].
  next_world w6 w7 He Ht Hs.
  assert (tools.state w7 !! REPL_LAST_OUTPUT_KEY = Some (PStr (stdout result)))
    as Fout by (rewrite Hs; apply lookup_insert_eq).
  clear Hs.
  apply wpe_bind. eapply wpe_step; [reflexivity|].
  next_world w7 w8 He Ht Hs.
  assert (tools.state w8 !! REPL_LAST_ERROR_KEY = Some (PStr (stderr result)))
    as Ferr by (rewrite Hs; apply lookup_insert_eq).
  clear Hs.
  apply wpe_bind. eapply wpe_step; [reflexivity|].
  next_world w8 w9 He Ht Hs.
  assert (tools.state w9 !! REPL_LOCALS_KEY = Some (PDict (locals_snapshot result)))
    as Fnewloc by (rewrite Hs; apply lookup_insert_eq).
  clear Hs.
  assert (tools.state w9 !! REPL_CODE_HISTORY_KEY = None ∧ h = []
          ∨ tools.state w9 !! REPL_CODE_HISTORY_KEY = Some (PList h)) as Hh.
  { match goal with H : tools.state w9 !! REPL_CODE_HISTORY_KEY = _ |- _ => rewrite H end.
    destruct vhist as [v|]; simpl in Hhist; [right | left]; by simplify_eq. }
  apply wpe_bind. eapply wpe_step;
    [exact (add_code_to_history_entry w9 h code (stdout result) (stderr result) Hh)|].
  assert (dict_get (tools.state w9) REPL_ITERATION_KEY (PInt 0) = default (PInt 0) viter)
    as Hentry.
  { unfold dict_get.
    match goal with H : tools.state w9 !! REPL_ITERATION_KEY = _ |- _ => by rewrite H end. }
  rewrite Hentry. clear Hh Hentry.
  next_world w9 w10 He Ht Hs.
  assert (tools.state w10 !! REPL_CODE_HISTORY_KEY
          = Some (PList (h ++ [history_entry code (stdout result) (stderr result)
                                 (default (PInt 0) viter)])))
    as Fnewhist by (rewrite Hs; apply lookup_insert_eq).
  clear Hs.
  apply wpe_bind, wpe_get. cbv beta.
  apply wpe_bind. eapply wpe_step; [by destruct (truthy _)|].
  next_world w10 w11 He Ht Hs. clear Hs.
  apply wpe_bind. eapply wpe_raises.
  { apply (clear_pending_code_raises w11 (PStr code)).
    unfold get_pending_code.
    match goal with H : tools.state w11 !! REPL_PENDING_CODE_KEY = _ |- _ => exact H end. }
  intros w12 ->.
  split; [reflexivity|]. split; [by rewrite Ht, <- !(assoc_L (++))|].
  split; [done|]. by repeat (split; [done|]).
Qed.

(** X29: on the session's state store a run is not completed.  With the
    table bound on the class and the level NONE or BASIC, a submission made
    in state IDLE whose run returns raises [AttributeError] at
    [clear_pending_code], after the sandbox has run the code: the state has
    gone through CODE_PENDING_REVIEW and CODE_APPROVED to EXECUTING and
    stays there, the pending code is still stored, the table holds the
    environment as the run left it, the state holds the two outputs, the
    snapshot and the new history entry, and the iteration count is as it
    was.  Every later submission of the session raises [ValueError] at the
    approval, with the state still EXECUTING and the count unchanged. *)
Theorem run_stops_at_clear_pending_code (cls : class_object) (w : tools.world)
    (sid code : string) (env env' : ADKREPLEnvironment) (result : REPLResult)
    (level : SecurityLevel) (h : list pyval) :
  cls_VALID_TRANSITIONS cls = Some VALID_TRANSITIONS →
  get_state_from_dict (tools.state w) = inr IDLE →
  stored_level w = inr level → level ≠ STRICT → code ≠ "" →
  session_env w sid = Some env →
  execute code env = (inr result, env') →
  dict_get (tools.state w) REPL_CODE_HISTORY_KEY (PList []) = PList h →
  ∃ w',
    tools.execute_code (ST := tools.ADKState) cls code sid w
    = (inl (Exn AttributeError "__delitem__"), w')
    ∧ tools.transitions w'
      = tools.transitions w ++ [CODE_PENDING_REVIEW; CODE_APPROVED; EXECUTING]
    ∧ tools._repl_environments w' = <[sid := env']> (tools._repl_environments w)
    ∧ get_state_from_dict (tools.state w') = inr EXECUTING
    ∧ get_pending_code (tools.state w') = Some (PStr code)
    ∧ tools.state w' !! REPL_LAST_OUTPUT_KEY = Some (PStr (stdout result))
    ∧ tools.state w' !! REPL_LAST_ERROR_KEY = Some (PStr (stderr result))
    ∧ tools.state w' !! REPL_LOCALS_KEY = Some (PDict (locals_snapshot result))
    ∧ tools.state w' !! REPL_CODE_HISTORY_KEY
      = Some (PList (h ++ [history_entry code (stdout result) (stderr result)
                             (dict_get (tools.state w) REPL_ITERATION_KEY (PInt 0))]))
    ∧ tools.state w' !! REPL_ITERATION_KEY = tools.state w !! REPL_ITERATION_KEY
    ∧ ∀ code', ∃ e w'',
        tools.execute_code (ST := tools.ADKState) cls code' sid w' = (inl e, w'')
        ∧ exn_cls e = ValueError
        ∧ get_state_from_dict (tools.state w'') = inr EXECUTING
        ∧ tools.state w'' !! REPL_ITERATION_KEY = tools.state w !! REPL_ITERATION_KEY.
Proof.
  intros Hcls Hidle Hlevel Hstrict Hcode Henv Hexec Hhist.
  pose proof (run_until_clear_pending_code cls w sid code env env' result level h
                Hcls Hidle Hlevel Hstrict Hcode Henv Hexec Hhist) as H.
  unfold wpe in H.
  destruct (tools.execute_code cls code sid w) as [[e|r] w']; [|done].
  destruct H as (-> & Ht & He & Hstate & Hpending & Hout & Herr & Hloc & Hhis & Hit & Hsec).
  assert (get_state_from_dict (tools.state w') = inr EXECUTING) as Hexecuting
    by by apply get_state_from_dict_stored.
  exists w'. do 3 (split; [done|]). split; [done|]. do 6 (split; [done|]).
  intros code'. destruct cls as [table]. simpl in Hcls. subst table.
  do 2 eexists. split.
  - apply (execute_code_stuck (ST := tools.ADKState) code' sid w' EXECUTING level);
      [done..| |done].
    rewrite <- Hlevel. unfold stored_level, dict_get. by rewrite Hsec.
  - simpl. split; [done|]. split.
    + rewrite <- Hexecuting. apply get_state_from_dict_ext.
      by rewrite lookup_insert_ne by key_ne.
    + by rewrite lookup_insert_ne by key_ne.
Qed.

(** *** No run is completed on the state store *)

Lemma keeps_pending_same_state {A} (f : tools.world → (exn + A) * tools.world) :
  (∀ w, tools.state (snd (f w)) = tools.state w) → keeps_pending f.
Proof. intros Hf w. by rewrite Hf. Qed.

Lemma keeps_pending_set_item (k : string) (v : pyval) :
  k ≠ REPL_PENDING_CODE_KEY → keeps_pending (tools.set_item k v).
Proof. intros Hk w. unfold get_pending_code. simpl. by rewrite lookup_insert_ne. Qed.

Lemma keeps_pending_transition (cls : class_object) (new_state : REPLState) :
  keeps_pending (tools.transition cls new_state).
Proof.
  intros w. unfold get_pending_code.
  unfold tools.transition, tools.on_state, sm_bind, sm_modify, sm_ret,
    transition_to, sm_bind, sm_get, sm_lift, sm_raise.
  destruct (get_state_from_dict_total (tools.state w)) as [s ->].
  destruct (can_transition cls s new_state) as [e|[|]]; simpl; [done| |done].
  by rewrite lookup_insert_ne by key_ne.
Qed.

Lemma keeps_pending_add_code_to_history (code out err : string) :
  keeps_pending (tools.on_state (add_code_to_history code out err)).
Proof.
  intros w. unfold get_pending_code, tools.on_state, add_code_to_history,
    sm_bind, sm_get, sm_modify, sm_raise.
  destruct (dict_get _ _ _); simpl; try done.
  by rewrite lookup_insert_ne by key_ne.
Qed.

(** One step of a run that leaves the pending code alone, when nothing is
    asked of a call that raises. *)
Lemma wp_bind_pending {A B} (m : SM tools.world A) (k : A → SM tools.world B)
    (p : pyval) (Q : B → tools.world → Prop) (w : tools.world) :
  keeps_pending m →
  (∀ a w', get_pending_code (tools.state w') = Some p → wp (k a) (λ _, True) Q w') →
  get_pending_code (tools.state w) = Some p → wp (sm_bind m k) (λ _, True) Q w.
Proof.
  intros Hm Hk H. specialize (Hm w). unfold wp, sm_bind in *.
  destruct (m w) as [[e|a] w1]; simpl in Hm; [done|].
  apply Hk. by rewrite Hm.
Qed.

Lemma execute_code_never_completes (cls : class_object) (code sid : string)
    (w : tools.world) :
  wp (tools.execute_code (ST := tools.ADKState) cls code sid) (λ _, True)
    (λ r _, r = pending_approval code
            ∨ r = tools.EarlyError "No code pending for execution") w.
Proof.
  unfold tools.execute_code.
  do 5 (apply wp_any_bind; intros ? ?).
  apply wp_bind. eapply wp_step; [reflexivity|]. intros w1 Hw1.
  assert (get_pending_code (tools.state w1) = Some (PStr code)) as Hp
    by (rewrite Hw1; apply lookup_insert_eq).
  clear Hw1.
  destruct (_ || _); [|apply wp_ret; by left].
  apply (wp_bind_pending _ _ (PStr code)); [apply keeps_pending_transition| |done].
  clear w1 Hp. intros _ w1 Hp. apply wp_bind, wp_get. cbv beta. rewrite Hp.
  destruct (String.eqb code ""); [apply wp_ret; by right|].
  unfold tools.run_approved.
  apply (wp_bind_pending _ _ (PStr code)); [apply keeps_pending_transition| |done].
  clear w1 Hp. intros _ w1 Hp.
  apply (wp_bind_pending _ _ (PStr code)); [|clear w1 Hp|done].
  { apply keeps_pending_same_state. intros w2.
    unfold tools._get_or_create_repl, sm_bind, sm_get, sm_lift, sm_modify, sm_ret.
    destruct (tools._repl_environments w2 !! sid); [done|].
    by destruct (tools.new_repl (tools.state w2)). }
  intros repl w1 Hp.
  apply (wp_bind_pending _ _ (PStr code)); [|clear w1 Hp|done].
  { apply keeps_pending_same_state. intros w2. by destruct (execute code repl). }
  intros result w1 Hp.
  do 3 (apply (wp_bind_pending _ _ (PStr code));
          [apply keeps_pending_set_item; key_ne|clear w1 Hp; intros _ w1 Hp|done]).
  apply (wp_bind_pending _ _ (PStr code));
    [apply keeps_pending_add_code_to_history|clear w1 Hp; intros _ w1 Hp|done].
  apply (wp_bind_pending _ _ (PStr code));
    [by apply keeps_pending_same_state|clear w1 Hp; intros w2 w1 Hp|done].
  apply (wp_bind_pending _ _ (PStr code)); [|clear w1 Hp; intros _ w1 Hp|done].
  { apply keeps_pending_same_state. intros w3. by destruct (truthy _). }
  unfold wp. erewrite sm_bind_inl; [done|].
  by apply (clear_pending_code_raises w1 (PStr code)).
Qed.

(** X30: on the session's state store [execute_code] completes no run.
    Whatever the class object, the code and the state, a call that returns
    answers "pending approval" or "No code pending for execution": a run
    that reaches [clear_pending_code] finds the pending code it stored and
    raises at [del].  However the call ends, the stored iteration count is as
    it was before the call. *)
Theorem no_run_completes_on_the_state_store (cls : class_object) (code sid : string)
    (w : tools.world) :
  tools.state (snd (tools.execute_code (ST := tools.ADKState) cls code sid w))
    !! REPL_ITERATION_KEY
  = tools.state w !! REPL_ITERATION_KEY
  ∧ match fst (tools.execute_code (ST := tools.ADKState) cls code sid w) with
    | inr r => r = pending_approval code
               ∨ r = tools.EarlyError "No code pending for execution"
    | inl _ => True
    end.
Proof.
  pose proof (execute_code_never_completes cls code sid w) as Hrun.
  pose proof (execute_code_iteration (ST := tools.ADKState) cls code sid
                (tools.state w !! REPL_ITERATION_KEY) w eq_refl) as Hit.
  unfold wp in Hrun, Hit.
  destruct (tools.execute_code cls code sid w) as [[e|r] w']; simpl; [done|].
  split; [|done]. by destruct Hrun as [-> | ->].
Qed.

End StateStoreRun.

Lemma run_stops_at_clear_pending_code_witness :
  ∃ result env' w',
    tools.execute_code (ST := tools.ADKState) REPLStateManager_bound "x = 1" "s1"
      sample_world
    = (inl (Exn AttributeError "__delitem__"), w')
    ∧ tools.transitions w'
      = tools.transitions sample_world ++ [CODE_PENDING_REVIEW; CODE_APPROVED; EXECUTING]
    ∧ tools._repl_environments w'
      = <["s1" := env']> (tools._repl_environments sample_world)
    ∧ get_state_from_dict (tools.state w') = inr EXECUTING
    ∧ get_pending_code (tools.state w') = Some (PStr "x = 1")
    ∧ tools.state w' !! REPL_LAST_OUTPUT_KEY = Some (PStr (stdout result))
    ∧ tools.state w' !! REPL_LAST_ERROR_KEY = Some (PStr (stderr result))
    ∧ tools.state w' !! REPL_LOCALS_KEY = Some (PDict (locals_snapshot result))
    ∧ tools.state w' !! REPL_CODE_HISTORY_KEY
      = Some (PList ([] ++ [history_entry "x = 1" (stdout result) (stderr result)
                              (dict_get (tools.state sample_world) REPL_ITERATION_KEY
                                 (PInt 0))]))
    ∧ tools.state w' !! REPL_ITERATION_KEY
      = tools.state sample_world !! REPL_ITERATION_KEY
    ∧ ∀ code', ∃ e w'',
        tools.execute_code (ST := tools.ADKState) REPLStateManager_bound code' "s1" w'
        = (inl e, w'')
        ∧ exn_cls e = ValueError
        ∧ get_state_from_dict (tools.state w'') = inr EXECUTING
        ∧ tools.state w'' !! REPL_ITERATION_KEY
          = tools.state sample_world !! REPL_ITERATION_KEY.
Proof.
  do 2 eexists.
  eapply (run_stops_at_clear_pending_code (RT := MiniPy.runtime) REPLStateManager_bound
            sample_world "s1" "x = 1" _ _ _ BASIC []).
  - reflexivity.
  - reflexivity.
  - reflexivity.
  - discriminate.
  - discriminate.
  - reflexivity.
  - reflexivity.
  - reflexivity.
Defined.
